(** * Swagger-to-Postman generator: a shallow embedding of [src/main.ts]

    The development follows the source file top to bottom: JavaScript
    values and the handful of built-ins the program calls, then
    [createEnvironment], [hasTypeProperty], [generateFakeData],
    [createCollection], [saveToFile] and [main], and finally the
    properties of the specification.

    Conventions.
    - A JavaScript string is a [string]; each character stands for one
      UTF-16 code unit in the range 0..255.
    - A number is a [Z] (the program only tests numbers for being zero and
      prints the integers drawn from faker).
    - An object is the list of its own enumerable properties in the order
      [Object.entries] enumerates them; keys of an object are distinct.
    - The random generator behind [faker] is an explicit state threaded
      through every call, in evaluation order. *)

From Stdlib Require Import String Ascii List ZArith Bool Lia Arith.
Import ListNotations.
Local Open Scope list_scope.
Local Open Scope string_scope.

(** ** JavaScript values *)

Unset Elimination Schemes.
Inductive value : Type :=
| VUndefined : value
| VNull : value
| VBool : bool -> value
| VNum : Z -> value
| VStr : string -> value
| VArr : list value -> value
| VObj : list (string * value) -> value
| VFunc : value.   (* a built-in function reached through a prototype *)
Set Elimination Schemes.

Definition props := list (string * value).

(** Errors the program can raise: the built-in [TypeError], the
    [SyntaxError] of [JSON.parse], and [new Error(msg)] as thrown by
    [generateFakeData] (and, with the message of the system, by a failed
    file operation). *)
Inductive JsError : Type :=
| TypeError : JsError
| SyntaxError : JsError
| Error : string -> JsError.

Inductive Result (A : Type) : Type :=
| Ok : A -> Result A
| Throw : JsError -> Result A.
Arguments Ok {A} _.
Arguments Throw {A} _.

Definition isOk {A} (r : Result A) : bool :=
  match r with Ok _ => true | Throw _ => false end.

(** ** Strings *)

Module Str.

Fixpoint eqb_list (a b : list string) : bool :=
  match a, b with
  | [], [] => true
  | x :: a', y :: b' => String.eqb x y && eqb_list a' b'
  | _, _ => false
  end.

(** [s.split(c)] for a one-character separator. *)
Fixpoint split (c : ascii) (s : string) : list string :=
  match s with
  | EmptyString => [EmptyString]
  | String a s' =>
      if Ascii.eqb a c then EmptyString :: split c s'
      else match split c s' with
           | [] => [String a EmptyString]
           | seg :: segs => String a seg :: segs
           end
  end.

(** [arr.pop()]: the last element, [None] standing for [undefined]. *)
Fixpoint pop (l : list string) : option string :=
  match l with
  | [] => None
  | [x] => Some x
  | _ :: l' => pop l'
  end.

(** [arr.filter(Boolean)] on an array of strings: the empty string is
    the only falsy string. *)
Definition filterBoolean (l : list string) : list string :=
  filter (fun s => negb (String.eqb s "")) l.

(** [s.includes(c)] for a one-character needle. *)
Fixpoint includes (c : ascii) (s : string) : bool :=
  match s with
  | EmptyString => false
  | String a s' => Ascii.eqb a c || includes c s'
  end.

Fixpoint dropLast (s : string) : string :=
  match s with
  | EmptyString => EmptyString
  | String a EmptyString => EmptyString
  | String a s' => String a (dropLast s')
  end.

(** [s.slice(1, -1)]. *)
Definition slice_1_m1 (s : string) : string :=
  match s with
  | EmptyString => EmptyString
  | String _ s' => dropLast s'
  end.

(** The capital of one character.  Characters are code units below 256:
    the letters [a]-[z] and the accented letters 224-254 (the division
    sign 247 apart) give the unit 32 below, the sharp s (223) gives [SS].
    The capitals of the micro sign (181) and of the y with diaeresis (255)
    lie above 255, where this alphabet has no character: both are left
    as they are. *)
Definition upperChar (a : ascii) : string :=
  let n := nat_of_ascii a in
  if (97 <=? n)%nat && (n <=? 122)%nat
  then String (ascii_of_nat (n - 32)) EmptyString
  else if (n =? 223)%nat then "SS"
  else if (224 <=? n)%nat && (n <=? 254)%nat && negb (n =? 247)%nat
  then String (ascii_of_nat (n - 32)) EmptyString
  else String a EmptyString.

(** [s.toUpperCase()]. *)
Fixpoint toUpperCase (s : string) : string :=
  match s with
  | EmptyString => EmptyString
  | String a s' => upperChar a ++ toUpperCase s'
  end.

(** Line terminators, which [.] of a regular expression refuses. *)
Definition isLineTerminator (a : ascii) : bool :=
  Ascii.eqb a "010"%char || Ascii.eqb a "013"%char.

(** The tail [(.*?)}] of the pattern, tried right after a [{]: the
    shortest run of non-terminators up to the first [}].  Returns the
    run and what follows the [}]. *)
Fixpoint lazyToClose (s : string) : option (string * string) :=
  match s with
  | EmptyString => None
  | String a s' =>
      if Ascii.eqb a "}"%char then Some (EmptyString, s')
      else if isLineTerminator a then None
      else match lazyToClose s' with
           | Some (inner, rest) => Some (String a inner, rest)
           | None => None
           end
  end.

(** All matches of [/{(.*?)}/g], left to right; every step consumes at
    least one character, so [length s] steps are enough. *)
Fixpoint matchesFrom (fuel : nat) (s : string) : list string :=
  match fuel with
  | O => []
  | S fuel' =>
      match s with
      | EmptyString => []
      | String a s' =>
          if Ascii.eqb a "{"%char then
            match lazyToClose s' with
            | Some (inner, rest) =>
                ("{" ++ inner ++ "}") :: matchesFrom fuel' rest
            | None => matchesFrom fuel' s'
            end
          else matchesFrom fuel' s'
      end
  end.

(** [s.match(/{(.*?)}/g)]: [None] stands for [null] (no match). *)
Definition matchBraces (s : string) : option (list string) :=
  match matchesFrom (String.length s) s with
  | [] => None
  | ms => Some ms
  end.

Definition digitChar (n : nat) : ascii := ascii_of_nat (48 + n).

Fixpoint digitsOfNat (fuel n : nat) (acc : string) : string :=
  match fuel with
  | O => acc
  | S fuel' =>
      let acc' := String (digitChar (n mod 10)) acc in
      if (n <? 10)%nat then acc' else digitsOfNat fuel' (n / 10) acc'
  end.

(** Decimal digits of a natural number, as [String(n)] gives them. *)
Definition ofNat (n : nat) : string := digitsOfNat (S n) n EmptyString.

(** [String(n)] for an integer. *)
Definition ofZ (z : Z) : string :=
  match z with
  | Z0 => "0"
  | Zpos p => ofNat (Pos.to_nat p)
  | Zneg p => "-" ++ ofNat (Pos.to_nat p)
  end.

End Str.

(** ** Property access, truthiness, equality *)

(** [Boolean(v)]. *)
Definition truthy (v : value) : bool :=
  match v with
  | VUndefined | VNull => false
  | VBool b => b
  | VNum z => negb (Z.eqb z 0)
  | VStr s => negb (String.eqb s "")
  | VArr _ | VObj _ | VFunc => true
  end.

Fixpoint lookup (k : string) (l : props) : option value :=
  match l with
  | [] => None
  | (k', v) :: l' => if String.eqb k k' then Some v else lookup k l'
  end.

(** [v.k] and [v["k"]] for the property names the program spells out
    ([type], [properties], [items], [requestBody], [content],
    [application/json], [schema], [$ref], [parameters], [in], [name],
    [description], [summary]).  None of them is an array index or a member
    of a built-in prototype, so only an object can hold one; reading a
    property of [undefined] or [null] throws. *)
Definition getField (v : value) (k : string) : Result value :=
  match v with
  | VUndefined | VNull => Throw TypeError
  | VObj l => match lookup k l with Some x => Ok x | None => Ok VUndefined end
  | _ => Ok VUndefined
  end.

(** [v?.k]: short-circuits on [undefined] and [null]. *)
Definition isNullish (v : value) : bool :=
  match v with VUndefined | VNull => true | _ => false end.

(** Methods every object inherits from [Object.prototype]. *)
Definition objectPrototypeMethods : list string :=
  [ "constructor"; "__defineGetter__"; "__defineSetter__"; "hasOwnProperty";
    "__lookupGetter__"; "__lookupSetter__"; "isPrototypeOf";
    "propertyIsEnumerable"; "toString"; "valueOf"; "toLocaleString" ].

(** [o[k]] for a computed key [k] on a plain object: an own property
    first, then [Object.prototype] (whose accessor [__proto__] returns the
    prototype itself, an object without enumerable properties). *)
Definition getComputed (o : props) (k : string) : value :=
  match lookup k o with
  | Some x => x
  | None =>
      if existsb (String.eqb k) objectPrototypeMethods then VFunc
      else if String.eqb k "__proto__" then VObj []
      else VUndefined
  end.

(** Defining the own property [k] of a plain object (what [JSON.parse]
    and an object literal do): overwrite in place, or add last. *)
Fixpoint defineProp (o : props) (k : string) (x : value) : props :=
  match o with
  | [] => [(k, x)]
  | (k', v) :: o' =>
      if String.eqb k k' then (k', x) :: o' else (k', v) :: defineProp o' k x
  end.

(** [o[k] = x] on a plain object.  The key [__proto__], unless the
    object has a property of its own by that name, reaches the setter of
    [Object.prototype]: the assignment changes the prototype of the
    object (or nothing, when [x] is no object) and adds no property.
    The prototype is not part of a [value]; the inherited properties it
    brings are not enumerated and [JSON.stringify] does not write them. *)
Definition setProp (o : props) (k : string) (x : value) : props :=
  match lookup k o with
  | None => if String.eqb k "__proto__" then o else defineProp o k x
  | Some _ => defineProp o k x
  end.

(** [v === "s"] against a string literal. *)
Definition isStr (v : value) (s : string) : bool :=
  match v with VStr t => String.eqb t s | _ => false end.

Fixpoint indexed {A} (f : A -> value) (i : nat) (l : list A) : props :=
  match l with
  | [] => []
  | x :: l' => (Str.ofNat i, f x) :: indexed f (S i) l'
  end.

(** [Object.entries(v)]. *)
Definition Object_entries (v : value) : Result props :=
  match v with
  | VUndefined | VNull => Throw TypeError
  | VObj l => Ok l
  | VArr l => Ok (indexed (fun x => x) 0 l)
  | VStr s => Ok (indexed (fun c => VStr (String c EmptyString)) 0
                          (list_ascii_of_string s))
  | VBool _ | VNum _ | VFunc => Ok []
  end.

Fixpoint height (v : value) : nat :=
  match v with
  | VArr l => S (fold_right (fun x n => Nat.max (height x) n) 0%nat l)
  | VObj l => S (fold_right (fun kv n => Nat.max (height (snd kv)) n) 0%nat l)
  | _ => 0%nat
  end.

(** ** The faker library

    [faker.commerce.productName()], [faker.number.int()] and
    [faker.random.word()] draw from a hidden generator; here the generator
    state is explicit and each call returns the drawn value with the next
    state. *)
Record Faker : Type := {
  rng : Type;
  commerce_productName : rng -> string * rng;
  number_int : rng -> Z * rng;
  random_word : rng -> string * rng
}.

(** Computations that draw from faker and may throw. *)
Definition M (F : Faker) (A : Type) : Type := rng F -> Result (A * rng F).

Definition ret {F A} (a : A) : M F A := fun s => Ok (a, s).
Definition throw {F A} (e : JsError) : M F A := fun _ => Throw e.
Definition bind {F A B} (c : M F A) (k : A -> M F B) : M F B :=
  fun s => match c s with
           | Ok (a, s') => k a s'
           | Throw e => Throw e
           end.
Definition lift {F A} (r : Result A) : M F A :=
  fun s => match r with Ok a => Ok (a, s) | Throw e => Throw e end.
Definition draw {F A} (f : rng F -> A * rng F) : M F A := fun s => Ok (f s).

Declare Scope js_scope.
Delimit Scope js_scope with js.
Notation "x <- c ;; k" := (bind c (fun x => k))
  (at level 61, c at next level, right associativity) : js_scope.
Local Open Scope js_scope.

(** [arr.map(f)] when [f] has effects: left to right. *)
Fixpoint mapM {F A B} (f : A -> M F B) (l : list A) : M F (list B) :=
  match l with
  | [] => ret []
  | x :: l' => y <- f x ;; ys <- mapM f l' ;; ret (y :: ys)
  end.

(** ** JSON.stringify *)

Module JSON.

Definition dquote : ascii := "034"%char.
Definition backslash : ascii := "092"%char.
Definition nl : string := String "010"%char EmptyString.

Definition hexDigit (n : nat) : ascii :=
  if (n <? 10)%nat then ascii_of_nat (48 + n) else ascii_of_nat (87 + n).

(** One code unit of a quoted string (QuoteJSONString). *)
Definition quoteChar (a : ascii) : string :=
  let n := nat_of_ascii a in
  if (n =? 34)%nat then String backslash (String dquote EmptyString)
  else if (n =? 92)%nat then String backslash (String backslash EmptyString)
  else if (n =? 8)%nat then "\b"
  else if (n =? 12)%nat then "\f"
  else if (n =? 10)%nat then "\n"
  else if (n =? 13)%nat then "\r"
  else if (n =? 9)%nat then "\t"
  else if (n <? 32)%nat then
    "\u00" ++ String (hexDigit (n / 16)) (String (hexDigit (n mod 16)) EmptyString)
  else String a EmptyString.

Fixpoint quoteBody (s : string) : string :=
  match s with
  | EmptyString => EmptyString
  | String a s' => quoteChar a ++ quoteBody s'
  end.

Definition quote (s : string) : string :=
  String dquote (quoteBody s ++ String dquote EmptyString).

Fixpoint join (sep : string) (l : list string) : string :=
  match l with
  | [] => EmptyString
  | [x] => x
  | x :: l' => x ++ sep ++ join sep l'
  end.

(** The closing steps of SerializeJSONObject and SerializeJSONArray:
    [stepback] is the indentation outside, [indent] the one inside. *)
Definition wrap (lb rb gap stepback indent : string) (parts : list string)
  : string :=
  match parts with
  | [] => lb ++ rb
  | _ =>
      if String.eqb gap "" then lb ++ join "," parts ++ rb
      else lb ++ nl ++ indent ++ join ("," ++ nl ++ indent) parts
              ++ nl ++ stepback ++ rb
  end.

(** SerializeJSONProperty: [None] is the result [undefined]. *)
Fixpoint serialize (gap indent : string) (v : value) : option string :=
  match v with
  | VUndefined | VFunc => None
  | VNull => Some "null"
  | VBool true => Some "true"
  | VBool false => Some "false"
  | VNum z => Some (Str.ofZ z)
  | VStr s => Some (quote s)
  | VArr l =>
      let inner := indent ++ gap in
      let parts :=
        map (fun x => match serialize gap inner x with
                      | Some t => t
                      | None => "null"
                      end) l in
      Some (wrap "[" "]" gap indent inner parts)
  | VObj l =>
      let inner := indent ++ gap in
      let parts :=
        (fix members (l : list (string * value)) : list string :=
           match l with
           | [] => []
           | (k, x) :: l' =>
               match serialize gap inner x with
               | Some t =>
                   (quote k ++ ":" ++ (if String.eqb gap "" then "" else " ")
                      ++ t) :: members l'
               | None => members l'
               end
           end) l in
      Some (wrap "{" "}" gap indent inner parts)
  end.

(** [JSON.stringify(v)]. *)
Definition stringify (v : value) : value :=
  match serialize "" "" v with Some s => VStr s | None => VUndefined end.

(** [JSON.stringify(v, null, 2)]. *)
Definition stringify2 (v : value) : value :=
  match serialize "  " "" v with Some s => VStr s | None => VUndefined end.

(** *** JSON.parse

    The reader of JSON text, for the texts of this model: numbers are
    integers (a fraction or an exponent is not read), a [\u] escape names
    a code unit below 256, and the members of an object are kept in the
    order of the text.  [None] stands for the [SyntaxError]. *)

Definition isWs (a : ascii) : bool :=
  let n := nat_of_ascii a in
  (n =? 32)%nat || (n =? 9)%nat || (n =? 10)%nat || (n =? 13)%nat.

Fixpoint skipWs (s : string) : string :=
  match s with
  | EmptyString => EmptyString
  | String a s' => if isWs a then skipWs s' else s
  end.

Definition isDigit (a : ascii) : bool :=
  let n := nat_of_ascii a in (48 <=? n)%nat && (n <=? 57)%nat.

Definition hexValue (a : ascii) : option nat :=
  let n := nat_of_ascii a in
  if (48 <=? n)%nat && (n <=? 57)%nat then Some (n - 48)
  else if (97 <=? n)%nat && (n <=? 102)%nat then Some (n - 87)
  else if (65 <=? n)%nat && (n <=? 70)%nat then Some (n - 55)
  else None.

(** The character a one-letter escape stands for. *)
Definition unescape (e : ascii) : option ascii :=
  let n := nat_of_ascii e in
  if (n =? 34)%nat then Some dquote
  else if (n =? 92)%nat then Some backslash
  else if (n =? 47)%nat then Some "/"%char
  else if (n =? 98)%nat then Some "008"%char
  else if (n =? 102)%nat then Some "012"%char
  else if (n =? 110)%nat then Some "010"%char
  else if (n =? 114)%nat then Some "013"%char
  else if (n =? 116)%nat then Some "009"%char
  else None.

Definition hex4 (a b c d : ascii) : option nat :=
  match hexValue a, hexValue b, hexValue c, hexValue d with
  | Some x, Some y, Some z, Some w => Some (((x * 16 + y) * 16 + z) * 16 + w)
  | _, _, _, _ => None
  end.

(** The characters of a string literal, read after its opening quote:
    the string, and the text after the closing quote. *)
Fixpoint parseChars (s : string) : option (string * string) :=
  match s with
  | EmptyString => None
  | String a s' =>
      if Ascii.eqb a dquote then Some (EmptyString, s')
      else if Ascii.eqb a backslash then
        match s' with
        | EmptyString => None
        | String e s'' =>
            match unescape e with
            | Some c =>
                match parseChars s'' with
                | Some (t, r) => Some (String c t, r)
                | None => None
                end
            | None =>
                if Ascii.eqb e "u"%char then
                  match s'' with
                  | String h1 (String h2 (String h3 (String h4 r))) =>
                      match hex4 h1 h2 h3 h4 with
                      | Some n =>
                          if (n <? 256)%nat then
                            match parseChars r with
                            | Some (t, r') =>
                                Some (String (ascii_of_nat n) t, r')
                            | None => None
                            end
                          else None
                      | None => None
                      end
                  | _ => None
                  end
                else None
            end
        end
      else if (nat_of_ascii a <? 32)%nat then None
      else
        match parseChars s' with
        | Some (t, r) => Some (String a t, r)
        | None => None
        end
  end.

(** The digits at the head of [s], added to [acc] in base ten. *)
Fixpoint parseDigits (s : string) (acc : nat) : nat * string :=
  match s with
  | EmptyString => (acc, EmptyString)
  | String a s' =>
      if isDigit a then parseDigits s' (acc * 10 + (nat_of_ascii a - 48))
      else (acc, s)
  end.

(** What may not follow the integer part in this model. *)
Definition continuesNumber (s : string) : bool :=
  match s with
  | EmptyString => false
  | String a _ =>
      Ascii.eqb a "."%char || Ascii.eqb a "e"%char || Ascii.eqb a "E"%char
  end.

(** An unsigned integer: one digit at least, no zero in front. *)
Definition parseNat (s : string) : option (nat * string) :=
  match s with
  | EmptyString => None
  | String a s' =>
      if isDigit a then
        let (n, r) := parseDigits s 0 in
        if Ascii.eqb a "0"%char && negb (String.eqb r s') then None
        else if continuesNumber r then None
        else Some (n, r)
      else None
  end.

Definition parseNumber (s : string) : option (value * string) :=
  match s with
  | EmptyString => None
  | String a s' =>
      if Ascii.eqb a "-"%char then
        match parseNat s' with
        | Some (n, r) => Some (VNum (- Z.of_nat n), r)
        | None => None
        end
      else
        match parseNat s with
        | Some (n, r) => Some (VNum (Z.of_nat n), r)
        | None => None
        end
  end.

(** [s] starts with the word [w]: what follows it. *)
Fixpoint afterWord (w s : string) : option string :=
  match w with
  | EmptyString => Some s
  | String a w' =>
      match s with
      | EmptyString => None
      | String b s' => if Ascii.eqb a b then afterWord w' s' else None
      end
  end.

(** A value, the elements of an array after its bracket, the members of
    an object after its brace.  Every call reads a character at least, so
    the length of the text bounds the depth of the calls. *)
Fixpoint parseValue (fuel : nat) (s : string) : option (value * string) :=
  match fuel with
  | O => None
  | S fuel' =>
      match skipWs s with
      | EmptyString => None
      | String a r =>
          if Ascii.eqb a "{"%char then
            match skipWs r with
            | EmptyString => None
            | String b r' =>
                if Ascii.eqb b "}"%char then Some (VObj [], r')
                else parseMembers fuel' r []
            end
          else if Ascii.eqb a "["%char then
            match skipWs r with
            | EmptyString => None
            | String b r' =>
                if Ascii.eqb b "]"%char then Some (VArr [], r')
                else parseElements fuel' r []
            end
          else if Ascii.eqb a dquote then
            match parseChars r with
            | Some (t, r') => Some (VStr t, r')
            | None => None
            end
          else if Ascii.eqb a "t"%char then
            match afterWord "rue" r with
            | Some r' => Some (VBool true, r')
            | None => None
            end
          else if Ascii.eqb a "f"%char then
            match afterWord "alse" r with
            | Some r' => Some (VBool false, r')
            | None => None
            end
          else if Ascii.eqb a "n"%char then
            match afterWord "ull" r with
            | Some r' => Some (VNull, r')
            | None => None
            end
          else parseNumber (String a r)
      end
  end

with parseElements (fuel : nat) (s : string) (acc : list value)
  : option (value * string) :=
  match fuel with
  | O => None
  | S fuel' =>
      match parseValue fuel' s with
      | None => None
      | Some (v, r) =>
          match skipWs r with
          | EmptyString => None
          | String a r' =>
              if Ascii.eqb a ","%char
              then parseElements fuel' r' (acc ++ [v])%list
              else if Ascii.eqb a "]"%char
                   then Some (VArr (acc ++ [v])%list, r')
                   else None
          end
      end
  end

with parseMembers (fuel : nat) (s : string) (acc : props)
  : option (value * string) :=
  match fuel with
  | O => None
  | S fuel' =>
      match skipWs s with
      | EmptyString => None
      | String q r =>
          if Ascii.eqb q dquote then
            match parseChars r with
            | None => None
            | Some (k, r1) =>
                match skipWs r1 with
                | EmptyString => None
                | String c r2 =>
                    if Ascii.eqb c ":"%char then
                      match parseValue fuel' r2 with
                      | None => None
                      | Some (v, r3) =>
                          match skipWs r3 with
                          | EmptyString => None
                          | String a r4 =>
                              if Ascii.eqb a ","%char
                              then parseMembers fuel' r4 (defineProp acc k v)
                              else if Ascii.eqb a "}"%char
                                   then Some (VObj (defineProp acc k v), r4)
                                   else None
                          end
                      end
                    else None
                end
            end
          else None
      end
  end.

(** [JSON.parse(text)]. *)
Definition parse (text : string) : Result value :=
  match parseValue (S (String.length text)) text with
  | Some (v, r) =>
      match skipWs r with
      | EmptyString => Ok v
      | _ => Throw SyntaxError
      end
  | None => Throw SyntaxError
  end.

End JSON.

(** ** The program *)

Record Server : Type := { url : string }.
Record Components : Type := { schemas : props }.

(** [interface Swagger]. *)
Record Swagger : Type := {
  servers : list Server;
  paths : list (string * props);
  components : Components
}.

Section Environment.

(** [new URL(s).host]: the platform's URL parser, [None] when it rejects
    the string (the constructor then throws a [TypeError]). *)
Variable URL_host : string -> option string.

Definition newURL_host (s : string) : Result string :=
  match URL_host s with Some h => Ok h | None => Throw TypeError end.

Definition createEnvironment (serverUrl : string) : Result value :=
  match newURL_host serverUrl with
  | Throw e => Throw e
  | Ok host =>
      Ok (VObj [("environment",
                 VObj [("name", VStr host);
                       ("values",
                        VArr [VObj [("key", VStr "base_url");
                                    ("value", VStr serverUrl);
                                    ("enabled", VBool true)]])])])
  end.

End Environment.

(** [obj && obj.type]: the value of the conjunction. *)
Definition hasTypeProperty (obj : value) : Result value :=
  if truthy obj then getField obj "type" else Ok obj.

(** The chain
    [details.requestBody?.content["application/json"]?.schema?.$ref]. *)
Definition bodySchemaRef (details : value) : Result value :=
  match getField details "requestBody" with
  | Throw e => Throw e
  | Ok requestBody =>
      if isNullish requestBody then Ok VUndefined
      else
        match getField requestBody "content" with
        | Throw e => Throw e
        | Ok content =>
            match getField content "application/json" with
            | Throw e => Throw e
            | Ok json =>
                if isNullish json then Ok VUndefined
                else
                  match getField json "schema" with
                  | Throw e => Throw e
                  | Ok schema =>
                      if isNullish schema then Ok VUndefined
                      else getField schema "$ref"
                  end
            end
        end
  end.

(** [ref.split("/")]: only a string has the method. *)
Definition splitSlash (ref : value) : Result (list string) :=
  match ref with
  | VStr s => Ok (Str.split "/"%char s)
  | _ => Throw TypeError
  end.

(** [parts.pop()!] used as a property key ([undefined] would read as the
    key of that name). *)
Definition schemaKey (parts : list string) : string :=
  match Str.pop parts with Some k => k | None => "undefined" end.

Section Generator.

Variable F : Faker.

(** One turn of the loop of [generateFakeData]; [self] is the function
    itself, for the two recursive calls. *)
Definition genEntry (self : value -> M F value) (data : props)
           (key : string) (value : value) : M F props :=
  has <- lift (hasTypeProperty value) ;;
  if negb (truthy has) then
    throw (Error ("Type property is missing for " ++ key))
  else
    t1 <- (if truthy value then lift (getField value "type") else ret value) ;;
    if truthy value && isStr t1 "string" then
      s <- draw (commerce_productName F) ;;
      ret (setProp data key (VStr s))
    else
      t2 <- lift (getField value "type") ;;
      if isStr t2 "integer" then
        n <- draw (number_int F) ;;
        ret (setProp data key (VNum n))
      else
        t3 <- lift (getField value "type") ;;
        items <- (if isStr t3 "array" then lift (getField value "items")
                  else ret VUndefined) ;;
        if isStr t3 "array" && truthy items then
          items' <- lift (getField value "items") ;;
          d <- self items' ;;
          ret (setProp data key (VArr [d]))
        else
          t4 <- lift (getField value "type") ;;
          if isStr t4 "object" then
            d <- self value ;;
            ret (setProp data key d)
          else ret data.

Fixpoint forEntries (step : props -> string -> value -> M F props)
         (entries : props) (data : props) : M F props :=
  match entries with
  | [] => ret data
  | (key, value) :: rest =>
      data' <- step data key value ;;
      forEntries step rest data'
  end.

Definition genBody (self : value -> M F value) (schema : value) : M F value :=
  ps <- lift (getField schema "properties") ;;
  entries <- lift (Object_entries ps) ;;
  data <- forEntries (genEntry self) entries [] ;;
  ret (VObj data).

(** The recursion of [generateFakeData] follows the nesting of the
    schema: [n] unfoldings are enough for a schema of height below [n],
    see [generateFakeData_unfold]. *)
Fixpoint genDepth (n : nat) : value -> M F value :=
  match n with
  | O => fun _ => throw TypeError
  | S n' => genBody (genDepth n')
  end.

Definition generateFakeData (schema : value) : M F value :=
  genDepth (S (height schema)) schema.

(** Lines 65-75: the optional request body. *)
Definition requestBody (swagger : Swagger) (details : value) : M F value :=
  ref <- lift (bodySchemaRef details) ;;
  if truthy ref then
    parts <- lift (splitSlash ref) ;;
    let schema := getComputed (schemas (components swagger))
                              (schemaKey parts) in
    data <- generateFakeData schema ;;
    ret (VObj [("mode", VStr "raw"); ("raw", JSON.stringify data)])
  else ret VUndefined.

(** [filter] with a callback that may throw. *)
Fixpoint filterM {A} (f : A -> M F bool) (l : list A) : M F (list A) :=
  match l with
  | [] => ret []
  | x :: l' =>
      b <- f x ;;
      ys <- filterM f l' ;;
      ret (if b then x :: ys else ys)
  end.

Definition isQuery (param : value) : M F bool :=
  loc <- lift (getField param "in") ;;
  ret (isStr loc "query").

Definition queryEntry (param : value) : M F value :=
  key <- lift (getField param "name") ;;
  schema <- lift (getField param "schema") ;;
  ty <- lift (getField schema "type") ;;
  val <- (if isStr ty "array" then
            w <- draw (random_word F) ;;
            ret (JSON.stringify (VArr [VStr w]))
          else
            w <- draw (random_word F) ;;
            ret (VStr w)) ;;
  description <- lift (getField param "description") ;;
  ret (VObj [("key", key); ("value", val); ("description", description)]).

(** Lines 77-87: the query parameters. *)
Definition queryParams (details : value) : M F value :=
  parameters <- lift (getField details "parameters") ;;
  if isNullish parameters then ret (VArr [])
  else
    match parameters with
    | VArr ps =>
        qs <- filterM isQuery ps ;;
        entries <- mapM queryEntry qs ;;
        ret (VArr entries)
    | _ => throw TypeError
    end.

Definition pathVariable (v : string) : value :=
  VObj [("key", VStr (Str.slice_1_m1 v));
        ("value", VStr "");
        ("description", VStr "")].

(** Lines 99-105: the path variables. *)
Definition pathVariables (path : string) : Result value :=
  if Str.includes "{"%char path then
    match Str.matchBraces path with
    | Some ms => Ok (VArr (map pathVariable ms))
    | None => Throw TypeError
    end
  else Ok (VArr []).

(** The callback of [Object.entries(methods).map] (lines 64-111): the
    request item of one operation. *)
Definition requestItem (swagger : Swagger) (path method : string)
           (details : value) : M F value :=
  body <- requestBody swagger details ;;
  query <- queryParams details ;;
  summary <- lift (getField details "summary") ;;
  variable <- lift (pathVariables path) ;;
  ret (VObj
         [("name", if truthy summary then summary else VStr path);
          ("request",
           VObj [("method", VStr (Str.toUpperCase method));
                 ("header", VArr []);
                 ("url",
                  VObj [("raw", VStr ("{{base_url}}" ++ path));
                        ("host", VArr [VStr "{{base_url}}"]);
                        ("path",
                         VArr (map VStr
                                 (Str.filterBoolean
                                    (Str.split "/"%char path))));
                        ("query", query);
                        ("variable", variable)]);
                 ("body", body)]);
          ("response", VArr [])]).

(** [Object.entries(swagger.paths).flatMap(...)]. *)
Fixpoint pathItems (swagger : Swagger) (ps : list (string * props))
  : M F (list value) :=
  match ps with
  | [] => ret []
  | (path, methods) :: ps' =>
      items <- mapM (fun md => requestItem swagger path (fst md) (snd md))
                    methods ;;
      rest <- pathItems swagger ps' ;;
      ret (items ++ rest)%list
  end.

Definition createCollection (swagger : Swagger) : M F value :=
  item <- pathItems swagger (paths swagger) ;;
  ret (VObj
         [("collection",
           VObj [("info",
                  VObj [("name", VStr "Generated Collection");
                        ("description",
                         VStr "Collection generated from Swagger file");
                        ("schema",
                         VStr "https://schema.getpostman.com/json/collection/v2.1.0/collection.json")]);
                 ("item", VArr item)])]).

End Generator.


(** ** Files, the console and [main] *)

(** What [console.log] received: a structure rendered by [util.inspect],
    or a line of text. *)
Inductive Output : Type :=
| Inspected : value -> Output
| Line : string -> Output.

(** What a file holds once the writes started on it have ended: a text,
    or a content of which nothing is said, as it depends on how the
    platform carries out the writes. *)
Inductive Content : Type :=
| Text : string -> Content
| Indeterminate : Content.

(** The part of the outside world the program touches.  [swaggerFile] is
    the outcome of [fetchSwagger] (reading and parsing the input file, the
    result taken as a [Swagger]); [writeError] tells which file names
    [fs.writeFile] rejects, and with what; [files] is the disk as the
    writes started so far leave it; [inFlight] names the files with a
    write started and not awaited; [unhandled] collects the rejections of
    promises nobody awaits. *)
Record World : Type := {
  swaggerFile : Result Swagger;
  writeError : string -> option JsError;
  files : list (string * Content);
  inFlight : list string;
  stdout : list Output;
  stderr : list JsError;
  unhandled : list JsError
}.

Definition console_log (o : Output) (w : World) : World :=
  {| swaggerFile := swaggerFile w; writeError := writeError w;
     files := files w; inFlight := inFlight w;
     stdout := (stdout w ++ [o])%list;
     stderr := stderr w; unhandled := unhandled w |}.

Definition console_error (e : JsError) (w : World) : World :=
  {| swaggerFile := swaggerFile w; writeError := writeError w;
     files := files w; inFlight := inFlight w; stdout := stdout w;
     stderr := (stderr w ++ [e])%list; unhandled := unhandled w |}.

Fixpoint setFile (fs : list (string * Content)) (name : string) (c : Content)
  : list (string * Content) :=
  match fs with
  | [] => [(name, c)]
  | (n, t) :: fs' =>
      if String.eqb name n then (n, c) :: fs'
      else (n, t) :: setFile fs' name c
  end.

Fixpoint readFile (fs : list (string * Content)) (name : string)
  : option Content :=
  match fs with
  | [] => None
  | (n, t) :: fs' => if String.eqb name n then Some t else readFile fs' name
  end.

(** A write to the file is under way. *)
Definition busy (name : string) (w : World) : bool :=
  existsb (String.eqb name) (inFlight w).

(** A promise of the program: the file whose write it waits for, if
    any, and how it settles. *)
Record Promise : Type := {
  target : option string;
  settles : Result unit
}.

(** [fs.writeFile(name, text)]: the write starts and its promise is
    returned.  The file is opened with flag [w], which empties it, and the
    text is written after.  A write that is rejected may leave the file
    as it was, empty, or with a part of the text; a write that starts
    while another write to the same file is under way leaves a mix of the
    two.  In both cases the content is [Indeterminate]. *)
Definition writeFile (name text : string) (w : World) : World * Promise :=
  let content :=
    match writeError w name with
    | Some _ => Indeterminate
    | None => if busy name w then Indeterminate else Text text
    end in
  ({| swaggerFile := swaggerFile w; writeError := writeError w;
      files := setFile (files w) name content;
      inFlight := name :: inFlight w; stdout := stdout w;
      stderr := stderr w; unhandled := unhandled w |},
   {| target := Some name;
      settles := match writeError w name with
                 | Some e => Throw e
                 | None => Ok tt
                 end |}).

(** [saveToFile]: the text is computed at the call, the write starts,
    and the promise settles as the promise of [fs.writeFile] does
    ([fs.writeFile] refuses [undefined] for data before it opens the
    file). *)
Definition saveToFile (filename : string) (data : value) (w : World)
  : World * Promise :=
  match JSON.stringify2 data with
  | VStr text => writeFile filename text w
  | _ => (w, {| target := None; settles := Throw TypeError |})
  end.



(** A call whose promise is dropped (lines 158 and 172): the program
    goes on at once, the write stays under way for all that follows, and
    a rejection reaches no handler of the program. *)
Definition notAwaited (r : World * Promise) : World :=
  let (w, p) := r in
  match settles p with
  | Ok _ => w
  | Throw e =>
      {| swaggerFile := swaggerFile w; writeError := writeError w;
         files := files w; inFlight := inFlight w; stdout := stdout w;
         stderr := stderr w; unhandled := (unhandled w ++ [e])%list |}
  end.

(** The content of a file when the process has ended.  A rejection that
    nobody handles ends the process at once, and cuts short the writes
    that are under way. *)
Definition disk (w : World) (name : string) : option Content :=
  match readFile (files w) name with
  | Some c =>
      Some (match unhandled w with
            | [] => c
            | _ :: _ => if busy name w then Indeterminate else c
            end)
  | None => None
  end.

Section Main.

Variable F : Faker.
Variable URL_host : string -> option string.

(** The loop of [main] over the servers (lines 147-159). *)
Fixpoint forServers (l : list Server) (w : World) : World * Result unit :=
  match l with
  | [] => (w, Ok tt)
  | server :: rest =>
      match createEnvironment URL_host (url server) with
      | Throw e => (w, Throw e)
      | Ok environment =>
          let w1 := console_log (Inspected environment) w in
          match newURL_host URL_host (url server) with
          | Throw e => (w1, Throw e)
          | Ok host =>
              let w2 :=
                notAwaited
                  (saveToFile ("environment_" ++ host ++ ".json")
                              environment w1) in
              forServers rest w2
          end
      end
  end.

(** [main]: the world when its promise settles, and how it settles. *)
Definition main (seed : rng F) (w : World) : World * Result unit :=
  match swaggerFile w with
  | Throw e => (w, Throw e)
  | Ok swagger =>
      match forServers (servers swagger) w with
      | (w1, Throw e) => (w1, Throw e)
      | (w1, Ok _) =>
          match createCollection F swagger seed with
          | Throw e => (w1, Throw e)
          | Ok (collection, _) =>
              let w2 := console_log (Inspected collection) w1 in
              let w3 :=
                notAwaited
                  (saveToFile "collection_generated.json" collection w2) in
              (console_log
                 (Line "Environments and Collection created/updated successfully.")
                 w3, Ok tt)
          end
      end
  end.

(** [main().catch(console.error)]. *)
Definition run (seed : rng F) (w : World) : World :=
  match main seed w with
  | (w', Ok _) => w'
  | (w', Throw e) => console_error e w'
  end.

End Main.

(** ** The Postman API (lines 116-137) *)

Definition apiKey : string := "YOUR_POSTMAN_API_KEY".
Definition postmanBaseUrl : string := "https://api.getpostman.com".

(** A call of axios: the method, the URL, the headers and the data
    sent. *)
Record Request : Type := {
  reqMethod : string;
  reqUrl : string;
  reqHeaders : list (string * string);
  reqData : value
}.

Section Postman.

(** The server: the body of the response to a request, a JSON object,
    or the error axios rejects with. *)
Variable network : Request -> Result props.

(** [items.find(item => item.name === name)]. *)
Fixpoint findByName (items : list value) (name : string) : Result value :=
  match items with
  | [] => Ok VUndefined
  | item :: rest =>
      match getField item "name" with
      | Throw e => Throw e
      | Ok n => if isStr n name then Ok item else findByName rest name
      end
  end.

Definition checkResourceExists (resource name : string) : Result value :=
  match network {| reqMethod := "get";
                   reqUrl := postmanBaseUrl ++ "/" ++ resource;
                   reqHeaders := [("X-Api-Key", apiKey)];
                   reqData := VUndefined |} with
  | Throw e => Throw e
  | Ok data =>
      match getComputed data resource with
      | VArr items =>
          match findByName items name with
          | Throw e => Throw e
          | Ok item => if truthy item then getField item "uid" else Ok VNull
          end
      | _ => Throw TypeError
      end
  end.

(** The request of [createOrUpdateResource]; [uid] is a string or
    [null] ([None]), and the empty string is falsy. *)
Definition upsertRequest (resource : string) (uid : option string)
           (data : value) : Request :=
  let given :=
    match uid with
    | Some u => negb (String.eqb u "")
    | None => false
    end in
  {| reqMethod := if given then "put" else "post";
     reqUrl := postmanBaseUrl ++ "/" ++ resource
               ++ (if given
                   then "/" ++ match uid with Some u => u | None => "" end
                   else "");
     reqHeaders := [("X-Api-Key", apiKey);
                    ("Content-Type", "application/json")];
     reqData := data |}.

Definition createOrUpdateResource (resource : string) (uid : option string)
           (data : value) : Result unit :=
  match network (upsertRequest resource uid data) with
  | Throw e => Throw e
  | Ok _ => Ok tt
  end.

End Postman.
(** * Vocabulary of the specification *)

(** The field [k] of [v], [undefined] when [v] has none. *)
Definition fieldOf (v : value) (k : string) : value :=
  match getField v k with Ok x => x | Throw _ => VUndefined end.

(** The declared type and the [items] of a property node. *)
Definition typeOf (node : value) : value := fieldOf node "type".
Definition itemsOf (node : value) : value := fieldOf node "items".

(** The message of the error [generateFakeData] throws; the specification
    calls it a SchemaError. *)
Definition SchemaError (key : string) : JsError :=
  Error ("Type property is missing for " ++ key).

(** The four declared types the generator produces a value for. *)
Definition recognisedType (t : value) : bool :=
  isStr t "string" || isStr t "integer" || isStr t "array" || isStr t "object".

(** A node the loop passes over without a word: its type is there, but
    none of the branches takes it. *)
Definition skipped (node : value) : bool :=
  truthy (typeOf node)
  && negb (isStr (typeOf node) "string")
  && negb (isStr (typeOf node) "integer")
  && negb (isStr (typeOf node) "array" && truthy (itemsOf node))
  && negb (isStr (typeOf node) "object").

(** A schema given by its property list alone. *)
Definition schemaOf (ps : props) : value := VObj [("properties", VObj ps)].

(** A fixed faker for concrete runs: the state counts the draws. *)
Definition demoFaker : Faker :=
  {| rng := nat;
     commerce_productName := fun n => ("Handcrafted Steel Chair", S n);
     number_int := fun n => (Z.of_nat n + 41, S n)%Z;
     random_word := fun n => ("bandwidth", S n) |}.

(** A schema node the generator cannot enumerate: it has no [properties]
    (or is itself [undefined] or [null]). *)
Definition lacksProperties (schema : value) : bool :=
  match getField schema "properties" with
  | Ok ps => isNullish ps
  | Throw _ => true
  end.

(** The operations of a Spec, in the order [createCollection] visits
    them: path by path, method by method. *)
Record Operation : Type := {
  opPath : string;
  opMethod : string;
  opDetails : value
}.

Definition operations (swagger : Swagger) : list Operation :=
  flat_map (fun pm =>
              map (fun md => {| opPath := fst pm;
                                opMethod := fst md;
                                opDetails := snd md |}) (snd pm))
           (paths swagger).

Definition operationItem (F : Faker) (swagger : Swagger) (op : Operation)
  : M F value :=
  requestItem F swagger (opPath op) (opMethod op) (opDetails op).

(** The collection document around a list of request items. *)
Definition collectionDoc (item : list value) : value :=
  VObj
    [("collection",
      VObj [("info",
             VObj [("name", VStr "Generated Collection");
                   ("description",
                    VStr "Collection generated from Swagger file");
                   ("schema",
                    VStr "https://schema.getpostman.com/json/collection/v2.1.0/collection.json")]);
            ("item", VArr item)])].

(** [v.k1.k2...] on a generated document, [undefined] where a step is
    missing. *)
Fixpoint getPath (v : value) (ks : list string) : value :=
  match ks with
  | [] => v
  | k :: ks' =>
      match v with
      | VObj l =>
          match lookup k l with
          | Some x => getPath x ks'
          | None => VUndefined
          end
      | _ => VUndefined
      end
  end.

(** The request item [requestItem] assembles from its parts. *)
Definition itemDoc (name : value) (method path : string)
           (query variable body : value) : value :=
  VObj
    [("name", name);
     ("request",
      VObj [("method", VStr (Str.toUpperCase method));
            ("header", VArr []);
            ("url",
             VObj [("raw", VStr ("{{base_url}}" ++ path));
                   ("host", VArr [VStr "{{base_url}}"]);
                   ("path",
                    VArr (map VStr
                            (Str.filterBoolean (Str.split "/"%char path))));
                   ("query", query);
                   ("variable", variable)]);
            ("body", body)]);
     ("response", VArr [])].

(** Sample inputs for the concrete runs. *)
Module Demo.

(** An operation object declaring a JSON request body by reference. *)
Definition withBody (ref : string) : value :=
  VObj [("requestBody",
         VObj [("content",
                VObj [("application/json",
                       VObj [("schema", VObj [("$ref", VStr ref)])])])])].

Definition petSchema : value :=
  VObj [("type", VStr "object");
        ("properties",
         VObj [("id", VObj [("type", VStr "integer")]);
               ("name", VObj [("type", VStr "string")])])].

(** Every kind of property the generator knows. *)
Definition richSchema : value :=
  schemaOf
    [("id", VObj [("type", VStr "integer")]);
     ("name", VObj [("type", VStr "string")]);
     ("tags",
      VObj [("type", VStr "array");
            ("items",
             schemaOf [("label", VObj [("type", VStr "string")])])]);
     ("owner",
      VObj [("type", VStr "object");
            ("properties",
             VObj [("email", VObj [("type", VStr "string")])])])].

(** What the generator makes of [richSchema] with [demoFaker]. *)
Definition richData : value :=
  VObj [("id", VNum 41);
        ("name", VStr "Handcrafted Steel Chair");
        ("tags", VArr [VObj [("label", VStr "Handcrafted Steel Chair")]]);
        ("owner", VObj [("email", VStr "Handcrafted Steel Chair")])].

(** A schema with a property named [__proto__]. *)
Definition protoSchema : value :=
  schemaOf
    [("a", VObj [("type", VStr "string")]);
     ("__proto__",
      VObj [("type", VStr "object");
            ("properties",
             VObj [("email", VObj [("type", VStr "string")])])]);
     ("b", VObj [("type", VStr "integer")])].

(** An array property without [items]. *)
Definition bareArraySchema : value :=
  schemaOf [("tags", VObj [("type", VStr "array")])].

(** A schema with a property that declares no type. *)
Definition untypedSchema : value := schemaOf [("x", VObj [])].

(** Two operations: the first refers to [untypedSchema], the second to
    a schema that [components.schemas] does not hold. *)
Definition danglingSpec : Swagger :=
  {| servers := [];
     paths := [("/a", [("post", withBody "#/components/schemas/Untyped")]);
               ("/b", [("post", withBody "#/components/schemas/Missing")])];
     components := {| schemas := [("Untyped", untypedSchema)] |} |}.

(** One operation whose reference dangles. *)
Definition missingSpec : Swagger :=
  {| servers := [];
     paths := [("/b", [("post", withBody "#/components/schemas/Missing")])];
     components := {| schemas := [("Pet", petSchema)] |} |}.

Definition petSpec : Swagger :=
  {| servers := [ {| url := "https://api.example.com" |} ];
     paths := [("/pets", [("post", withBody "#/components/schemas/Pet");
                          ("get", VObj [("summary", VStr "List pets")])])];
     components := {| schemas := [("Pet", petSchema)] |} |}.

End Demo.

(** The properties a schema declares, as the loop enumerates them. *)
Definition declaredProperties (schema : value) : props :=
  match getField schema "properties" with
  | Ok ps => match Object_entries ps with Ok es => es | Throw _ => [] end
  | Throw _ => []
  end.

Fixpoint distinct (l : list string) : bool :=
  match l with
  | [] => true
  | x :: l' => negb (existsb (String.eqb x) l') && distinct l'
  end.

(** A property node the generator produces a value for: it declares one
    of the four types, an array comes with an [items] schema and an object
    with nested [properties], and so on inside ([schemaOk] says it of the
    nested schemas). *)
Definition nodeOk (schemaOk : value -> bool) (node : value) : bool :=
  isStr (typeOf node) "string"
  || isStr (typeOf node) "integer"
  || (isStr (typeOf node) "array" && truthy (itemsOf node)
      && schemaOk (itemsOf node))
  || (isStr (typeOf node) "object" && schemaOk node).

(** A schema with a [properties] mapping all of whose nodes are
    [nodeOk], through at most [n] levels of nesting. *)
Fixpoint schemaOk (n : nat) (schema : value) : bool :=
  match n with
  | O => false
  | S n' =>
      match getField schema "properties" with
      | Ok ps =>
          match Object_entries ps with
          | Ok es => forallb (fun kv => nodeOk (schemaOk n') (snd kv)) es
          | Throw _ => false
          end
      | Throw _ => false
      end
  end.

(** The runtime type of a produced value against the declared type. *)
Definition runtimeMatches (node produced : value) : bool :=
  match produced with
  | VStr _ => isStr (typeOf node) "string"
  | VNum _ => isStr (typeOf node) "integer"
  | VArr [_] => isStr (typeOf node) "array"
  | VObj _ => isStr (typeOf node) "object"
  | _ => false
  end.

(** The entries an assignment makes a property of: all but the one
    named [__proto__]. *)
Definition assigned (l : props) : props :=
  filter (fun kv => negb (String.eqb (fst kv) "__proto__")) l.

(** The assignments [data[key] = x] of the loop, one after the other. *)
Definition assignAll (data gens : props) : props :=
  fold_left (fun d kx => setProp d (fst kx) (snd kx)) gens data.



(** A parameter located in the query string. *)
Definition inQuery (param : value) : bool :=
  isStr (fieldOf param "in") "query".

(** The JSON text of a one-element array holding the string [w]. *)
Definition jsonArrayOfOne (w : string) : string :=
  "[" ++ JSON.quote w ++ "]".

(** What the specification asks of the query entry of a parameter: the
    placeholder is a word drawn from faker, JSON-encoded inside a
    one-element array when the parameter's schema is of type [array]. *)
Definition queryEntryAsSpecified (F : Faker) (param entry : value) : Prop :=
  exists w s s',
    random_word F s = (w, s') /\
    entry = VObj [("key", fieldOf param "name");
                  ("value",
                   if isStr (typeOf (fieldOf param "schema")) "array"
                   then VStr (jsonArrayOfOne w)
                   else VStr w);
                  ("description", fieldOf param "description")].

Module DemoQuery.

Definition limit : value :=
  VObj [("in", VStr "query"); ("name", VStr "limit");
        ("schema", VObj [("type", VStr "integer")])].

Definition petId : value :=
  VObj [("in", VStr "path"); ("name", VStr "petId");
        ("schema", VObj [("type", VStr "string")])].

Definition tags : value :=
  VObj [("in", VStr "query"); ("name", VStr "tags");
        ("description", VStr "Tags to filter by");
        ("schema", VObj [("type", VStr "array")])].

Definition details : value :=
  VObj [("parameters", VArr [limit; petId; tags])].

Definition spec : Swagger :=
  {| servers := []; paths := [("/pets/{petId}", [("get", details)])];
     components := {| schemas := [] |} |}.

End DemoQuery.

(** A path template cut into literal text and bracketed names. *)
Inductive piece : Type :=
| Lit : string -> piece
| Var : string -> piece.

Definition render (p : piece) : string :=
  match p with
  | Lit s => s
  | Var name => "{" ++ name ++ "}"
  end.

Fixpoint template (ps : list piece) : string :=
  match ps with
  | [] => ""
  | p :: ps' => render p ++ template ps'
  end.

Fixpoint anyChar (f : ascii -> bool) (s : string) : bool :=
  match s with
  | EmptyString => false
  | String a s' => f a || anyChar f s'
  end.

(** Literal text holds no opening bracket; a name holds no closing
    bracket and no line terminator. *)
Definition pieceOk (p : piece) : bool :=
  match p with
  | Lit s => negb (Str.includes "{"%char s)
  | Var name =>
      negb (Str.includes "}"%char name)
      && negb (anyChar Str.isLineTerminator name)
  end.

(** The bracketed names of a template, one per occurrence, in order. *)
Fixpoint varNames (ps : list piece) : list string :=
  match ps with
  | [] => []
  | Lit _ :: ps' => varNames ps'
  | Var name :: ps' => name :: varNames ps'
  end.

(** The path-variable entry of a name. *)
Definition variableEntry (name : string) : value :=
  VObj [("key", VStr name); ("value", VStr ""); ("description", VStr "")].

(** The environment document of a host and a server URL. *)
Definition environmentDoc (host serverUrl : string) : value :=
  VObj [("environment",
         VObj [("name", VStr host);
               ("values",
                VArr [VObj [("key", VStr "base_url");
                            ("value", VStr serverUrl);
                            ("enabled", VBool true)]])])].

(** A stand-in for the URL parser of the platform on plain
    [scheme://host/path] strings, for the concrete runs. *)
Module PlainUrl.

Fixpoint afterScheme (s : string) : option string :=
  match s with
  | EmptyString => None
  | String a s' =>
      if Ascii.eqb a ":"%char then
        match s' with
        | String b (String c rest) =>
            if Ascii.eqb b "/"%char && Ascii.eqb c "/"%char
            then Some rest else None
        | _ => None
        end
      else afterScheme s'
  end.

Fixpoint authority (s : string) : string :=
  match s with
  | EmptyString => EmptyString
  | String a s' =>
      if Ascii.eqb a "/"%char || Ascii.eqb a "?"%char
         || Ascii.eqb a "#"%char
      then EmptyString
      else String a (authority s')
  end.

Definition host (s : string) : option string :=
  match afterScheme s with
  | Some rest =>
      match authority rest with
      | EmptyString => None
      | h => Some h
      end
  | None => None
  end.

End PlainUrl.

Definition completionLine : Output :=
  Line "Environments and Collection created/updated successfully.".

(** A world with nothing written or printed yet. *)
Definition freshWorld (spec : Result Swagger)
           (failing : string -> option JsError) : World :=
  {| swaggerFile := spec; writeError := failing; files := [];
     inFlight := []; stdout := []; stderr := []; unhandled := [] |}.

(** Every server URL of the Spec parses. *)
Definition serversParse (URL_host : string -> option string)
           (swagger : Swagger) : bool :=
  forallb (fun server =>
             match URL_host (url server) with Some _ => true | None => false end)
          (servers swagger).

(** A disk that refuses every write. *)
Definition readOnlyDisk (name : string) : option JsError :=
  Some (Error "EROFS: read-only file system").

(** ** Writing a document and reading it back *)

(** The document as JSON text holds it: a property whose value is
    [undefined] is not written. *)
Fixpoint dropUndefined (v : value) : value :=
  match v with
  | VArr l => VArr (map dropUndefined l)
  | VObj l =>
      VObj ((fix members (l : list (string * value)) : props :=
               match l with
               | [] => []
               | (k, x) :: l' =>
                   match x with
                   | VUndefined => members l'
                   | _ => (k, dropUndefined x) :: members l'
                   end
               end) l)
  | _ => v
  end.


(** A structure made of what JSON can hold (null, booleans, numbers,
    strings, arrays, objects with distinct keys), where [undefined] may
    only stand for the value of a property. *)
Fixpoint storable (v : value) : bool :=
  match v with
  | VUndefined | VFunc => false
  | VArr l => forallb storable l
  | VObj l =>
      distinct (map fst l)
      && (fix members (l : list (string * value)) : bool :=
            match l with
            | [] => true
            | (_, x) :: l' =>
                match x with
                | VUndefined => true
                | _ => storable x
                end && members l'
            end) l
  | _ => true
  end.

(** A value as [JSON.parse] returns them: [storable], and [undefined]
    nowhere. *)
Fixpoint isJson (v : value) : bool :=
  match v with
  | VUndefined | VFunc => false
  | VArr l => forallb isJson l
  | VObj l =>
      distinct (map fst l)
      && (fix members (l : list (string * value)) : bool :=
            match l with
            | [] => true
            | (_, x) :: l' => isJson x && members l'
            end) l
  | _ => true
  end.


(** Lines 19-20 of [fetchSwagger], for the file [name] as the process
    leaves it: read the file and parse its content.  There is no answer
    where nothing is said of the content. *)
Definition readJson (name : string) (w : World) : option (Result value) :=
  match disk w name with
  | Some (Text text) => Some (JSON.parse text)
  | Some Indeterminate => None
  | None => Some (Throw (Error "ENOENT: no such file or directory"))
  end.

Fixpoint allWs (s : string) : bool :=
  match s with
  | EmptyString => true
  | String a s' => JSON.isWs a && allWs s'
  end.

(** What may follow a value in a text without cutting a number short. *)
Definition safeRest (rest : string) : bool :=
  match rest with
  | EmptyString => true
  | String a _ =>
      negb (JSON.isDigit a) && negb (JSON.continuesNumber rest)
  end.

(** Calls of the reader nested to read a value back. *)
Fixpoint cost (v : value) : nat :=
  match v with
  | VArr l =>
      S ((fix elements (l : list value) : nat :=
            match l with
            | [] => 0
            | x :: l' => S (Nat.max (cost x) (elements l'))
            end) l)
  | VObj l =>
      S ((fix members (l : list (string * value)) : nat :=
            match l with
            | [] => 0
            | (_, x) :: l' =>
                match x with
                | VUndefined => members l'
                | _ => S (Nat.max (cost x) (members l'))
                end
            end) l)
  | _ => 1
  end.

(** The pieces [JSON.serialize] and the measures above are made of, by
    name. *)
Definition elementTexts (gap inner : string) (l : list value) : list string :=
  map (fun x => match JSON.serialize gap inner x with
                | Some t => t
                | None => "null"
                end) l.

Definition colon (gap : string) : string :=
  ":" ++ (if String.eqb gap "" then "" else " ").

Fixpoint memberTexts (gap inner : string) (l : list (string * value))
  : list string :=
  match l with
  | [] => []
  | (k, x) :: l' =>
      match JSON.serialize gap inner x with
      | Some t => (JSON.quote k ++ colon gap ++ t) :: memberTexts gap inner l'
      | None => memberTexts gap inner l'
      end
  end.

Fixpoint keptMembers (l : list (string * value)) : props :=
  match l with
  | [] => []
  | (k, x) :: l' =>
      match x with
      | VUndefined => keptMembers l'
      | _ => (k, dropUndefined x) :: keptMembers l'
      end
  end.



Fixpoint storableMembers (l : list (string * value)) : bool :=
  match l with
  | [] => true
  | (_, x) :: l' =>
      match x with
      | VUndefined => true
      | _ => storable x
      end && storableMembers l'
  end.

Fixpoint costElements (l : list value) : nat :=
  match l with
  | [] => 0
  | x :: l' => S (Nat.max (cost x) (costElements l'))
  end.

Fixpoint costMembers (l : list (string * value)) : nat :=
  match l with
  | [] => 0
  | (_, x) :: l' =>
      match x with
      | VUndefined => costMembers l'
      | _ => S (Nat.max (cost x) (costMembers l'))
      end
  end.

(** White space before each element and before the closing bracket. *)
Definition lead (gap inner : string) : string :=
  if String.eqb gap "" then "" else JSON.nl ++ inner.

Definition trail (gap indent : string) : string :=
  if String.eqb gap "" then "" else JSON.nl ++ indent.

(** The elements of a printed array or object, up to and past the
    closing bracket: what the text is after the opening bracket. *)
Fixpoint laidOut (ld tr close : string) (texts : list string) (rest : string)
  : string :=
  match texts with
  | [] => tr ++ close ++ rest
  | t :: ts =>
      ld ++ t ++
        match ts with
        | [] => tr ++ close ++ rest
        | _ => "," ++ laidOut ld tr close ts rest
        end
  end.

(** The first character of the text of a value. *)
Definition valueStart (c : ascii) : bool :=
  Ascii.eqb c "{"%char || Ascii.eqb c "["%char || Ascii.eqb c JSON.dquote
  || Ascii.eqb c "t"%char || Ascii.eqb c "f"%char || Ascii.eqb c "n"%char
  || Ascii.eqb c "-"%char || JSON.isDigit c.

(** The text of [x], written with any indentation and followed by
    anything that does not continue a number, reads back as [x] without
    its undefined properties. *)
Definition readsBack (gap : string) (x : value) : Prop :=
  storable x = true ->
  forall indent text rest fuel,
    allWs indent = true ->
    JSON.serialize gap indent x = Some text ->
    cost x <= fuel ->
    safeRest rest = true ->
    JSON.parseValue fuel (text ++ rest) = Some (dropUndefined x, rest).

(** The text of [x] is at least as long as the reader needs calls. *)
Definition shortEnough (gap : string) (x : value) : Prop :=
  storable x = true ->
  forall indent text,
    JSON.serialize gap indent x = Some text -> cost x <= String.length text.


(** A disk that takes every write. *)
Definition quietDisk (name : string) : option JsError := None.


(** An operation whose request body is given by reference, without
    [content]. *)
Definition referencedBody : value :=
  VObj [("requestBody",
         VObj [("$ref", VStr "#/components/requestBodies/PetBody")])].

(** An operation whose request body has no JSON content. *)
Definition xmlBody : value :=
  VObj [("requestBody",
         VObj [("content",
                VObj [("application/xml",
                       VObj [("schema",
                              VObj [("$ref",
                                     VStr "#/components/schemas/Pet")])])])])].

(** What the item of an operation owes to the operation alone: its
    method and its raw URL. *)
Definition itemOfOperation (op : Operation) (item : value) : Prop :=
  getPath item ["request"; "method"] = VStr (Str.toUpperCase (opMethod op)) /\
  getPath item ["request"; "url"; "raw"]
    = VStr ("{{base_url}}" ++ opPath op).

Definition twoPathSpec : Swagger :=
  {| servers := [];
     paths := [("/pets", [("get", VObj []); ("post", VObj [])]);
               ("/owners", [("delete", VObj [])])];
     components := {| schemas := [] |} |}.

(** An item of a resource list bears the name. *)
Definition named (name : string) (item : value) : bool :=
  isStr (fieldOf item "name") name.

(** A Postman account holding two environments of the same name. *)
Definition demoNetwork (r : Request) : Result props :=
  Ok [("environments",
       VArr [VObj [("name", VStr "staging"); ("uid", VStr "u-1")];
             VObj [("name", VStr "api.example.com"); ("uid", VStr "u-2")];
             VObj [("name", VStr "api.example.com"); ("uid", VStr "u-3")]])].

(** The file of the environment of a host. *)
Definition envName (host : string) : string :=
  "environment_" ++ host ++ ".json".

(** The host of a server, where its URL parses. *)
Definition hostOf (URL_host : string -> option string) (server : Server)
  : option string :=
  URL_host (url server).

(** A line of output that shows a structure. *)
Definition isInspected (o : Output) : bool :=
  match o with Inspected _ => true | Line _ => false end.

(** The servers of the list whose URL has the host [host]: those whose
    environment is written to the file of that host. *)
Definition serversOf (URL_host : string -> option string) (host : string)
           (l : list Server) : list Server :=
  filter (fun server =>
            match hostOf URL_host server with
            | Some h => String.eqb h host
            | None => false
            end) l.


Definition brokenServers : Swagger :=
  {| servers := [ {| url := "https://api.example.com" |};
                  {| url := "/api/v3" |};
                  {| url := "https://backup.example.com" |} ];
     paths := [("/pets", [("get", VObj [])])];
     components := {| schemas := [] |} |}.

(** The URL of the server parses. *)
Definition parses (URL_host : string -> option string) (server : Server)
  : bool :=
  match URL_host (url server) with Some _ => true | None => false end.

(** A Spec with a server whose second operation cannot be generated. *)
Definition failingSpec : Swagger :=
  {| servers := [ {| url := "https://api.example.com" |} ];
     paths := [("/a", [("get", VObj [])]);
               ("/b", [("post",
                        Demo.withBody "#/components/schemas/Missing")])];
     components := {| schemas := [] |} |}.

(** An entry of a path object that is no operation object: a string, a
    number, a boolean or an array (the [summary] or the [parameters] of
    the path, say). *)
Definition plainEntry (details : value) : bool :=
  match details with
  | VStr _ | VNum _ | VBool _ | VArr _ => true
  | _ => false
  end.

(** The state of faker after [n] words. *)
Fixpoint afterWords (F : Faker) (n : nat) (s : rng F) : rng F :=
  match n with
  | O => s
  | S n' => afterWords F n' (snd (random_word F s))
  end.
(** * Properties *)

(** ** Heights, and the unfolding of [generateFakeData] *)

Lemma lookup_In k l x : lookup k l = Some x -> In (k, x) l.
Proof.
  induction l as [|[k' v] l IH]; simpl; [discriminate|].
  destruct (String.eqb_spec k k') as [->|_].
  - intros [= ->]. now left.
  - intros H. right. auto.
Qed.

Lemma height_In_obj k x l : In (k, x) l -> height x < height (VObj l).
Proof.
  simpl. induction l as [|[k' v] l IH]; simpl; [tauto|].
  intros [[= -> ->]|H]; [lia|]. specialize (IH H). lia.
Qed.

Lemma height_In_arr x l : In x l -> height x < height (VArr l).
Proof.
  simpl. induction l as [|v l IH]; simpl; [tauto|].
  intros [->|H]; [lia|]. specialize (IH H). lia.
Qed.

Lemma getField_height v k x : getField v k = Ok x -> height x <= height v.
Proof.
  destruct v; cbn [getField]; try discriminate;
    try (intros [= <-]; simpl; lia).
  destruct (lookup k l) eqn:E; intros [= <-]; [|simpl; lia].
  apply lookup_In, height_In_obj in E. lia.
Qed.

Lemma getField_height_lt v k x :
  getField v k = Ok x -> x <> VUndefined -> height x < height v.
Proof.
  destruct v; cbn [getField]; try discriminate;
    try (intros [= <-]; congruence).
  destruct (lookup k l) eqn:E; intros [= <-]; [|congruence].
  intros _. now apply lookup_In, height_In_obj in E.
Qed.

Lemma indexed_In {A} (f : A -> value) l : forall i k x,
  In (k, x) (indexed f i l) -> exists a, In a l /\ x = f a.
Proof.
  induction l as [|a l IH]; simpl; intros i k x; [tauto|].
  intros [[= _ <-]|H]; [eauto|].
  destruct (IH _ _ _ H) as (b & ? & ?). eauto.
Qed.

Lemma Object_entries_height v es k x :
  Object_entries v = Ok es -> In (k, x) es -> height x <= height v.
Proof.
  destruct v; cbn [Object_entries]; try discriminate; intros [= <-] H;
    try (now destruct H).
  - apply indexed_In in H as (a & _ & ->). simpl. lia.
  - apply indexed_In in H as (a & Ha & ->).
    apply height_In_arr in Ha. lia.
  - apply height_In_obj in H. lia.
Qed.

Section GeneratorFacts.

Variable F : Faker.

Lemma forEntries_ext (step1 step2 : props -> string -> value -> M F props)
      entries :
  (forall data k v st, In (k, v) entries ->
                       step1 data k v st = step2 data k v st) ->
  forall data st,
    forEntries F step1 entries data st = forEntries F step2 entries data st.
Proof.
  induction entries as [|[k v] es IH]; intros H data st; simpl; [reflexivity|].
  unfold bind. rewrite (H data k v st) by now left.
  destruct (step2 data k v st) as [[d s]|e]; [|reflexivity].
  apply IH. intros. apply H. now right.
Qed.

Lemma genEntry_ext (self1 self2 : value -> M F value) data key v st :
  (forall u s, height u <= height v -> self1 u s = self2 u s) ->
  genEntry F self1 data key v st = genEntry F self2 data key v st.
Proof.
  intros H. unfold genEntry, bind, lift, ret, throw, draw.
  destruct (hasTypeProperty v); [|reflexivity].
  destruct (negb (truthy v0)); [reflexivity|].
  destruct (if truthy v then _ else _) as [[t1 s1]|]; [|reflexivity].
  destruct (truthy v && isStr t1 "string"); [reflexivity|].
  destruct (getField v "type") as [t2|]; [|reflexivity].
  destruct (isStr t2 "integer"); [reflexivity|].
  destruct (isStr t2 "array").
  - destruct (getField v "items") as [it|] eqn:E; [|reflexivity].
    simpl. destruct (truthy it).
    + rewrite H by (eapply getField_height; eauto). reflexivity.
    + destruct (isStr t2 "object"); [|reflexivity].
      rewrite H by lia. reflexivity.
  - simpl. destruct (isStr t2 "object"); [|reflexivity].
    rewrite H by lia. reflexivity.
Qed.

Lemma genBody_ext (self1 self2 : value -> M F value) schema st :
  (forall u s, height u < height schema -> self1 u s = self2 u s) ->
  genBody F self1 schema st = genBody F self2 schema st.
Proof.
  intros H. unfold genBody, bind, lift.
  destruct (getField schema "properties") as [ps|] eqn:Eps; [|reflexivity].
  destruct (Object_entries ps) as [es|] eqn:Ees; [|reflexivity].
  rewrite (forEntries_ext (genEntry F self1) (genEntry F self2)); [reflexivity|].
  intros data k v s Hin. apply genEntry_ext. intros u s' Hu. apply H.
  pose proof (Object_entries_height _ _ _ _ Ees Hin) as H1.
  assert (ps <> VUndefined) by (intros ->; discriminate).
  pose proof (getField_height_lt _ _ _ Eps H0). lia.
Qed.

Lemma genDepth_stable n : forall m v st,
  height v < n -> height v < m -> genDepth F n v st = genDepth F m v st.
Proof.
  induction n as [|n IH]; intros m v st Hn Hm; [lia|].
  destruct m as [|m]; [lia|]. simpl.
  apply genBody_ext. intros u s Hu. apply IH; lia.
Qed.

(** [generateFakeData] is the recursive function of the source: it
    satisfies the source's defining equation on every schema. *)
Lemma generateFakeData_unfold schema st :
  generateFakeData F schema st = genBody F (generateFakeData F) schema st.
Proof.
  unfold generateFakeData at 1. simpl.
  apply genBody_ext. intros u s Hu. unfold generateFakeData.
  apply genDepth_stable; lia.
Qed.

End GeneratorFacts.

(** ** One turn of the loop, case by case *)

Lemma truthy_getField v k : truthy v = true -> exists x, getField v k = Ok x.
Proof. destruct v; simpl; try discriminate; eauto. destruct (lookup k l); eauto. Qed.

Lemma typeOf_getField v : truthy v = true -> getField v "type" = Ok (typeOf v).
Proof.
  intros H. unfold typeOf, fieldOf.
  destruct (truthy_getField v "type" H) as [x ->]. reflexivity.
Qed.

Lemma itemsOf_getField v : truthy v = true -> getField v "items" = Ok (itemsOf v).
Proof.
  intros H. unfold itemsOf, fieldOf.
  destruct (truthy_getField v "items" H) as [x ->]. reflexivity.
Qed.

Lemma typeOf_truthy v : truthy (typeOf v) = true -> truthy v = true.
Proof. destruct v; simpl; trivial; discriminate. Qed.

Lemma hasTypeProperty_truthy v :
  exists t, hasTypeProperty v = Ok t /\ truthy t = truthy (typeOf v).
Proof.
  unfold hasTypeProperty. destruct (truthy v) eqn:E.
  - rewrite typeOf_getField by assumption. eauto.
  - exists v. split; [reflexivity|]. rewrite E.
    destruct v; simpl in *; try reflexivity; discriminate.
Qed.

Section EntryFacts.

Variable F : Faker.
Variable self : value -> M F value.

Lemma genEntry_missing data key v st :
  truthy (typeOf v) = false ->
  genEntry F self data key v st = Throw (SchemaError key).
Proof.
  intros H. unfold genEntry, bind, lift.
  destruct (hasTypeProperty_truthy v) as (t & -> & Ht).
  rewrite Ht, H. reflexivity.
Qed.

Lemma genEntry_present data key v st :
  truthy (typeOf v) = true ->
  genEntry F self data key v st =
    if isStr (typeOf v) "string" then
      (let (s, st') := commerce_productName F st in
       Ok (setProp data key (VStr s), st'))
    else if isStr (typeOf v) "integer" then
      (let (n, st') := number_int F st in
       Ok (setProp data key (VNum n), st'))
    else if isStr (typeOf v) "array" && truthy (itemsOf v) then
      match self (itemsOf v) st with
      | Ok (d, st') => Ok (setProp data key (VArr [d]), st')
      | Throw e => Throw e
      end
    else if isStr (typeOf v) "object" then
      match self v st with
      | Ok (d, st') => Ok (setProp data key d, st')
      | Throw e => Throw e
      end
    else Ok (data, st).
Proof.
  intros H. pose proof (typeOf_truthy v H) as Hv.
  unfold genEntry, bind, lift, ret, draw.
  destruct (hasTypeProperty_truthy v) as (t & -> & Ht).
  rewrite Ht, H, Hv. simpl.
  rewrite (typeOf_getField v Hv).
  destruct (isStr (typeOf v) "string"); [now destruct (commerce_productName F st)|].
  destruct (isStr (typeOf v) "integer"); [now destruct (number_int F st)|].
  destruct (isStr (typeOf v) "array") eqn:Ea.
  - rewrite (itemsOf_getField v Hv). simpl.
    destruct (truthy (itemsOf v)).
    + destruct (self (itemsOf v) st) as [[d s]|]; reflexivity.
    + destruct (isStr (typeOf v) "object"); [|reflexivity].
      destruct (self v st) as [[d s]|]; reflexivity.
  - simpl. destruct (isStr (typeOf v) "object"); [|reflexivity].
    destruct (self v st) as [[d s]|]; reflexivity.
Qed.

Lemma genEntry_skipped data key v st :
  skipped v = true -> genEntry F self data key v st = Ok (data, st).
Proof.
  unfold skipped. intros H.
  repeat (apply andb_prop in H as [H ?]).
  rewrite genEntry_present by assumption.
  repeat match goal with
         | E : negb ?b = true |- _ => apply negb_true_iff in E; rewrite E
         end.
  reflexivity.
Qed.

Lemma forEntries_app step pre post data st :
  forEntries F step (pre ++ post)%list data st =
    match forEntries F step pre data st with
    | Ok (d, st') => forEntries F step post d st'
    | Throw e => Throw e
    end.
Proof.
  revert data st. induction pre as [|[k v] pre IH]; intros; simpl; [reflexivity|].
  unfold bind. destruct (step data k v st) as [[d s]|]; [apply IH|reflexivity].
Qed.

End EntryFacts.

(** ** The fake data generator *)

Section GeneratorSpec.

Variable F : Faker.

Lemma generateFakeData_entries schema ps entries st :
  getField schema "properties" = Ok ps ->
  Object_entries ps = Ok entries ->
  generateFakeData F schema st =
    match forEntries F (genEntry F (generateFakeData F)) entries [] st with
    | Ok (data, st') => Ok (VObj data, st')
    | Throw e => Throw e
    end.
Proof.
  intros H1 H2. rewrite generateFakeData_unfold.
  unfold genBody, bind, lift, ret. rewrite H1, H2.
  destruct (forEntries _ _ _ _ _) as [[d s]|]; reflexivity.
Qed.

Lemma generateFakeData_schemaOf ps st :
  generateFakeData F (schemaOf ps) st =
    match forEntries F (genEntry F (generateFakeData F)) ps [] st with
    | Ok (data, st') => Ok (VObj data, st')
    | Throw e => Throw e
    end.
Proof. now apply generateFakeData_entries with (ps := VObj ps). Qed.

(** A schema without a usable [properties] mapping: the enumeration
    throws before the loop starts. *)
Lemma generateFakeData_no_properties schema st :
  (forall ps, getField schema "properties" = Ok ps -> isNullish ps = true) ->
  generateFakeData F schema st = Throw TypeError.
Proof.
  intros H. rewrite generateFakeData_unfold. unfold genBody, bind, lift.
  destruct (getField schema "properties") as [ps|e] eqn:E.
  - specialize (H ps eq_refl). destruct ps; try discriminate; reflexivity.
  - destruct schema; simpl in E; try discriminate; try congruence.
    destruct (lookup _ _); discriminate.
Qed.

End GeneratorSpec.

(** C1, as amended.  A property node whose [type] is missing (or falsy)
    makes [generateFakeData] fail; the error is the SchemaError naming that
    property as soon as the properties enumerated before it generate.  A
    node whose type is present but taken by no branch raises nothing: the
    output is the one of the schema without that property. *)
Theorem C1_missing_type_throws (F : Faker) (schema ps : value)
        (pre post : props) (key : string) (node : value) (st : rng F) :
  getField schema "properties" = Ok ps ->
  Object_entries ps = Ok (pre ++ (key, node) :: post)%list ->
  truthy (typeOf node) = false ->
  isOk (generateFakeData F schema st) = false /\
  (isOk (generateFakeData F (schemaOf pre) st) = true ->
   generateFakeData F schema st = Throw (SchemaError key)) /\
  (forall other, skipped other = true ->
     generateFakeData F (schemaOf (pre ++ (key, other) :: post)%list) st =
     generateFakeData F (schemaOf (pre ++ post)%list) st).
Proof.
  intros Hps Hes Hty.
  pose proof (generateFakeData_entries F _ _ _ st Hps Hes) as E.
  rewrite forEntries_app in E.
  rewrite generateFakeData_schemaOf.
  assert (Hskip : forall other, skipped other = true ->
     generateFakeData F (schemaOf (pre ++ (key, other) :: post)%list) st =
     generateFakeData F (schemaOf (pre ++ post)%list) st).
  { intros other Hsk. rewrite !generateFakeData_schemaOf, !forEntries_app.
    destruct (forEntries F _ pre [] st) as [[d s]|e]; [|reflexivity].
    cbn [forEntries]. unfold bind at 1.
    rewrite genEntry_skipped by assumption. reflexivity. }
  destruct (forEntries F _ pre [] st) as [[d s]|e].
  - cbn [forEntries] in E. unfold bind at 1 in E.
    rewrite genEntry_missing in E by assumption.
    rewrite E. split; [reflexivity|]. split; [intros _; reflexivity|exact Hskip].
  - rewrite E. split; [reflexivity|]. split; [discriminate|exact Hskip].
Qed.

Lemma C1_missing_type_throws_witness :
  isOk (generateFakeData demoFaker
          (schemaOf [("id", VObj [("type", VStr "integer")]);
                     ("name", VObj [("format", VStr "text")])]) 0%nat) = false
  /\ generateFakeData demoFaker
       (schemaOf [("id", VObj [("type", VStr "integer")]);
                  ("name", VObj [("format", VStr "text")])]) 0%nat
     = Throw (SchemaError "name").
Proof.
  destruct (C1_missing_type_throws demoFaker
              (schemaOf [("id", VObj [("type", VStr "integer")]);
                         ("name", VObj [("format", VStr "text")])])
              (VObj [("id", VObj [("type", VStr "integer")]);
                     ("name", VObj [("format", VStr "text")])])
              [("id", VObj [("type", VStr "integer")])] []
              "name" (VObj [("format", VStr "text")]) 0%nat
              eq_refl eq_refl eq_refl) as (H1 & H2 & _).
  split; [exact H1 | apply H2; reflexivity].
Defined.

(** C1 as stated fails: a property of declared type [boolean] is none of
    the four recognised types, and the generator returns normally, the
    property left out. *)
Lemma C1_counterexample :
  recognisedType (typeOf (VObj [("type", VStr "boolean")])) = false /\
  generateFakeData demoFaker
    (schemaOf [("flag", VObj [("type", VStr "boolean")])]) 0%nat
  = Ok (VObj [], 0%nat).
Proof. split; reflexivity. Qed.

(** ** Sequencing *)

Section Sequencing.

Variable F : Faker.

Lemma mapM_app {A B} (f : A -> M F B) (a b : list A) st :
  mapM f (a ++ b)%list st =
    match mapM f a st with
    | Ok (xs, s) =>
        match mapM f b s with
        | Ok (ys, s') => Ok ((xs ++ ys)%list, s')
        | Throw e => Throw e
        end
    | Throw e => Throw e
    end.
Proof.
  revert st. induction a as [|x a IH]; intros st; simpl.
  - unfold ret. destruct (mapM f b st) as [[ys s]|]; reflexivity.
  - unfold bind, ret. destruct (f x st) as [[y s]|]; [|reflexivity].
    rewrite IH.
    destruct (mapM f a s) as [[xs s1]|]; [|reflexivity].
    destruct (mapM f b s1) as [[ys s2]|]; reflexivity.
Qed.

Lemma mapM_map {A B C} (g : A -> B) (f : B -> M F C) (l : list A) st :
  mapM f (map g l) st = mapM (fun x => f (g x)) l st.
Proof.
  revert st. induction l as [|x l IH]; intros st; simpl; [reflexivity|].
  unfold bind. destruct (f (g x) st) as [[y s]|]; [|reflexivity].
  rewrite IH. reflexivity.
Qed.

(** Each result of a successful [mapM] is the result of the callback
    on the matching element, in some state of the generator. *)
Lemma mapM_Forall2 {A B} (f : A -> M F B) (l : list A) : forall st ys st',
  mapM f l st = Ok (ys, st') ->
  Forall2 (fun x y => exists s s', f x s = Ok (y, s')) l ys.
Proof.
  induction l as [|x l IH]; simpl; intros st ys st'.
  - intros [= <- <-]. constructor.
  - unfold bind at 1. destruct (f x st) as [[y s]|] eqn:E; [|discriminate].
    unfold bind at 1. destruct (mapM f l s) as [[zs s1]|] eqn:E1; [|discriminate].
    intros [= <- <-]. constructor; eauto.
Qed.

Lemma pathItems_operations swagger ps st :
  pathItems F swagger ps st =
    mapM (operationItem F swagger)
         (flat_map (fun pm =>
                      map (fun md => {| opPath := fst pm;
                                        opMethod := fst md;
                                        opDetails := snd md |}) (snd pm))
                   ps) st.
Proof.
  revert st. induction ps as [|[path methods] ps IH]; intros st; simpl;
    [reflexivity|].
  rewrite mapM_app, mapM_map. unfold bind at 1. unfold operationItem; simpl.
  destruct (mapM _ methods st) as [[xs s]|]; [|reflexivity].
  unfold bind at 1. rewrite IH.
  destruct (mapM _ _ s) as [[ys s']|]; reflexivity.
Qed.

Lemma createCollection_operations swagger st :
  createCollection F swagger st =
    match mapM (operationItem F swagger) (operations swagger) st with
    | Ok (item, st') => Ok (collectionDoc item, st')
    | Throw e => Throw e
    end.
Proof.
  unfold createCollection, bind. rewrite pathItems_operations.
  fold (operations swagger).
  destruct (mapM _ _ st) as [[item s]|]; reflexivity.
Qed.

(** What a generated request item is made of. *)
Lemma requestItem_inv swagger path method details st item st' :
  requestItem F swagger path method details st = Ok (item, st') ->
  exists body s1 query summary variable,
    requestBody F swagger details st = Ok (body, s1) /\
    queryParams F details s1 = Ok (query, st') /\
    getField details "summary" = Ok summary /\
    pathVariables path = Ok variable /\
    item = itemDoc (if truthy summary then summary else VStr path)
                   method path query variable body.
Proof.
  unfold requestItem, bind, lift, ret.
  destruct (requestBody F swagger details st) as [[body s1]|] eqn:Eb;
    [|discriminate].
  destruct (queryParams F details s1) as [[query s2]|] eqn:Eq;
    [|discriminate].
  destruct (getField details "summary") as [summary|] eqn:Es; [|discriminate].
  destruct (pathVariables path) as [variable|] eqn:Ev; [|discriminate].
  intros [= <- <-]. exists body, s1, query, summary, variable.
  repeat split; assumption.
Qed.

End Sequencing.

(** ** Schemas that cannot be enumerated *)

Lemma getComputed_absent (o : props) (k : string) :
  lookup k o = None -> lacksProperties (getComputed o k) = true.
Proof.
  intros H. unfold getComputed. rewrite H.
  destruct (existsb _ _); [reflexivity|].
  destruct (String.eqb k "__proto__"); reflexivity.
Qed.

Section Failures.

Variable F : Faker.

Lemma generateFakeData_lacksProperties schema st :
  lacksProperties schema = true ->
  generateFakeData F schema st = Throw TypeError.
Proof.
  intros H. apply generateFakeData_no_properties.
  intros ps E. unfold lacksProperties in H. now rewrite E in H.
Qed.

Lemma requestBody_absent swagger details ref st :
  bodySchemaRef details = Ok (VStr ref) ->
  truthy (VStr ref) = true ->
  lookup (schemaKey (Str.split "/"%char ref))
         (schemas (components swagger)) = None ->
  requestBody F swagger details st = Throw TypeError.
Proof.
  intros Href Ht Habs. unfold requestBody, bind, lift.
  rewrite Href, Ht. cbn [splitSlash].
  rewrite generateFakeData_lacksProperties; [reflexivity|].
  now apply getComputed_absent.
Qed.

Lemma requestItem_body_throws swagger path method details st e :
  requestBody F swagger details st = Throw e ->
  requestItem F swagger path method details st = Throw e.
Proof. intros H. unfold requestItem, bind. now rewrite H. Qed.

Lemma mapM_throw_at {A B} (f : A -> M F B) pre x post e st :
  (forall s, f x s = Throw e) ->
  isOk (mapM f (pre ++ x :: post)%list st) = false /\
  (isOk (mapM f pre st) = true ->
   mapM f (pre ++ x :: post)%list st = Throw e).
Proof.
  intros H. rewrite mapM_app.
  destruct (mapM f pre st) as [[xs s]|e']; [|split; [reflexivity|discriminate]].
  cbn [mapM]. unfold bind at 1 3. rewrite H. split; reflexivity.
Qed.

End Failures.

(** C10, as amended.  A schema node without [properties] makes the
    generator fail with a [TypeError], never a SchemaError.  So the request
    item of an operation whose reference names a schema absent from
    [components.schemas] fails with a [TypeError], and collection
    generation fails: with that [TypeError] when the operations before it
    generate.  Likewise the generator fails on a property of type [object]
    without nested [properties]: with a [TypeError] when the properties
    before it generate. *)
Theorem C10_unenumerable_schema_type_error (F : Faker) :
  (forall schema st,
      lacksProperties schema = true ->
      generateFakeData F schema st = Throw TypeError) /\
  (forall swagger pre op post ref st,
      operations swagger = (pre ++ op :: post)%list ->
      bodySchemaRef (opDetails op) = Ok (VStr ref) ->
      truthy (VStr ref) = true ->
      lookup (schemaKey (Str.split "/"%char ref))
             (schemas (components swagger)) = None ->
      (forall s, operationItem F swagger op s = Throw TypeError) /\
      isOk (createCollection F swagger st) = false /\
      (isOk (mapM (operationItem F swagger) pre st) = true ->
       createCollection F swagger st = Throw TypeError)) /\
  (forall schema ps pre key node post st,
      getField schema "properties" = Ok ps ->
      Object_entries ps = Ok (pre ++ (key, node) :: post)%list ->
      isStr (typeOf node) "object" = true ->
      lacksProperties node = true ->
      isOk (generateFakeData F schema st) = false /\
      (isOk (generateFakeData F (schemaOf pre) st) = true ->
       generateFakeData F schema st = Throw TypeError)).
Proof.
  split; [|split].
  - intros. now apply generateFakeData_lacksProperties.
  - intros swagger pre op post ref st Hops Href Ht Habs.
    assert (Hop : forall s, operationItem F swagger op s = Throw TypeError).
    { intros s. apply requestItem_body_throws.
      now apply requestBody_absent with (ref := ref). }
    split; [exact Hop|].
    rewrite createCollection_operations, Hops.
    destruct (mapM_throw_at F (operationItem F swagger) pre op post
                            TypeError st Hop) as [H1 H2].
    destruct (mapM _ (pre ++ op :: post)%list st) as [[xs s]|e] eqn:E;
      [discriminate|].
    split; [reflexivity|]. intros Hpre. specialize (H2 Hpre). congruence.
  - intros schema ps pre key node post st Hps Hes Hobj Hlack.
    pose proof (generateFakeData_entries F _ _ _ st Hps Hes) as E.
    rewrite forEntries_app in E. rewrite generateFakeData_schemaOf.
    destruct (forEntries F _ pre [] st) as [[d s]|e];
      [|rewrite E; split; [reflexivity|discriminate]].
    cbn [forEntries] in E. unfold bind at 1 in E.
    assert (Hty : truthy (typeOf node) = true).
    { destruct (typeOf node) as [| | | |t| | |]; try discriminate.
      destruct t; [discriminate|reflexivity]. }
    rewrite genEntry_present in E by assumption.
    destruct (typeOf node) as [| | | |t| | |]; try discriminate.
    cbn [isStr] in *. apply String.eqb_eq in Hobj. subst t.
    cbn -[generateFakeData forEntries] in E.
    rewrite (generateFakeData_lacksProperties F node s Hlack) in E.
    rewrite E. split; reflexivity.
Qed.

Lemma C10_unenumerable_schema_type_error_witness :
  generateFakeData demoFaker (VObj [("type", VStr "object")]) 0%nat
    = Throw TypeError /\
  createCollection demoFaker Demo.missingSpec 0%nat = Throw TypeError /\
  generateFakeData demoFaker
    (schemaOf [("id", VObj [("type", VStr "integer")]);
               ("owner", VObj [("type", VStr "object")])]) 0%nat
    = Throw TypeError.
Proof.
  destruct (C10_unenumerable_schema_type_error demoFaker) as (Ha & Hb & Hc).
  split; [|split].
  - apply Ha. reflexivity.
  - apply (Hb Demo.missingSpec []
              {| opPath := "/b"; opMethod := "post";
                 opDetails := Demo.withBody "#/components/schemas/Missing" |}
              [] "#/components/schemas/Missing" 0%nat
              eq_refl eq_refl eq_refl eq_refl).
    reflexivity.
  - apply (Hc (schemaOf [("id", VObj [("type", VStr "integer")]);
                         ("owner", VObj [("type", VStr "object")])])
              (VObj [("id", VObj [("type", VStr "integer")]);
                     ("owner", VObj [("type", VStr "object")])])
              [("id", VObj [("type", VStr "integer")])] "owner"
              (VObj [("type", VStr "object")]) [] 0%nat
              eq_refl eq_refl eq_refl eq_refl).
    reflexivity.
Defined.

(** C10 as stated fails: the second operation of [Demo.danglingSpec]
    names a schema that [components.schemas] lacks, yet collection
    generation fails with the SchemaError of the first operation. *)
Lemma C10_counterexample :
  operations Demo.danglingSpec =
    [ {| opPath := "/a"; opMethod := "post";
         opDetails := Demo.withBody "#/components/schemas/Untyped" |};
      {| opPath := "/b"; opMethod := "post";
         opDetails := Demo.withBody "#/components/schemas/Missing" |} ] /\
  bodySchemaRef (Demo.withBody "#/components/schemas/Missing")
    = Ok (VStr "#/components/schemas/Missing") /\
  lookup (schemaKey (Str.split "/"%char "#/components/schemas/Missing"))
         (schemas (components Demo.danglingSpec)) = None /\
  createCollection demoFaker Demo.danglingSpec 0%nat
    = Throw (SchemaError "x").
Proof. repeat split. Qed.

(** ** Keys and runtime types of the generated data *)

Lemma defineProp_fresh (o : props) k x :
  ~ In k (map fst o) -> defineProp o k x = (o ++ [(k, x)])%list.
Proof.
  induction o as [|[k' v] o IH]; simpl; intros H; [reflexivity|].
  destruct (String.eqb_spec k k') as [->|_]; [tauto|].
  rewrite IH by tauto. reflexivity.
Qed.

Lemma lookup_fresh (o : props) k :
  ~ In k (map fst o) -> lookup k o = None.
Proof.
  induction o as [|[k' v] o IH]; simpl; intros H; [reflexivity|].
  destruct (String.eqb_spec k k') as [->|_]; [tauto|]. apply IH. tauto.
Qed.

Lemma setProp_fresh (o : props) k x :
  ~ In k (map fst o) ->
  setProp o k x = (o ++ assigned [(k, x)])%list.
Proof.
  intros H. unfold setProp, assigned. rewrite (lookup_fresh o k H).
  cbn [filter fst]. destruct (String.eqb k "__proto__"); cbn [negb].
  - now rewrite app_nil_r.
  - now apply defineProp_fresh.
Qed.

Lemma distinct_cons k l :
  distinct (k :: l) = true -> ~ In k l /\ distinct l = true.
Proof.
  simpl. intros H. apply andb_prop in H as [H1 H2]. split; [|assumption].
  intros Hin. apply negb_true_iff in H1.
  assert (existsb (String.eqb k) l = true); [|congruence].
  apply existsb_exists. exists k. split; [assumption|apply String.eqb_refl].
Qed.

(** Assigning freshly named properties one after the other appends
    them, the one named [__proto__] apart. *)
Lemma assignAll_distinct gens : forall data,
  distinct (map fst gens) = true ->
  (forall k, In k (map fst gens) -> ~ In k (map fst data)) ->
  assignAll data gens = (data ++ assigned gens)%list.
Proof.
  induction gens as [|[k x] gens IH]; intros data Hd Hfresh; cbn.
  - now rewrite app_nil_r.
  - cbn [map fst] in Hd. apply distinct_cons in Hd as [Hk Hd].
    rewrite setProp_fresh by (apply Hfresh; now left).
    unfold assignAll in IH. rewrite IH; [|assumption|].
    + rewrite <- app_assoc. apply f_equal. unfold assigned.
      cbn [filter fst]. now destruct (negb (String.eqb k "__proto__")).
    + intros k' Hin. rewrite map_app, in_app_iff.
      intros [H|H].
      * revert H. apply Hfresh. now right.
      * unfold assigned in H. cbn [filter fst] in H.
        destruct (negb (String.eqb k "__proto__")); [|destruct H].
        destruct H as [<-|[]]. contradiction.
Qed.

Lemma assigned_Forall2 (P : string * value -> string * value -> Prop)
      (entries gens : props) :
  map fst gens = map fst entries ->
  Forall2 P entries gens ->
  map fst (assigned gens) = map fst (assigned entries) /\
  Forall2 P (assigned entries) (assigned gens).
Proof.
  intros Hk H. induction H as [|[k node] [k' x] es gs Hp H IH].
  - split; [reflexivity|constructor].
  - cbn [map fst] in Hk. injection Hk as -> Hk.
    destruct (IH Hk) as [IH1 IH2]. unfold assigned in *. cbn [filter fst].
    destruct (negb (String.eqb k "__proto__")); cbn [map fst].
    + split; [now rewrite IH1|now constructor].
    + now split.
Qed.

Section Shapes.

Variable F : Faker.
Variable ok : value -> bool.

(** The nested schemas accepted by [ok] generate a mapping. *)
Hypothesis ok_generates : forall schema st,
  ok schema = true ->
  exists out st', generateFakeData F schema st = Ok (VObj out, st').

Lemma genEntry_nodeOk data key node st :
  nodeOk ok node = true ->
  exists x st',
    genEntry F (generateFakeData F) data key node st
      = Ok (setProp data key x, st')
    /\ runtimeMatches node x = true.
Proof.
  intros Hok. unfold nodeOk in Hok.
  destruct (typeOf node) as [| | | |t| | |] eqn:Ety; try discriminate.
  assert (Hty : truthy (typeOf node) = true).
  { rewrite Ety. destruct t; [discriminate|reflexivity]. }
  rewrite genEntry_present by assumption. rewrite Ety.
  unfold runtimeMatches. rewrite Ety. cbn [isStr] in *.
  destruct (String.eqb t "string") eqn:E1.
  { destruct (commerce_productName F st) as [s st']. eauto. }
  destruct (String.eqb t "integer") eqn:E2.
  { destruct (number_int F st) as [z st']. eauto. }
  cbn [orb] in Hok.
  destruct (String.eqb t "array") eqn:E3.
  { apply String.eqb_eq in E3. subst t. cbn in Hok.
    rewrite orb_false_r in Hok. apply andb_prop in Hok as [Hit Hsub].
    rewrite Hit. cbn [andb].
    destruct (ok_generates _ st Hsub) as (out & st' & ->). eauto. }
  cbn [andb orb] in Hok |- *.
  destruct (String.eqb t "object") eqn:E4; [|discriminate].
  cbn [andb] in Hok.
  destruct (ok_generates _ st Hok) as (out & st' & ->). eauto.
Qed.

Lemma forEntries_nodeOk entries : forall data st,
  forallb (fun kv => nodeOk ok (snd kv)) entries = true ->
  exists gens st',
    forEntries F (genEntry F (generateFakeData F)) entries data st
      = Ok (assignAll data gens, st')
    /\ map fst gens = map fst entries
    /\ Forall2 (fun e o => runtimeMatches (snd e) (snd o) = true)
               entries gens.
Proof.
  induction entries as [|[k node] es IH]; intros data st Hall.
  - exists [], st. repeat split. constructor.
  - cbn [forallb snd] in Hall. apply andb_prop in Hall as [Hn Hall].
    destruct (genEntry_nodeOk data k node st Hn) as (x & s1 & E & Hx).
    cbn [forEntries]. unfold bind at 1. rewrite E.
    destruct (IH (setProp data k x) s1 Hall) as (gens & s2 & E2 & Hk2 & Hm).
    exists ((k, x) :: gens), s2. rewrite E2.
    repeat split; cbn; [congruence|]. now constructor.
Qed.

End Shapes.

Lemma schemaOk_generates (F : Faker) n : forall schema st,
  schemaOk n schema = true ->
  exists gens st',
    generateFakeData F schema st = Ok (VObj (assignAll [] gens), st')
    /\ map fst gens = map fst (declaredProperties schema)
    /\ Forall2 (fun e o => runtimeMatches (snd e) (snd o) = true)
               (declaredProperties schema) gens.
Proof.
  induction n as [|n IH]; intros schema st H; [discriminate|].
  cbn [schemaOk] in H. unfold declaredProperties.
  destruct (getField schema "properties") as [ps|] eqn:Eps; [|discriminate].
  destruct (Object_entries ps) as [es|] eqn:Ees; [|discriminate].
  rewrite (generateFakeData_entries F _ _ _ st Eps Ees).
  destruct (forEntries_nodeOk F (schemaOk n)) with (entries := es)
    (data := @nil (string * value)) (st := st) as (gens & st' & E & Hk & Hm);
    [|assumption|].
  - intros sch s Hs. destruct (IH sch s Hs) as (g & s' & Eg & _). eauto.
  - rewrite E. eauto.
Qed.

(** C2, as amended.  When every property node of a schema, and of the
    schemas nested in it, declares one of the four types, every array node
    carries an [items] schema and every [items] schema and object node its
    own [properties], the generator returns a mapping whose keys are the
    declared property names, the name [__proto__] apart (assigning to it
    makes no property), each value of the runtime type its declaration
    asks for. *)
Theorem C2_keys_and_runtime_types (F : Faker) (n : nat) (schema : value)
        (st : rng F) :
  schemaOk n schema = true ->
  distinct (map fst (declaredProperties schema)) = true ->
  exists out st',
    generateFakeData F schema st = Ok (VObj out, st')
    /\ map fst out = map fst (assigned (declaredProperties schema))
    /\ Forall2 (fun declared produced =>
                  runtimeMatches (snd declared) (snd produced) = true)
               (assigned (declaredProperties schema)) out.
Proof.
  intros Hok Hd.
  destruct (schemaOk_generates F n schema st Hok) as (gens & st' & E & Hk & Hm).
  exists (assigned gens), st'. rewrite E, assignAll_distinct; cbn; auto.
  - split; [reflexivity|]. now apply assigned_Forall2.
  - congruence.
Qed.

Lemma C2_keys_and_runtime_types_witness :
  (exists out st',
      generateFakeData demoFaker Demo.richSchema 0%nat = Ok (VObj out, st')
      /\ map fst out = ["id"; "name"; "tags"; "owner"]
      /\ Forall2 (fun declared produced =>
                    runtimeMatches (snd declared) (snd produced) = true)
                 (assigned (declaredProperties Demo.richSchema)) out) /\
  (exists out st',
      generateFakeData demoFaker Demo.protoSchema 0%nat = Ok (VObj out, st')
      /\ map fst out = ["a"; "b"]
      /\ Forall2 (fun declared produced =>
                    runtimeMatches (snd declared) (snd produced) = true)
                 (assigned (declaredProperties Demo.protoSchema)) out).
Proof.
  split.
  - exact (C2_keys_and_runtime_types demoFaker 3 Demo.richSchema 0%nat
                                     eq_refl eq_refl).
  - exact (C2_keys_and_runtime_types demoFaker 3 Demo.protoSchema 0%nat
                                     eq_refl eq_refl).
Defined.

(** C2 as stated fails: the one property of [Demo.bareArraySchema]
    declares the type [array], and its key is not in the output. *)
Lemma C2_counterexample :
  forallb (fun kv => recognisedType (typeOf (snd kv)))
          (declaredProperties Demo.bareArraySchema) = true /\
  map fst (declaredProperties Demo.bareArraySchema) = ["tags"] /\
  generateFakeData demoFaker Demo.bareArraySchema 0%nat
    = Ok (VObj [], 0%nat).
Proof. repeat split. Qed.

(** ** Request bodies *)

Section Bodies.

Variable F : Faker.




End Bodies.



(** ** Query parameters *)

Lemma stringify_singleton (w : string) :
  JSON.stringify (VArr [VStr w]) = VStr (jsonArrayOfOne w).
Proof. reflexivity. Qed.

Lemma getField_fieldOf v k x : getField v k = Ok x -> fieldOf v k = x.
Proof. unfold fieldOf. now intros ->. Qed.

Section Queries.

Variable F : Faker.

Lemma filterM_isQuery ps : forall st qs st',
  filterM F (isQuery F) ps st = Ok (qs, st') ->
  qs = filter inQuery ps /\ st' = st.
Proof.
  induction ps as [|p ps IH]; simpl; intros st qs st'.
  - intros [= <- <-]. now split.
  - unfold bind at 1. unfold isQuery at 1. unfold bind, lift, ret.
    destruct (getField p "in") as [loc|] eqn:E; [|discriminate].
    fold (bind (A := list value) (B := list value) (F := F)).
    destruct (filterM F (isQuery F) ps st) as [[ys s]|] eqn:E1;
      [|discriminate].
    destruct (IH _ _ _ E1) as [-> ->].
    intros [= <- <-]. cbn [filter].
    assert (inQuery p = isStr loc "query") as ->
        by (unfold inQuery; now rewrite (getField_fieldOf _ _ _ E)).
    now split.
Qed.

Lemma queryEntry_inv param st entry st' :
  queryEntry F param st = Ok (entry, st') ->
  queryEntryAsSpecified F param entry.
Proof.
  unfold queryEntry, bind, lift, ret, draw. intros H.
  destruct (getField param "name") as [key|] eqn:E1; [|discriminate].
  destruct (getField param "schema") as [schema|] eqn:E2; [|discriminate].
  destruct (getField schema "type") as [ty|] eqn:E3; [|discriminate].
  unfold queryEntryAsSpecified, typeOf.
  rewrite (getField_fieldOf _ _ _ E1), (getField_fieldOf _ _ _ E2),
    (getField_fieldOf _ _ _ E3).
  destruct (random_word F st) as [w s] eqn:Ew.
  exists w, st, s. split; [exact Ew|].
  destruct (isStr ty "array"); cbv beta in H; rewrite Ew in H;
    (destruct (getField param "description") as [d|] eqn:E4; [|discriminate]);
    rewrite (getField_fieldOf _ _ _ E4); injection H as <- <-; reflexivity.
Qed.

Lemma queryParams_array details params st query st' :
  getField details "parameters" = Ok (VArr params) ->
  queryParams F details st = Ok (query, st') ->
  exists entries,
    query = VArr entries /\
    Forall2 (queryEntryAsSpecified F) (filter inQuery params) entries.
Proof.
  intros Hp. unfold queryParams, bind at 1, lift. rewrite Hp. cbn [isNullish].
  unfold bind at 1.
  destruct (filterM F (isQuery F) params st) as [[qs s]|] eqn:E;
    [|discriminate].
  apply filterM_isQuery in E as [-> ->].
  unfold bind, ret.
  destruct (mapM _ _ st) as [[entries s]|] eqn:E; [|discriminate].
  intros [= <- <-]. exists entries. split; [reflexivity|].
  apply mapM_Forall2 in E. eapply Forall2_impl; [|exact E].
  intros p e (s1 & s2 & H). eapply queryEntry_inv; eauto.
Qed.

End Queries.

(** C5.  The query entries of a generated item are, in order, one
    key/value/description entry for each parameter of the operation
    located in the query, and none for the other parameters; the value is
    the JSON text of a one-element array of a faker word when the
    parameter's schema has type [array], and the bare word for any other
    type. *)
Theorem C5_query_entries (F : Faker) (swagger : Swagger)
        (path method : string) (details : value) (params : list value)
        (st st' : rng F) (item : value) :
  requestItem F swagger path method details st = Ok (item, st') ->
  getField details "parameters" = Ok (VArr params) ->
  exists entries,
    getPath item ["request"; "url"; "query"] = VArr entries /\
    Forall2 (queryEntryAsSpecified F) (filter inQuery params) entries.
Proof.
  intros H Hp. apply requestItem_inv in H
    as (body & s1 & query & summary & variable & _ & Hq & _ & _ & ->).
  destruct (queryParams_array F _ _ _ _ _ Hp Hq) as (entries & -> & HF).
  exists entries. split; [reflexivity|exact HF].
Qed.

Lemma C5_query_entries_witness :
  exists entries,
    VArr [VObj [("key", VStr "limit"); ("value", VStr "bandwidth");
                ("description", VUndefined)];
          VObj [("key", VStr "tags");
                ("value", VStr (jsonArrayOfOne "bandwidth"));
                ("description", VStr "Tags to filter by")]]
      = VArr entries /\
    Forall2 (queryEntryAsSpecified demoFaker)
            [DemoQuery.limit; DemoQuery.tags] entries.
Proof.
  exact (C5_query_entries demoFaker DemoQuery.spec "/pets/{petId}" "get"
                          DemoQuery.details
                          [DemoQuery.limit; DemoQuery.petId; DemoQuery.tags]
                          0%nat 2%nat _ eq_refl eq_refl).
Defined.

(** ** The request item *)

Lemma filterBoolean_nonempty (l : list string) :
  Forall (fun s => s <> "") (Str.filterBoolean l).
Proof.
  apply Forall_forall. intros s H. apply filter_In in H as [_ H].
  apply negb_true_iff in H. intros ->. discriminate.
Qed.

(** C4, as amended.  The item generated for [/pets/{petId}] and [get],
    the operation having no summary, is named after the path, has method
    [GET], the raw URL, host and path segments of the example, and the
    single path variable [petId] with an empty value.  In general the name
    of an item is the summary of the operation when that is truthy (so not
    when it is the empty string), else the path; the method is upper-cased;
    the path is split at the slashes, the empty segments dropped. *)
Theorem C4_request_item_shape (F : Faker) (swagger : Swagger) :
  (forall details st item st',
      requestItem F swagger "/pets/{petId}" "get" details st
        = Ok (item, st') ->
      fieldOf details "summary" = VUndefined ->
      getPath item ["name"] = VStr "/pets/{petId}" /\
      getPath item ["request"; "method"] = VStr "GET" /\
      getPath item ["request"; "url"; "raw"]
        = VStr "{{base_url}}/pets/{petId}" /\
      getPath item ["request"; "url"; "host"] = VArr [VStr "{{base_url}}"] /\
      getPath item ["request"; "url"; "path"]
        = VArr [VStr "pets"; VStr "{petId}"] /\
      getPath item ["request"; "url"; "variable"]
        = VArr [VObj [("key", VStr "petId"); ("value", VStr "");
                      ("description", VStr "")]]) /\
  (forall path method details st item st',
      requestItem F swagger path method details st = Ok (item, st') ->
      getPath item ["name"]
        = (if truthy (fieldOf details "summary")
           then fieldOf details "summary" else VStr path) /\
      getPath item ["request"; "method"] = VStr (Str.toUpperCase method) /\
      getPath item ["request"; "url"; "raw"]
        = VStr ("{{base_url}}" ++ path) /\
      getPath item ["request"; "url"; "host"] = VArr [VStr "{{base_url}}"] /\
      exists segments,
        getPath item ["request"; "url"; "path"] = VArr (map VStr segments) /\
        segments = filter (fun s => negb (String.eqb s ""))
                          (Str.split "/"%char path) /\
        Forall (fun s => s <> "") segments).
Proof.
  split.
  - intros details st item st' H Hsum.
    apply requestItem_inv in H
      as (body & s1 & query & summary & variable & _ & _ & Hs & Hv & ->).
    apply getField_fieldOf in Hs. rewrite Hsum in Hs. subst summary.
    injection Hv as <-. repeat split.
  - intros path method details st item st' H.
    apply requestItem_inv in H
      as (body & s1 & query & summary & variable & _ & _ & Hs & _ & ->).
    apply getField_fieldOf in Hs. rewrite Hs.
    repeat split. eexists. repeat split. apply filterBoolean_nonempty.
Qed.

Lemma C4_request_item_shape_witness :
  (getPath (itemDoc (VStr "/pets/{petId}") "get" "/pets/{petId}" (VArr [])
                    (VArr [pathVariable "{petId}"]) VUndefined) ["name"]
     = VStr "/pets/{petId}" /\
   getPath (itemDoc (VStr "/pets/{petId}") "get" "/pets/{petId}" (VArr [])
                    (VArr [pathVariable "{petId}"]) VUndefined)
           ["request"; "method"] = VStr "GET") /\
  getPath (itemDoc (VStr "List pets") "get" "/pets" (VArr []) (VArr [])
                   VUndefined) ["name"] = VStr "List pets".
Proof.
  destruct (C4_request_item_shape demoFaker Demo.petSpec) as [He Hg].
  split.
  - destruct (He (VObj []) 0%nat _ 0%nat eq_refl eq_refl) as (H1 & H2 & _).
    split; [exact H1|exact H2].
  - destruct (Hg "/pets" "get" (VObj [("summary", VStr "List pets")])
                 0%nat _ 0%nat eq_refl) as (H1 & _).
    exact H1.
Defined.

(** C4 as stated fails in its general rule: an operation whose summary is
    present and is the empty string gets the path for a name. *)
Lemma C4_counterexample :
  getField (VObj [("summary", VStr "")]) "summary" = Ok (VStr "") /\
  requestItem demoFaker Demo.petSpec "/pets" "get"
              (VObj [("summary", VStr "")]) 0%nat
    = Ok (itemDoc (VStr "/pets") "get" "/pets" (VArr []) (VArr [])
                  VUndefined, 0%nat).
Proof. split; reflexivity. Qed.

(** ** Path variables *)

Lemma length_append (a b : string) :
  String.length (a ++ b) = String.length a + String.length b.
Proof. induction a; simpl; congruence. Qed.

Lemma lazyToClose_length s : forall inner rest,
  Str.lazyToClose s = Some (inner, rest) ->
  String.length s = S (String.length inner + String.length rest).
Proof.
  induction s as [|a s IH]; simpl; intros inner rest; [discriminate|].
  destruct (Ascii.eqb a "}"); [intros [= <- <-]; reflexivity|].
  destruct (Str.isLineTerminator a); [discriminate|].
  destruct (Str.lazyToClose s) as [[i r]|]; [|discriminate].
  intros [= <- <-]. simpl. rewrite (IH i r eq_refl). reflexivity.
Qed.

Lemma matchesFrom_enough n : forall m s,
  String.length s <= n -> String.length s <= m ->
  Str.matchesFrom n s = Str.matchesFrom m s.
Proof.
  induction n as [|n IH]; intros m s Hn Hm.
  - destruct s; [|simpl in Hn; lia]. destruct m; reflexivity.
  - destruct m as [|m]; [destruct s; [reflexivity|simpl in Hm; lia]|].
    destruct s as [|a s]; [reflexivity|]. simpl in Hn, Hm. cbn [Str.matchesFrom].
    destruct (Ascii.eqb a "{"); [|apply IH; lia].
    destruct (Str.lazyToClose s) as [[inner rest]|] eqn:E; [|apply IH; lia].
    apply lazyToClose_length in E. f_equal. apply IH; lia.
Qed.

(** The matches of the pattern, by the first character of the string. *)
Lemma matchesFrom_cons a s :
  Str.matchesFrom (String.length (String a s)) (String a s) =
    if Ascii.eqb a "{" then
      match Str.lazyToClose s with
      | Some (inner, rest) =>
          ("{" ++ inner ++ "}")
            :: Str.matchesFrom (String.length rest) rest
      | None => Str.matchesFrom (String.length s) s
      end
    else Str.matchesFrom (String.length s) s.
Proof.
  cbn [String.length Str.matchesFrom].
  destruct (Ascii.eqb a "{"); [|reflexivity].
  destruct (Str.lazyToClose s) as [[inner rest]|] eqn:E; [|reflexivity].
  apply lazyToClose_length in E. f_equal. apply matchesFrom_enough; lia.
Qed.

Lemma includes_append c (a b : string) :
  Str.includes c (a ++ b) = Str.includes c a || Str.includes c b.
Proof. induction a; simpl; [reflexivity|]. now rewrite IHa, orb_assoc. Qed.

Lemma matches_literal lit : forall rest,
  Str.includes "{" lit = false ->
  Str.matchesFrom (String.length (lit ++ rest)) (lit ++ rest)
    = Str.matchesFrom (String.length rest) rest.
Proof.
  induction lit as [|a lit IH]; intros rest H; [reflexivity|].
  simpl in H. apply orb_false_elim in H as [Ha H].
  change (String a lit ++ rest) with (String a (lit ++ rest)).
  rewrite matchesFrom_cons, Ha. now apply IH.
Qed.

Lemma lazyToClose_name name : forall rest,
  Str.includes "}" name = false ->
  anyChar Str.isLineTerminator name = false ->
  Str.lazyToClose (name ++ String "}" rest) = Some (name, rest).
Proof.
  induction name as [|a name IH]; intros rest H1 H2; [reflexivity|].
  simpl in H1, H2. apply orb_false_elim in H1 as [Ha H1].
  apply orb_false_elim in H2 as [Hl H2].
  cbn [append Str.lazyToClose]. rewrite Ha, Hl, IH by assumption. reflexivity.
Qed.

Lemma append_assoc (a b c : string) : (a ++ b) ++ c = a ++ (b ++ c).
Proof. induction a; simpl; congruence. Qed.

Lemma matches_template ps :
  forallb pieceOk ps = true ->
  Str.matchesFrom (String.length (template ps)) (template ps)
    = map (fun name => "{" ++ name ++ "}") (varNames ps).
Proof.
  induction ps as [|[lit|name] ps IH]; intros H; [reflexivity| |];
    cbn [forallb pieceOk] in H; apply andb_prop in H as [Hp H];
    cbn [template render varNames map].
  - apply negb_true_iff in Hp. rewrite matches_literal by assumption. auto.
  - apply andb_prop in Hp as [H1 H2].
    apply negb_true_iff in H1. apply negb_true_iff in H2.
    change (("{" ++ name ++ "}") ++ template ps)
      with (String "{" ((name ++ "}") ++ template ps)).
    rewrite matchesFrom_cons. cbn [Ascii.eqb Bool.eqb andb].
    rewrite append_assoc. change ("}" ++ template ps) with (String "}" (template ps)).
    rewrite lazyToClose_name by assumption. now rewrite IH.
Qed.

Lemma includes_template ps :
  forallb pieceOk ps = true ->
  Str.includes "{" (template ps)
    = match varNames ps with [] => false | _ => true end.
Proof.
  induction ps as [|[lit|name] ps IH]; intros H; [reflexivity| |];
    cbn [forallb pieceOk] in H; apply andb_prop in H as [Hp H];
    cbn [template render varNames].
  - apply negb_true_iff in Hp. rewrite includes_append, Hp. auto.
  - reflexivity.
Qed.

Lemma dropLast_close name : Str.dropLast (name ++ "}") = name.
Proof.
  induction name as [|a name IH]; [reflexivity|].
  cbn [append Str.dropLast]. rewrite IH.
  destruct name; reflexivity.
Qed.

Lemma pathVariable_render name :
  pathVariable ("{" ++ name ++ "}") = variableEntry name.
Proof.
  unfold pathVariable, variableEntry.
  change (Str.slice_1_m1 ("{" ++ name ++ "}")) with (Str.dropLast (name ++ "}")).
  now rewrite dropLast_close.
Qed.

(** C6, as amended.  For a path template made of literal text and
    bracketed names, the path variables are one entry per bracketed
    occurrence, in order, a name that occurs twice giving two entries;
    each entry has the name without its brackets for key and the empty
    string for value.  A template without bracketed name yields the empty
    list. *)
Theorem C6_path_variables_per_occurrence (pieces : list piece) :
  forallb pieceOk pieces = true ->
  pathVariables (template pieces)
    = Ok (VArr (map variableEntry (varNames pieces))).
Proof.
  intros H. unfold pathVariables, Str.matchBraces.
  rewrite includes_template, matches_template by assumption.
  destruct (varNames pieces) as [|n ns]; [reflexivity|].
  set (names := n :: ns). cbn [map names]. subst names.
  change (Ok (VArr (map pathVariable
                        (map (fun x => "{" ++ x ++ "}") (n :: ns))))
          = Ok (VArr (map variableEntry (n :: ns)))).
  rewrite map_map. do 2 f_equal.
  apply map_ext. intros x. apply pathVariable_render.
Qed.

Lemma C6_path_variables_per_occurrence_witness :
  pathVariables "/owners/{ownerId}/pets/{petId}"
    = Ok (VArr [variableEntry "ownerId"; variableEntry "petId"]).
Proof.
  exact (C6_path_variables_per_occurrence
           [Lit "/owners/"; Var "ownerId"; Lit "/pets/"; Var "petId"]
           eq_refl).
Defined.

(** C6 as stated fails: the name [id] occurs twice in the path and the
    generator emits two entries for it. *)
Lemma C6_counterexample :
  pathVariables "/a/{id}/b/{id}"
    = Ok (VArr [variableEntry "id"; variableEntry "id"]).
Proof. reflexivity. Qed.

(** ** The environment document *)

(** C7.  For a server URL the platform parses, the environment document
    is named after the host of the URL and holds the single variable
    [base_url], valued with the whole URL and enabled; the document is a
    function of the URL alone. *)
Theorem C7_environment_document (URL_host : string -> option string)
        (serverUrl host : string) :
  URL_host serverUrl = Some host ->
  createEnvironment URL_host serverUrl = Ok (environmentDoc host serverUrl) /\
  getPath (environmentDoc host serverUrl) ["environment"; "name"]
    = VStr host /\
  getPath (environmentDoc host serverUrl) ["environment"; "values"]
    = VArr [VObj [("key", VStr "base_url"); ("value", VStr serverUrl);
                  ("enabled", VBool true)]].
Proof.
  intros H. unfold createEnvironment, newURL_host. rewrite H.
  repeat split.
Qed.

Lemma C7_environment_document_witness :
  createEnvironment PlainUrl.host "https://api.example.com"
    = Ok (VObj [("environment",
                 VObj [("name", VStr "api.example.com");
                       ("values",
                        VArr [VObj [("key", VStr "base_url");
                                    ("value", VStr "https://api.example.com");
                                    ("enabled", VBool true)]])])]).
Proof.
  exact (proj1 (C7_environment_document PlainUrl.host
                  "https://api.example.com" "api.example.com" eq_refl)).
Defined.

(** ** Errors at the top level *)

Lemma stringify2_object (l : props) :
  exists text, JSON.stringify2 (VObj l) = VStr text.
Proof. unfold JSON.stringify2. cbn [JSON.serialize]. eauto. Qed.

Lemma saveToFile_object name l w :
  exists text,
    JSON.stringify2 (VObj l) = VStr text /\
    saveToFile name (VObj l) w = writeFile name text w.
Proof.
  destruct (stringify2_object l) as [text E]. exists text.
  split; [exact E|]. unfold saveToFile. now rewrite E.
Qed.

(** A dropped save leaves the standard channels alone, and its failure
    ends among the unhandled rejections. *)
Lemma notAwaited_save name l w :
  let w' := notAwaited (saveToFile name (VObj l) w) in
  stderr w' = stderr w /\ stdout w' = stdout w /\
  writeError w' = writeError w /\
  (forall e, In e (unhandled w) -> In e (unhandled w')) /\
  (forall e, writeError w name = Some e -> In e (unhandled w')).
Proof.
  destruct (saveToFile_object name l w) as (text & _ & ->).
  unfold writeFile, notAwaited. cbn [settles].
  destruct (writeError w name) as [e|] eqn:E; cbn.
  - repeat split; try assumption.
    + intros e' H. apply in_or_app. now left.
    + intros e' [= <-]. apply in_or_app. right. now left.
  - repeat split; auto. intros e He. congruence.
Qed.

Section TopLevel.

Variable F : Faker.
Variable URL_host : string -> option string.

Lemma forServers_parse l : forall w,
  forallb (fun server =>
             match URL_host (url server) with
             | Some _ => true
             | None => false
             end) l = true ->
  exists w',
    forServers URL_host l w = (w', Ok tt) /\
    stderr w' = stderr w /\
    writeError w' = writeError w /\
    (forall e, In e (unhandled w) -> In e (unhandled w')) /\
    (forall server host e,
        In server l -> URL_host (url server) = Some host ->
        writeError w ("environment_" ++ host ++ ".json") = Some e ->
        In e (unhandled w')).
Proof.
  induction l as [|server l IH]; intros w H.
  - exists w. repeat split; auto. intros ? ? ? [].
  - cbn [forallb] in H. apply andb_prop in H as [Hs H].
    cbn [forServers]. unfold createEnvironment, newURL_host.
    destruct (URL_host (url server)) as [host|] eqn:Eh; [|discriminate].
    set (w1 := console_log _ w).
    pose proof (notAwaited_save ("environment_" ++ host ++ ".json")
                  [("environment",
                    VObj [("name", VStr host);
                          ("values",
                           VArr [VObj [("key", VStr "base_url");
                                       ("value", VStr (url server));
                                       ("enabled", VBool true)]])])] w1)
      as (H1 & H2 & H3 & H4 & H5).
    set (w2 := notAwaited _) in *.
    destruct (IH w2 H) as (w' & E & G1 & G2 & G3 & G4).
    exists w'. rewrite E. repeat split.
    + now rewrite G1, H1.
    + now rewrite G2, H3.
    + intros e He. apply G3, H4. exact He.
    + intros srv h e [<-|Hin] Hh He.
      * apply G3, H5. rewrite Eh in Hh. injection Hh as <-. exact He.
      * apply (G4 srv h e Hin Hh). rewrite H3. exact He.
Qed.

End TopLevel.

(** C9, what the code does where the claim fails.  When the Spec loads,
    its server URLs parse and the collection generates, [main] settles
    without error whatever writes fail: nothing reaches [console.error],
    the completion line is printed last, and the error of every failed
    write stays an unhandled rejection. *)
Theorem C9_write_errors_bypass_main (F : Faker)
        (URL_host : string -> option string) (seed : rng F)
        (swagger : Swagger) (failing : string -> option JsError) :
  serversParse URL_host swagger = true ->
  isOk (createCollection F swagger seed) = true ->
  let w := run F URL_host seed (freshWorld (Ok swagger) failing) in
  stderr w = [] /\
  (exists printed, stdout w = (printed ++ [completionLine])%list) /\
  (forall e, failing "collection_generated.json" = Some e ->
             In e (unhandled w)) /\
  (forall server host e,
      In server (servers swagger) -> URL_host (url server) = Some host ->
      failing ("environment_" ++ host ++ ".json") = Some e ->
      In e (unhandled w)).
Proof.
  intros Hs Hc. unfold run, main. cbn [swaggerFile freshWorld].
  destruct (forServers_parse URL_host (servers swagger)
              (freshWorld (Ok swagger) failing) Hs)
    as (w1 & E & G1 & G2 & G3 & G4).
  rewrite E.
  destruct (createCollection F swagger seed) as [[collection s]|] eqn:Ec;
    [|discriminate].
  rewrite createCollection_operations in Ec.
  destruct (mapM _ _ seed) as [[item s']|]; [|discriminate].
  injection Ec as <- <-. unfold collectionDoc.
  set (w2 := console_log _ w1).
  match goal with
  | |- context [notAwaited (saveToFile ?n (VObj ?l) w2)] =>
      pose proof (notAwaited_save n l w2) as (H1 & H2 & H3 & H4 & H5);
      set (w3 := notAwaited (saveToFile n (VObj l) w2)) in *
  end.
  cbv zeta. repeat split.
  - change (stderr w3 = []). rewrite H1. exact G1.
  - eexists. cbn [stdout console_log]. reflexivity.
  - intros e He. change (In e (unhandled w3)). apply H5.
    change (writeError w1 "collection_generated.json" = Some e).
    rewrite G2. exact He.
  - intros server host e Hin Hh He. change (In e (unhandled w3)).
    apply H4. exact (G4 server host e Hin Hh He).
Qed.

Lemma C9_write_errors_bypass_main_witness :
  stderr (run demoFaker PlainUrl.host 0%nat
              (freshWorld (Ok Demo.petSpec) readOnlyDisk)) = [] /\
  In (Error "EROFS: read-only file system")
     (unhandled (run demoFaker PlainUrl.host 0%nat
                     (freshWorld (Ok Demo.petSpec) readOnlyDisk))).
Proof.
  destruct (C9_write_errors_bypass_main demoFaker PlainUrl.host 0%nat
              Demo.petSpec readOnlyDisk eq_refl eq_refl)
    as (H1 & _ & H3 & _).
  split; [exact H1|]. apply H3. reflexivity.
Defined.

(** ** Reading back what [JSON.stringify] wrote *)

Lemma value_induction (P : value -> Prop) :
  P VUndefined -> P VNull -> (forall b, P (VBool b)) ->
  (forall z, P (VNum z)) -> (forall s, P (VStr s)) ->
  (forall l, Forall P l -> P (VArr l)) ->
  (forall l, Forall (fun kv => P (snd kv)) l -> P (VObj l)) ->
  P VFunc ->
  forall v, P v.
Proof.
  intros Hu Hn Hb Hz Hs Ha Ho Hf.
  fix IH 1. intros [| |b|z|s|l|l|].
  - exact Hu.
  - exact Hn.
  - apply Hb.
  - apply Hz.
  - apply Hs.
  - apply Ha. induction l as [|x l IHl]; constructor; [apply IH|exact IHl].
  - apply Ho. induction l as [|[k x] l IHl]; constructor; [apply IH|exact IHl].
  - exact Hf.
Qed.

Lemma skipWs_allWs (w s : string) :
  allWs w = true -> JSON.skipWs (w ++ s) = JSON.skipWs s.
Proof.
  induction w as [|a w IH]; simpl; [reflexivity|].
  intros H. apply andb_prop in H as [Ha H]. rewrite Ha. auto.
Qed.

Lemma allWs_append (a b : string) :
  allWs a = true -> allWs b = true -> allWs (a ++ b) = true.
Proof.
  induction a as [|c a IH]; simpl; [auto|].
  intros H Hb. apply andb_prop in H as [Hc H]. rewrite Hc. auto.
Qed.

(** One character of a string literal comes back from its escape. *)
Lemma parseChars_quoteChar (a : ascii) (s : string) :
  JSON.parseChars (JSON.quoteChar a ++ s) =
    match JSON.parseChars s with
    | Some (t, r) => Some (String a t, r)
    | None => None
    end.
Proof.
  destruct a as [[] [] [] [] [] [] [] []]; reflexivity.
Qed.

Lemma parseChars_quoteBody (s rest : string) :
  JSON.parseChars (JSON.quoteBody s ++ String JSON.dquote rest)
    = Some (s, rest).
Proof.
  induction s as [|a s IH]; [reflexivity|].
  cbn [JSON.quoteBody]. rewrite append_assoc, parseChars_quoteChar, IH.
  reflexivity.
Qed.

Lemma quote_append (s rest : string) :
  JSON.quote s ++ rest
    = String JSON.dquote (JSON.quoteBody s ++ String JSON.dquote rest).
Proof.
  unfold JSON.quote. cbn [append]. now rewrite append_assoc.
Qed.

(** *** Numbers *)

Lemma digitChar_spec d :
  d < 10 ->
  JSON.isDigit (Str.digitChar d) = true /\
  nat_of_ascii (Str.digitChar d) - 48 = d /\
  Ascii.eqb (Str.digitChar d) "0" = (d =? 0)%nat.
Proof.
  intros H.
  do 10 (destruct d as [|d]; [repeat split; reflexivity|]). lia.
Qed.

Lemma digitsOfNat_append f : forall n acc rest,
  Str.digitsOfNat f n acc ++ rest = Str.digitsOfNat f n (acc ++ rest).
Proof.
  induction f as [|f IH]; intros n acc rest; [reflexivity|].
  cbn [Str.digitsOfNat]. destruct (n <? 10)%nat; [reflexivity|].
  now rewrite IH.
Qed.

Lemma parseDigits_digitsOfNat f : forall n,
  n < f ->
  exists k, forall a tail,
    JSON.parseDigits (Str.digitsOfNat f n tail) a
      = JSON.parseDigits tail (a * k + n).
Proof.
  induction f as [|f IH]; intros n Hn; [lia|].
  cbn [Str.digitsOfNat]. destruct (Nat.ltb_spec n 10) as [Hlt|Hge].
  - exists 10. intros a tail. rewrite Nat.mod_small by assumption.
    destruct (digitChar_spec n Hlt) as (H1 & H2 & _).
    cbn [JSON.parseDigits]. now rewrite H1, H2.
  - assert (Hd : n / 10 < f).
    { pose proof (Nat.div_lt n 10). lia. }
    destruct (IH (n / 10) Hd) as [k Hk]. exists (k * 10).
    intros a tail. rewrite Hk.
    assert (Hm : n mod 10 < 10) by (apply Nat.mod_upper_bound; lia).
    destruct (digitChar_spec _ Hm) as (H1 & H2 & _).
    cbn [JSON.parseDigits]. rewrite H1, H2. f_equal.
    pose proof (Nat.div_mod_eq n 10). nia.
Qed.

Lemma digitsOfNat_head f : forall n tail,
  0 < n -> n < f ->
  exists c t,
    Str.digitsOfNat f n tail = String c t /\
    JSON.isDigit c = true /\ Ascii.eqb c "0" = false.
Proof.
  induction f as [|f IH]; intros n tail Hpos Hn; [lia|].
  cbn [Str.digitsOfNat]. destruct (Nat.ltb_spec n 10) as [Hlt|Hge].
  - rewrite Nat.mod_small by assumption.
    destruct (digitChar_spec n Hlt) as (H1 & _ & H3).
    exists (Str.digitChar n), tail. repeat split; [exact H1|].
    rewrite H3. apply Nat.eqb_neq. lia.
  - apply IH.
    + pose proof (Nat.div_str_pos n 10). lia.
    + pose proof (Nat.div_lt n 10). lia.
Qed.

Lemma parseDigits_stop rest n :
  safeRest rest = true -> JSON.parseDigits rest n = (n, rest).
Proof.
  destruct rest as [|a rest]; [reflexivity|]. cbn [safeRest JSON.parseDigits].
  intros H. apply andb_prop in H as [H _]. apply negb_true_iff in H.
  now rewrite H.
Qed.

Lemma safeRest_continues rest :
  safeRest rest = true -> JSON.continuesNumber rest = false.
Proof.
  destruct rest as [|a rest]; [reflexivity|]. cbn [safeRest].
  intros H. apply andb_prop in H as [_ H]. now apply negb_true_iff in H.
Qed.

Lemma parseNat_ofNat n rest :
  safeRest rest = true ->
  JSON.parseNat (Str.ofNat n ++ rest) = Some (n, rest).
Proof.
  intros Hs. unfold Str.ofNat. rewrite digitsOfNat_append. cbn [append].
  destruct n as [|n].
  - cbn [Str.digitsOfNat Nat.ltb Nat.leb Nat.modulo Nat.divmod fst snd Nat.sub].
    change (Str.digitChar 0) with "0"%char.
    unfold JSON.parseNat. cbn [JSON.parseDigits].
    change (JSON.isDigit "0") with true. cbv iota.
    change (0 * 10 + (nat_of_ascii "0" - 48)) with 0.
    rewrite parseDigits_stop by assumption.
    rewrite String.eqb_refl, (safeRest_continues _ Hs). reflexivity.
  - destruct (digitsOfNat_head (S (S n)) (S n) rest) as (c & t & E & Hc & H0);
      [lia|lia|].
    destruct (parseDigits_digitsOfNat (S (S n)) (S n)) as [k Hk]; [lia|].
    specialize (Hk 0 rest). rewrite E in Hk |- *.
    unfold JSON.parseNat. rewrite Hc, Hk.
    rewrite parseDigits_stop by assumption.
    rewrite H0, (safeRest_continues _ Hs). reflexivity.
Qed.

Lemma ofNat_head n :
  exists c t, Str.ofNat n = String c t /\ JSON.isDigit c = true.
Proof.
  destruct n as [|n]; [exists "0"%char, ""; now split|].
  destruct (digitsOfNat_head (S (S n)) (S n) "") as (c & t & E & Hc & _);
    [lia|lia|].
  exists c, t. now split.
Qed.

Lemma digit_not_minus c :
  JSON.isDigit c = true -> Ascii.eqb c "-" = false.
Proof. destruct c as [[] [] [] [] [] [] [] []]; trivial; discriminate. Qed.

Lemma parseNumber_ofZ z rest :
  safeRest rest = true ->
  JSON.parseNumber (Str.ofZ z ++ rest) = Some (VNum z, rest).
Proof.
  intros Hs. destruct z as [|p|p]; cbn [Str.ofZ].
  - change ("0" ++ rest) with (Str.ofNat 0 ++ rest).
    pose proof (parseNat_ofNat 0 rest Hs) as H.
    change (Str.ofNat 0 ++ rest) with (String "0" rest) in *.
    unfold JSON.parseNumber. cbn [Ascii.eqb Bool.eqb]. now rewrite H.
  - pose proof (parseNat_ofNat (Pos.to_nat p) rest Hs) as H.
    destruct (ofNat_head (Pos.to_nat p)) as (c & t & E & Hc).
    rewrite E in *. cbn [append] in *. unfold JSON.parseNumber.
    rewrite (digit_not_minus c Hc), H. now rewrite positive_nat_Z.
  - rewrite append_assoc. cbn [append]. unfold JSON.parseNumber.
    cbn [Ascii.eqb Bool.eqb].
    rewrite (parseNat_ofNat (Pos.to_nat p) rest Hs).
    now rewrite positive_nat_Z.
Qed.

Lemma ofZ_head z :
  exists c t,
    Str.ofZ z = String c t /\
    (JSON.isDigit c = true \/ c = "-"%char).
Proof.
  destruct z as [|p|p]; cbn [Str.ofZ].
  - exists "0"%char, "". split; [reflexivity|now left].
  - destruct (ofNat_head (Pos.to_nat p)) as (c & t & E & Hc).
    exists c, t. split; [exact E|now left].
  - exists "-"%char, (Str.ofNat (Pos.to_nat p)). split; [reflexivity|now right].
Qed.

Lemma parseValue_number fuel c t :
  JSON.isDigit c = true \/ c = "-"%char ->
  JSON.parseValue (S fuel) (String c t) = JSON.parseNumber (String c t).
Proof.
  intros [H| ->]; [|reflexivity].
  destruct c as [[] [] [] [] [] [] [] []]; try discriminate H; reflexivity.
Qed.

(** *** The text of arrays and objects *)

Lemma serialize_array gap indent l :
  JSON.serialize gap indent (VArr l)
    = Some (JSON.wrap "[" "]" gap indent (indent ++ gap)
              (elementTexts gap (indent ++ gap) l)).
Proof. reflexivity. Qed.

Lemma serialize_object gap indent l :
  JSON.serialize gap indent (VObj l)
    = Some (JSON.wrap "{" "}" gap indent (indent ++ gap)
              (memberTexts gap (indent ++ gap) l)).
Proof.
  cbn [JSON.serialize]. apply f_equal. apply f_equal.
  induction l as [|[k x] l IH]; [reflexivity|].
  cbn [memberTexts]. rewrite <- IH. unfold colon.
  destruct (JSON.serialize gap (indent ++ gap) x); reflexivity.
Qed.

Lemma dropUndefined_object l : dropUndefined (VObj l) = VObj (keptMembers l).
Proof.
  cbn [dropUndefined]. apply f_equal.
  induction l as [|[k x] l IH]; [reflexivity|].
  cbn [keptMembers]. rewrite <- IH. destruct x; reflexivity.
Qed.

Lemma storable_object l :
  storable (VObj l) = distinct (map fst l) && storableMembers l.
Proof.
  cbn [storable]. apply f_equal.
  induction l as [|[k x] l IH]; [reflexivity|].
  cbn [storableMembers]. rewrite <- IH. destruct x; reflexivity.
Qed.

Lemma cost_array l : cost (VArr l) = S (costElements l).
Proof.
  cbn [cost]. apply f_equal.
  induction l as [|x l IH]; [reflexivity|]. cbn [costElements]. now rewrite <- IH.
Qed.

Lemma cost_object l : cost (VObj l) = S (costMembers l).
Proof.
  cbn [cost]. apply f_equal.
  induction l as [|[k x] l IH]; [reflexivity|].
  cbn [costMembers]. rewrite <- IH. destruct x; reflexivity.
Qed.

Lemma append_nil_r (s : string) : s ++ "" = s.
Proof. induction s; simpl; congruence. Qed.

Lemma join_laidOut ld tr close rest t ts :
  (ld ++ JSON.join ("," ++ ld) (t :: ts) ++ tr ++ close) ++ rest
    = laidOut ld tr close (t :: ts) rest.
Proof.
  revert t. induction ts as [|u ts IH]; intros t.
  - cbn [JSON.join laidOut]. now rewrite !append_assoc.
  - change (JSON.join ("," ++ ld) (t :: u :: ts))
      with (t ++ ("," ++ ld) ++ JSON.join ("," ++ ld) (u :: ts)).
    change (laidOut ld tr close (t :: u :: ts) rest)
      with (ld ++ t ++ "," ++ laidOut ld tr close (u :: ts) rest).
    rewrite <- IH. now rewrite !append_assoc.
Qed.

(** The text of a non-empty array or object, after its opening bracket. *)
Lemma wrap_laidOut lb rb gap indent inner t ts rest :
  JSON.wrap (String lb "") rb gap indent inner (t :: ts) ++ rest
    = String lb (laidOut (lead gap inner) (trail gap indent) rb (t :: ts) rest).
Proof.
  rewrite <- join_laidOut. unfold JSON.wrap, lead, trail.
  destruct (String.eqb gap ""); cbn [append]; f_equal;
    now rewrite !append_assoc.
Qed.

Lemma allWs_lead gap inner :
  allWs gap = true -> allWs inner = true -> allWs (lead gap inner) = true.
Proof. intros Hg Hi. unfold lead. destruct (String.eqb gap ""); auto. Qed.

Lemma allWs_trail gap indent :
  allWs indent = true -> allWs (trail gap indent) = true.
Proof. intros Hi. unfold trail. destruct (String.eqb gap ""); auto. Qed.

Lemma safeRest_trail gap indent (close : ascii) rest :
  JSON.isDigit close = false ->
  JSON.continuesNumber (String close "") = false ->
  safeRest (trail gap indent ++ String close rest) = true.
Proof.
  intros H1 H2. unfold trail. destruct (String.eqb gap "").
  - cbn [append safeRest]. rewrite H1. cbn in H2 |- *. now rewrite H2.
  - reflexivity.
Qed.

Lemma wrap_head lb rb gap indent inner parts :
  exists t, JSON.wrap (String lb "") rb gap indent inner parts = String lb t.
Proof.
  unfold JSON.wrap. destruct parts; [|destruct (String.eqb gap "")];
    cbn [append]; eauto.
Qed.

Lemma serialize_head gap indent v text :
  JSON.serialize gap indent v = Some text ->
  exists c t, text = String c t /\ valueStart c = true.
Proof.
  destruct v as [| |[]|z|s|l|l|]; try discriminate.
  - intros [= <-]. now exists "n"%char, "ull".
  - intros [= <-]. now exists "t"%char, "rue".
  - intros [= <-]. now exists "f"%char, "alse".
  - cbn [JSON.serialize]. intros [= <-].
    destruct (ofZ_head z) as (c & t & E & H). exists c, t.
    split; [exact E|]. destruct H as [H|H].
    + unfold valueStart. rewrite H. now rewrite !orb_true_r.
    + now subst c.
  - intros [= <-]. now exists JSON.dquote, (JSON.quoteBody s ++ String JSON.dquote "").
  - rewrite serialize_array. intros [= <-].
    destruct (wrap_head "[" "]" gap indent (indent ++ gap)
                (elementTexts gap (indent ++ gap) l)) as [t ->].
    now exists "["%char, t.
  - rewrite serialize_object. intros [= <-].
    destruct (wrap_head "{" "}" gap indent (indent ++ gap)
                (memberTexts gap (indent ++ gap) l)) as [t ->].
    now exists "{"%char, t.
Qed.

Lemma valueStart_facts c :
  valueStart c = true ->
  JSON.isWs c = false /\ Ascii.eqb c "]" = false /\ Ascii.eqb c "}" = false.
Proof.
  destruct c as [[] [] [] [] [] [] [] []]; try discriminate; now repeat split.
Qed.

Lemma serialize_storable gap indent x :
  storable x = true -> exists t, JSON.serialize gap indent x = Some t.
Proof.
  destruct x as [| |[]|z|s|l|l|]; try discriminate; intros _;
    eexists; reflexivity.
Qed.

Lemma parseValue_skipWs fuel w s :
  allWs w = true -> JSON.parseValue fuel (w ++ s) = JSON.parseValue fuel s.
Proof.
  intros H. destruct fuel; [reflexivity|].
  cbn [JSON.parseValue]. now rewrite skipWs_allWs.
Qed.

Lemma skipWs_start c t :
  JSON.isWs c = false -> JSON.skipWs (String c t) = String c t.
Proof. intros H. cbn [JSON.skipWs]. now rewrite H. Qed.

Lemma safeRest_comma s : safeRest (String "," s) = true.
Proof. reflexivity. Qed.


Lemma memberTexts_length gap inner l :
  storableMembers l = true ->
  List.length (memberTexts gap inner l) = List.length (keptMembers l).
Proof.
  induction l as [|[k x] l IH]; [reflexivity|].
  cbn [storableMembers memberTexts keptMembers]. intros H.
  apply andb_prop in H as [Hx Hl]. specialize (IH Hl).
  destruct x; try discriminate Hx;
    try (destruct (serialize_storable gap inner _ Hx) as [t ->]);
    cbn [JSON.serialize List.length]; congruence.
Qed.

Lemma parseValue_string fuel s rest :
  JSON.parseValue (S fuel) (JSON.quote s ++ rest) = Some (VStr s, rest).
Proof.
  rewrite quote_append.
  change (JSON.parseValue (S fuel)
            (String JSON.dquote
                    (JSON.quoteBody s ++ String JSON.dquote rest)))
    with (match JSON.parseChars
                  (JSON.quoteBody s ++ String JSON.dquote rest) with
          | Some (t, r') => Some (VStr t, r')
          | None => None
          end).
  now rewrite parseChars_quoteBody.
Qed.

Section ReadBack.

Variable gap : string.
Hypothesis gap_ws : allWs gap = true.

Lemma parseElements_laidOut l :
  Forall (readsBack gap) l ->
  forallb storable l = true ->
  l <> [] ->
  forall indent acc rest fuel,
    allWs indent = true ->
    costElements l <= fuel ->
    JSON.parseElements fuel
      (laidOut (lead gap (indent ++ gap)) (trail gap indent) "]"
               (elementTexts gap (indent ++ gap) l) rest) acc
      = Some (VArr (acc ++ map dropUndefined l)%list, rest).
Proof.
  induction l as [|x l IH]; [congruence|].
  intros HF Hst _ indent acc rest fuel Hind Hc.
  inversion HF as [|? ? Hx HFl]; subst.
  cbn [forallb] in Hst. apply andb_prop in Hst as [Sx Sl].
  cbn [costElements] in Hc. destruct fuel as [|fuel]; [lia|].
  destruct (serialize_storable gap (indent ++ gap) x Sx) as [t Et].
  assert (Hin : allWs (indent ++ gap) = true) by now apply allWs_append.
  cbn [elementTexts map]. rewrite Et. cbn [laidOut JSON.parseElements].
  rewrite parseValue_skipWs by now apply allWs_lead.
  destruct l as [|y l].
  - cbn [map]. change ("]" ++ rest) with (String "]" rest).
    rewrite (Hx Sx (indent ++ gap) t _ fuel Hin Et) by
      (try lia; now apply safeRest_trail).
    rewrite skipWs_allWs by now apply allWs_trail.
    reflexivity.
  - change (elementTexts gap (indent ++ gap) (y :: l))
      with (map (fun x => match JSON.serialize gap (indent ++ gap) x with
                          | Some t => t
                          | None => "null"
                          end) (y :: l)).
    cbn [map]. cbn [append].
    rewrite (Hx Sx (indent ++ gap) t _ fuel Hin Et) by (try lia; reflexivity).
    change (JSON.skipWs (String "," ?s)) with (String "," s).
    cbv beta iota.
    change (Ascii.eqb "," ",") with true. cbv iota.
    specialize (IH HFl Sl ltac:(discriminate) indent
                   (acc ++ [dropUndefined x])%list rest fuel Hind
                   ltac:(lia)).
    cbn [elementTexts map] in IH. rewrite IH.
    now rewrite <- app_assoc.
Qed.

Lemma allWs_colon_space :
  allWs (if String.eqb gap "" then "" else " ") = true.
Proof. now destruct (String.eqb gap ""). Qed.

Lemma parseMembers_laidOut l :
  Forall (fun kv => readsBack gap (snd kv)) l ->
  storableMembers l = true ->
  distinct (map fst l) = true ->
  keptMembers l <> [] ->
  forall indent acc rest fuel,
    allWs indent = true ->
    costMembers l <= fuel ->
    (forall k, In k (map fst l) -> ~ In k (map fst acc)) ->
    JSON.parseMembers fuel
      (laidOut (lead gap (indent ++ gap)) (trail gap indent) "}"
               (memberTexts gap (indent ++ gap) l) rest) acc
      = Some (VObj (acc ++ keptMembers l)%list, rest).
Proof.
  induction l as [|[k x] l IH]; [cbn; congruence|].
  intros HF Hst Hd Hne indent acc rest fuel Hind Hc Hfresh.
  inversion HF as [|? ? Hx HFl]; subst. cbn [snd] in Hx.
  cbn [storableMembers] in Hst. apply andb_prop in Hst as [Sx Sl].
  cbn [map fst] in Hd. apply distinct_cons in Hd as [Hk Hd].
  assert (Hfresh' : forall k', In k' (map fst l) -> ~ In k' (map fst acc))
    by (intros k' H; apply Hfresh; now right).
  destruct (match x with VUndefined => true | _ => false end) eqn:Eu.
  { destruct x; try discriminate Eu.
    cbn [memberTexts JSON.serialize keptMembers costMembers] in *.
    now apply IH. }
  assert (Sx' : storable x = true) by (destruct x; try discriminate; exact Sx).
  assert (Ek : keptMembers ((k, x) :: l)
               = (k, dropUndefined x) :: keptMembers l)
    by (destruct x; try discriminate; reflexivity).
  assert (Ec : costMembers ((k, x) :: l)
               = S (Nat.max (cost x) (costMembers l)))
    by (destruct x; try discriminate; reflexivity).
  rewrite Ek. rewrite Ec in Hc. clear Ek Ec.
  destruct fuel as [|fuel]; [lia|].
  destruct (serialize_storable gap (indent ++ gap) x Sx') as [t Et].
  assert (Hin : allWs (indent ++ gap) = true) by now apply allWs_append.
  cbn [memberTexts]. rewrite Et. cbn [laidOut JSON.parseMembers].
  rewrite skipWs_allWs by now apply allWs_lead.
  rewrite !append_assoc, quote_append.
  change (JSON.skipWs (String JSON.dquote ?s)) with (String JSON.dquote s).
  cbv beta iota. change (Ascii.eqb JSON.dquote JSON.dquote) with true.
  cbv iota. rewrite parseChars_quoteBody. unfold colon.
  rewrite !append_assoc. cbn [append].
  change (JSON.skipWs (String ":" ?s)) with (String ":" s).
  cbv beta iota. change (Ascii.eqb ":" ":") with true. cbv iota.
  rewrite parseValue_skipWs by apply allWs_colon_space.
  assert (Hset : defineProp acc k (dropUndefined x)
                 = (acc ++ [(k, dropUndefined x)])%list)
    by (apply defineProp_fresh, Hfresh; now left).
  pose proof (memberTexts_length gap (indent ++ gap) l Sl) as Hlen.
  destruct (memberTexts gap (indent ++ gap) l) as [|u us] eqn:Em.
  - destruct (keptMembers l); [|discriminate Hlen].
    change ("}" ++ rest) with (String "}" rest).
    rewrite (Hx Sx' (indent ++ gap) t _ fuel Hin Et) by
      (try lia; now apply safeRest_trail).
    rewrite skipWs_allWs by now apply allWs_trail.
    change (JSON.skipWs (String "}" rest)) with (String "}" rest).
    cbv beta iota. change (Ascii.eqb "}" ",") with false.
    change (Ascii.eqb "}" "}") with true. cbv iota.
    now rewrite Hset.
  - cbn [append].
    rewrite (Hx Sx' (indent ++ gap) t _ fuel Hin Et) by (try lia; reflexivity).
    change (JSON.skipWs (String "," ?s)) with (String "," s).
    cbv beta iota. change (Ascii.eqb "," ",") with true. cbv iota.
    rewrite Hset.
    assert (Hne' : keptMembers l <> [])
      by (destruct (keptMembers l); [discriminate Hlen|discriminate]).
    specialize (IH HFl Sl Hd Hne' indent
                   (acc ++ [(k, dropUndefined x)])%list rest fuel Hind
                   ltac:(lia)).
    rewrite Em in IH. rewrite IH; [now rewrite <- app_assoc|].
    intros k' Hin' Hacc. rewrite map_app, in_app_iff in Hacc.
    destruct Hacc as [Hacc|[<-|[]]]; [exact (Hfresh' k' Hin' Hacc)|].
    exact (Hk Hin').
Qed.

(** Every storable value reads back from its text. *)
Theorem serialize_readsBack (v : value) : readsBack gap v.
Proof.
  induction v as [| |b|z|s|l IH|l IH|] using value_induction;
    intros Hst indent text rest fuel Hind Htext Hc Hrest;
    try discriminate Hst.
  - injection Htext as <-. destruct fuel as [|fuel]; [cbn in Hc; lia|].
    reflexivity.
  - destruct fuel as [|fuel]; [cbn in Hc; lia|].
    destruct b; injection Htext as <-; reflexivity.
  - cbn [JSON.serialize] in Htext. injection Htext as <-.
    destruct fuel as [|fuel]; [cbn in Hc; lia|].
    destruct (ofZ_head z) as (c & t & E & Hhead).
    pose proof (parseNumber_ofZ z rest Hrest) as H.
    rewrite E in H |- *. cbn [append] in H |- *.
    now rewrite parseValue_number.
  - cbn [JSON.serialize] in Htext. injection Htext as <-.
    destruct fuel as [|fuel]; [cbn in Hc; lia|].
    apply parseValue_string.
  - rewrite serialize_array in Htext. injection Htext as <-.
    rewrite cost_array in Hc. destruct fuel as [|fuel]; [lia|].
    cbn [storable] in Hst. cbn [dropUndefined].
    destruct l as [|x l]; [reflexivity|].
    cbn [elementTexts map]. rewrite wrap_laidOut.
    pose proof (parseElements_laidOut (x :: l) IH Hst ltac:(discriminate)
                  indent [] rest fuel Hind ltac:(lia)) as H.
    cbn [elementTexts map] in H.
    destruct (serialize_storable gap (indent ++ gap) x) as [t Et].
    { cbn [forallb] in Hst. now apply andb_prop in Hst as [? _]. }
    rewrite Et in H |- *.
    destruct (serialize_head _ _ _ _ Et) as (c & t' & -> & Hc').
    destruct (valueStart_facts c Hc') as (W & B1 & _).
    cbn [JSON.parseValue]. cbn [laidOut] in H |- *.
    change (JSON.skipWs (String "[" ?s)) with (String "[" s).
    cbv beta iota. change (Ascii.eqb "[" "{") with false.
    change (Ascii.eqb "[" "[") with true. cbv iota.
    rewrite skipWs_allWs by
      (apply allWs_lead; [assumption|now apply allWs_append]).
    cbn [append]. rewrite (skipWs_start c _ W), B1.
    cbn [append] in H. exact H.
  - rewrite serialize_object in Htext. injection Htext as <-.
    rewrite cost_object in Hc. destruct fuel as [|fuel]; [lia|].
    rewrite storable_object in Hst. apply andb_prop in Hst as [Hd Hm].
    rewrite dropUndefined_object.
    pose proof (memberTexts_length gap (indent ++ gap) l Hm) as Hlen.
    destruct (memberTexts gap (indent ++ gap) l) as [|m ms] eqn:Em.
    { destruct (keptMembers l); [reflexivity|discriminate Hlen]. }
    assert (Hne : keptMembers l <> [])
      by (destruct (keptMembers l); [discriminate Hlen|discriminate]).
    rewrite wrap_laidOut.
    pose proof (parseMembers_laidOut l IH Hm Hd Hne indent [] rest fuel
                  Hind ltac:(lia) ltac:(intros ? _ [])) as H.
    rewrite Em in H.
    cbn [JSON.parseValue].
    change (JSON.skipWs (String "{" ?s)) with (String "{" s).
    cbv beta iota. change (Ascii.eqb "{" "{") with true. cbv iota.
    assert (Hm0 : exists t, m = String JSON.dquote t).
    { clear - Em. induction l as [|[k x] l IHl]; [discriminate|].
      cbn [memberTexts] in Em.
      destruct (JSON.serialize gap (indent ++ gap) x); [|auto].
      injection Em as <- _. unfold JSON.quote. cbn [append]. eauto. }
    destruct Hm0 as [t ->].
    cbn [laidOut] in H |- *.
    rewrite skipWs_allWs by
      (apply allWs_lead; [assumption|now apply allWs_append]).
    cbn [append].
    change (JSON.skipWs (String JSON.dquote ?s)) with (String JSON.dquote s).
    cbv beta iota. change (Ascii.eqb JSON.dquote "}") with false. cbv iota.
    cbn [append] in H. exact H.
Qed.

End ReadBack.

(** *** The length of a text bounds the calls that read it *)

Lemma costMembers_empty gap inner l :
  storableMembers l = true ->
  memberTexts gap inner l = [] ->
  costMembers l = 0.
Proof.
  induction l as [|[k x] l IH]; [reflexivity|].
  cbn [storableMembers memberTexts]. intros H E.
  apply andb_prop in H as [Sx Sl].
  destruct (match x with VUndefined => true | _ => false end) eqn:Eu.
  { destruct x; try discriminate Eu. cbn [costMembers]. now apply IH. }
  assert (Sx' : storable x = true) by (destruct x; try discriminate; exact Sx).
  destruct (serialize_storable gap inner x Sx') as [t Et].
  rewrite Et in E. discriminate.
Qed.

Section TextLength.

Variable gap : string.

Lemma costElements_length l :
  Forall (shortEnough gap) l ->
  forallb storable l = true ->
  forall ld tr inner rest,
    costElements l
      <= String.length (laidOut ld tr "]" (elementTexts gap inner l) rest).
Proof.
  induction l as [|x l IH]; intros HF Hst ld tr inner rest; [cbn; lia|].
  inversion HF as [|? ? Hx HFl]; subst.
  cbn [forallb] in Hst. apply andb_prop in Hst as [Sx Sl].
  destruct (serialize_storable gap inner x Sx) as [t Et].
  specialize (Hx Sx inner t Et). specialize (IH HFl Sl ld tr inner rest).
  cbn [elementTexts map costElements]. rewrite Et.
  fold (elementTexts gap inner l). cbn [laidOut].
  destruct l as [|y l].
  - cbn [elementTexts map costElements]. rewrite !length_append. cbn. lia.
  - set (ts := elementTexts gap inner (y :: l)) in *.
    assert (Hts : exists u us, ts = u :: us) by (cbn; eauto).
    destruct Hts as (u & us & Ets). rewrite Ets in *.
    rewrite !length_append. cbn [String.length]. lia.
Qed.

Lemma costMembers_length l :
  Forall (fun kv => shortEnough gap (snd kv)) l ->
  storableMembers l = true ->
  forall ld tr inner rest,
    costMembers l
      <= String.length (laidOut ld tr "}" (memberTexts gap inner l) rest).
Proof.
  induction l as [|[k x] l IH]; intros HF Hst ld tr inner rest; [cbn; lia|].
  inversion HF as [|? ? Hx HFl]; subst. cbn [snd] in Hx.
  cbn [storableMembers] in Hst. apply andb_prop in Hst as [Sx Sl].
  specialize (IH HFl Sl ld tr inner rest).
  destruct (match x with VUndefined => true | _ => false end) eqn:Eu.
  { destruct x; try discriminate Eu. exact IH. }
  assert (Sx' : storable x = true) by (destruct x; try discriminate; exact Sx).
  assert (Ec : costMembers ((k, x) :: l)
               = S (Nat.max (cost x) (costMembers l)))
    by (destruct x; try discriminate; reflexivity).
  rewrite Ec. clear Ec.
  destruct (serialize_storable gap inner x Sx') as [t Et].
  specialize (Hx Sx' inner t Et).
  cbn [memberTexts]. rewrite Et. cbn [laidOut].
  destruct (memberTexts gap inner l) as [|u us] eqn:Em.
  - rewrite (costMembers_empty gap inner l Sl Em).
    rewrite !length_append. unfold colon. cbn [String.length]. lia.
  - rewrite !length_append. unfold colon. cbn [String.length]. lia.
Qed.

Lemma cost_le_length (v : value) : shortEnough gap v.
Proof.
  induction v as [| |b|z|s|l IH|l IH|] using value_induction;
    intros Hst indent text Htext; try discriminate Hst;
    try (destruct (serialize_head _ _ _ _ Htext) as (c & t & -> & _);
         cbn; lia).
  - rewrite serialize_array in Htext. injection Htext as <-.
    rewrite cost_array. cbn [storable] in Hst.
    destruct l as [|x l]; [cbn; lia|].
    cbn [elementTexts map].
    pose proof (wrap_laidOut "[" "]" gap indent (indent ++ gap)
                  match JSON.serialize gap (indent ++ gap) x with
                  | Some t => t
                  | None => "null"
                  end
                  (map (fun x => match JSON.serialize gap (indent ++ gap) x with
                                 | Some t => t
                                 | None => "null"
                                 end) l) "") as H.
    rewrite append_nil_r in H. rewrite H. cbn [String.length].
    apply le_n_S.
    apply (costElements_length (x :: l) IH Hst).
  - rewrite serialize_object in Htext. injection Htext as <-.
    rewrite cost_object.
    rewrite storable_object in Hst. apply andb_prop in Hst as [_ Hm].
    pose proof (costMembers_length l IH Hm (lead gap (indent ++ gap))
                  (trail gap indent) (indent ++ gap) "") as H.
    destruct (memberTexts gap (indent ++ gap) l) as [|m ms] eqn:Em.
    + rewrite (costMembers_empty gap (indent ++ gap) l Hm Em). cbn. lia.
    + pose proof (wrap_laidOut "{" "}" gap indent (indent ++ gap) m ms "")
        as H'.
      rewrite append_nil_r in H'. rewrite H'. cbn [String.length]. lia.
Qed.

End TextLength.

(** [JSON.parse] gives back what [JSON.stringify] was given, the
    undefined properties left out; the indentation makes no difference. *)
Theorem parse_serialize (gap : string) (v : value) (text : string) :
  allWs gap = true ->
  storable v = true ->
  JSON.serialize gap "" v = Some text ->
  JSON.parse text = Ok (dropUndefined v).
Proof.
  intros Hgap Hst Htext. unfold JSON.parse.
  pose proof (cost_le_length gap v Hst "" text Htext) as Hc.
  pose proof (serialize_readsBack gap Hgap v Hst "" text ""
                (S (String.length text)) eq_refl Htext ltac:(lia) eq_refl)
    as H.
  rewrite append_nil_r in H. now rewrite H.
Qed.

(** ** Generated documents are storable *)

Lemma isJson_object l :
  isJson (VObj l)
    = distinct (map fst l) && forallb (fun kv => isJson (snd kv)) l.
Proof.
  cbn [isJson]. apply f_equal.
  induction l as [|[k x] l IH]; [reflexivity|].
  cbn [forallb snd]. now rewrite <- IH.
Qed.

Lemma isJson_storable (v : value) :
  isJson v = true -> storable v = true /\ dropUndefined v = v.
Proof.
  induction v as [| |b|z|s|l IH|l IH|] using value_induction;
    intros H; try discriminate H; try (split; reflexivity).
  - cbn [isJson] in H. cbn [storable dropUndefined].
    induction l as [|x l IHl]; [split; reflexivity|].
    inversion IH as [|? ? Hx Hl]; subst.
    cbn [forallb] in H. apply andb_prop in H as [H1 H2].
    destruct (Hx H1) as [Sx Dx]. destruct (IHl Hl H2) as [Sl Dl].
    cbn [forallb map]. rewrite Sx, Sl, Dx. injection Dl as ->. now split.
  - rewrite isJson_object in H. apply andb_prop in H as [Hd Hm].
    rewrite storable_object, dropUndefined_object, Hd. cbn [andb].
    clear Hd. induction l as [|[k x] l IHl]; [split; reflexivity|].
    inversion IH as [|? ? Hx Hl]; subst. cbn [snd] in Hx.
    cbn [forallb snd] in Hm. apply andb_prop in Hm as [H1 H2].
    destruct (Hx H1) as [Sx Dx]. destruct (IHl Hl H2) as [Sl Dl].
    cbn [storableMembers keptMembers]. injection Dl as Dl.
    destruct x; try discriminate H1; cbn [andb]; rewrite ?Sx, ?Dx, Sl, Dl;
      now split.
Qed.







Section StorableDocuments.

Variable F : Faker.






End StorableDocuments.

(** ** Writing a document and reading it back *)

Lemma readFile_setFile fs name c :
  readFile (setFile fs name c) name = Some c.
Proof.
  induction fs as [|[n t] fs IH]; cbn [setFile readFile].
  - now rewrite String.eqb_refl.
  - destruct (String.eqb name n) eqn:E; cbn [readFile]; now rewrite E.
Qed.



Lemma keptMembers_defined k x l :
  x <> VUndefined ->
  keptMembers ((k, x) :: l) = (k, dropUndefined x) :: keptMembers l /\
  dropUndefined x <> VUndefined.
Proof. destruct x; try congruence; intros _; split; try reflexivity; discriminate. Qed.

Lemma dropUndefined_idempotent (v : value) :
  dropUndefined (dropUndefined v) = dropUndefined v.
Proof.
  induction v as [| |b|z|s|l IH|l IH|] using value_induction;
    try reflexivity.
  - cbn [dropUndefined]. f_equal. rewrite map_map.
    induction IH as [|x l Hx Hl IHl]; [reflexivity|].
    cbn [map]. now rewrite Hx, IHl.
  - rewrite !dropUndefined_object. f_equal.
    induction IH as [|[k x] l Hx Hl IHl]; [reflexivity|].
    cbn [snd] in Hx.
    destruct (match x with VUndefined => true | _ => false end) eqn:Eu.
    { destruct x; try discriminate Eu. exact IHl. }
    assert (Hne : x <> VUndefined) by (intros ->; discriminate).
    destruct (keptMembers_defined k x l Hne) as [-> Hd].
    destruct (keptMembers_defined k (dropUndefined x) (keptMembers l) Hd)
      as [-> _].
    now rewrite Hx, IHl.
Qed.





Section UndefinedBodies.

Variable F : Faker.


End UndefinedBodies.




(** * Further properties of the code *)

(** ** What the generator returns and throws *)

Lemma defineProp_keys (o : props) k x :
  map fst (defineProp o k x)
    = if existsb (String.eqb k) (map fst o) then map fst o
      else (map fst o ++ [k])%list.
Proof.
  induction o as [|[k' v] o IH]; [reflexivity|].
  cbn [defineProp map fst existsb].
  destruct (String.eqb_spec k k') as [->|Hne]; [reflexivity|].
  cbn [map fst orb]. rewrite IH.
  now destruct (existsb (String.eqb k) (map fst o)).
Qed.

Lemma distinct_snoc l k :
  distinct l = true ->
  existsb (String.eqb k) l = false ->
  distinct (l ++ [k]) = true.
Proof.
  induction l as [|x l IH]; [reflexivity|].
  cbn [distinct existsb app]. intros H Hk.
  apply andb_prop in H as [Hx Hl]. apply orb_false_elim in Hk as [Hkx Hkl].
  rewrite IH by assumption. rewrite andb_true_r.
  rewrite existsb_app. cbn [existsb]. apply negb_true_iff in Hx.
  rewrite Hx, orb_false_r. cbn [orb].
  now rewrite String.eqb_sym, Hkx.
Qed.

Lemma defineProp_distinct (o : props) k x :
  distinct (map fst o) = true ->
  distinct (map fst (defineProp o k x)) = true.
Proof.
  intros H. rewrite defineProp_keys.
  destruct (existsb (String.eqb k) (map fst o)) eqn:E; [exact H|].
  now apply distinct_snoc.
Qed.

Lemma defineProp_forallb (f : value -> bool) (o : props) k x :
  forallb (fun kv => f (snd kv)) o = true -> f x = true ->
  forallb (fun kv => f (snd kv)) (defineProp o k x) = true.
Proof.
  intros Ho Hx. induction o as [|[k' v] o IH]; cbn [defineProp forallb snd].
  - now rewrite Hx.
  - cbn [forallb snd] in Ho. apply andb_prop in Ho as [Hv Ho].
    destruct (String.eqb k k'); cbn [forallb snd].
    + now rewrite Hx, Ho.
    + rewrite Hv. now apply IH.
Qed.

Lemma defineProp_In (o : props) k x k' :
  In k' (map fst (defineProp o k x)) -> k' = k \/ In k' (map fst o).
Proof.
  rewrite defineProp_keys. destruct (existsb _ _); [now right|].
  rewrite in_app_iff. cbn. intuition.
Qed.

(** An assignment defines the property or leaves the object as it is. *)
Lemma setProp_cases (o : props) k x :
  setProp o k x = defineProp o k x \/ setProp o k x = o.
Proof.
  unfold setProp. destruct (lookup k o); [now left|].
  destruct (String.eqb k "__proto__"); [now right|now left].
Qed.

Lemma setProp_distinct (o : props) k x :
  distinct (map fst o) = true -> distinct (map fst (setProp o k x)) = true.
Proof.
  intros H. destruct (setProp_cases o k x) as [-> | ->]; [|exact H].
  now apply defineProp_distinct.
Qed.

Lemma setProp_forallb (f : value -> bool) (o : props) k x :
  forallb (fun kv => f (snd kv)) o = true -> f x = true ->
  forallb (fun kv => f (snd kv)) (setProp o k x) = true.
Proof.
  intros Ho Hx. destruct (setProp_cases o k x) as [-> | ->]; [|exact Ho].
  now apply defineProp_forallb.
Qed.

Lemma setProp_In (o : props) k x k' :
  In k' (map fst (setProp o k x)) -> k' = k \/ In k' (map fst o).
Proof.
  destruct (setProp_cases o k x) as [-> | ->]; [|now right].
  apply defineProp_In.
Qed.

Section GeneratorInvariants.

Variable F : Faker.

(** What is true of the data so far stays true through the loop. *)
Lemma forEntries_invariant (P : props -> Prop)
      (step : props -> string -> value -> M F props) entries :
  (forall d k v s d' s',
      P d -> In (k, v) entries -> step d k v s = Ok (d', s') -> P d') ->
  forall data st out st',
    P data ->
    forEntries F step entries data st = Ok (out, st') ->
    P out.
Proof.
  induction entries as [|[k v] es IH]; intros Hstep data st out st' HP.
  - now intros [= <- _].
  - cbn [forEntries]. unfold bind.
    destruct (step data k v st) as [[d s]|] eqn:E; [|discriminate].
    apply IH.
    + intros d0 k0 v0 s0 d' s' H0 Hin. apply Hstep; [exact H0|now right].
    + apply (Hstep data k v st d s HP); [now left|exact E].
Qed.

(** One turn of the loop either leaves the data alone or assigns [key]
    a string, a number, a one-element array of a generated value, or a
    generated value. *)
Lemma genEntry_result self data key v st d' st' :
  genEntry F self data key v st = Ok (d', st') ->
  d' = data \/
  exists x,
    d' = setProp data key x /\
    ((exists s, x = VStr s) \/ (exists n, x = VNum n) \/
     (exists u s s' y, self u s = Ok (y, s') /\ (x = VArr [y] \/ x = y))).
Proof.
  destruct (truthy (typeOf v)) eqn:Ht;
    [|rewrite genEntry_missing by assumption; discriminate].
  rewrite genEntry_present by assumption.
  destruct (isStr (typeOf v) "string").
  { destruct (commerce_productName F st) as [s s1]. intros [= <- _].
    right. eexists. split; [reflexivity|]. left. eauto. }
  destruct (isStr (typeOf v) "integer").
  { destruct (number_int F st) as [n s1]. intros [= <- _].
    right. eexists. split; [reflexivity|]. right. left. eauto. }
  destruct (isStr (typeOf v) "array" && truthy (itemsOf v)).
  { destruct (self (itemsOf v) st) as [[y s1]|] eqn:E; [|discriminate].
    intros [= <- _]. right. eexists. split; [reflexivity|].
    right. right. exists (itemsOf v), st, s1, y. split; [exact E|now left]. }
  destruct (isStr (typeOf v) "object").
  { destruct (self v st) as [[y s1]|] eqn:E; [|discriminate].
    intros [= <- _]. right. eexists. split; [reflexivity|].
    right. right. exists v, st, s1, y. split; [exact E|now right]. }
  intros [= <- _]. now left.
Qed.

Lemma genDepth_isJson n : forall schema st data st',
  genDepth F n schema st = Ok (data, st') -> isJson data = true.
Proof.
  induction n as [|n IH]; intros schema st data st'; [discriminate|].
  cbn [genDepth]. unfold genBody, bind, lift, ret.
  destruct (getField schema "properties") as [ps|]; [|discriminate].
  destruct (Object_entries ps) as [es|]; [|discriminate].
  destruct (forEntries F _ es [] st) as [[out s]|] eqn:E; [|discriminate].
  intros [= <- _]. rewrite isJson_object.
  apply (forEntries_invariant
           (fun d => distinct (map fst d)
                     && forallb (fun kv => isJson (snd kv)) d = true)
           (genEntry F (genDepth F n)) es)
    with (data := @nil (string * value)) (st := st) (st' := s);
    [|reflexivity|exact E].
  intros d k v s0 d' s' Hd _ Hstep. apply andb_prop in Hd as [Hd1 Hd2].
  apply genEntry_result in Hstep as [->|(x & -> & Hx)];
    [now rewrite Hd1, Hd2|].
  rewrite setProp_distinct by assumption. cbn [andb].
  apply setProp_forallb; [assumption|].
  destruct Hx as [[s1 ->]|[[z ->]|(u & s1 & s2 & y & Hy & [->| ->])]];
    try reflexivity; apply IH in Hy; [|exact Hy].
  cbn [isJson forallb]. now rewrite Hy.
Qed.

Lemma genDepth_keys n schema st out st' :
  genDepth F n schema st = Ok (VObj out, st') ->
  forall k, In k (map fst out) -> In k (map fst (declaredProperties schema)).
Proof.
  destruct n as [|n]; [discriminate|].
  cbn [genDepth]. unfold genBody, bind, lift, ret, declaredProperties.
  destruct (getField schema "properties") as [ps|]; [|discriminate].
  destruct (Object_entries ps) as [es|]; [|discriminate].
  destruct (forEntries F _ es [] st) as [[d s]|] eqn:E; [|discriminate].
  intros [= <- _].
  apply (forEntries_invariant
           (fun d => forall k, In k (map fst d) -> In k (map fst es))
           (genEntry F (genDepth F n)) es)
    with (data := @nil (string * value)) (st := st) (st' := s);
    [|intros ? []|exact E].
  intros d0 k v s0 d' s' Hd Hin Hstep k' Hk'.
  apply genEntry_result in Hstep as [->|(x & -> & _)]; [now apply Hd|].
  apply setProp_In in Hk' as [->|Hk']; [|now apply Hd].
  apply (in_map fst) in Hin. exact Hin.
Qed.

Lemma genDepth_errors n : forall schema st e,
  genDepth F n schema st = Throw e ->
  e = TypeError \/ exists key, e = SchemaError key.
Proof.
  induction n as [|n IH]; intros schema st e.
  - intros [= <-]. now left.
  - cbn [genDepth]. unfold genBody, bind, lift, ret.
    destruct (getField schema "properties") as [ps|e0] eqn:Eps.
    2:{ intros [= <-]. left.
        destruct schema; cbn in Eps; try discriminate Eps;
          try (now injection Eps as <-).
        destruct (lookup _ _); discriminate. }
    destruct (Object_entries ps) as [es|e0] eqn:Ees.
    2:{ intros [= <-]. left.
        destruct ps; cbn in Ees; try discriminate Ees;
          now injection Ees as <-. }
    intros H.
    assert (Hloop : forall es data st,
               forEntries F (genEntry F (genDepth F n)) es data st = Throw e ->
               e = TypeError \/ exists key, e = SchemaError key).
    { clear - IH. induction es as [|[k v] es IHes]; intros data st;
        [discriminate|].
      cbn [forEntries]. unfold bind.
      destruct (genEntry F (genDepth F n) data k v st) as [[d s]|e0] eqn:E;
        [apply IHes|].
      intros [= <-].
      destruct (truthy (typeOf v)) eqn:Ht.
      - rewrite genEntry_present in E by assumption.
        destruct (isStr (typeOf v) "string");
          [destruct (commerce_productName F st); discriminate|].
        destruct (isStr (typeOf v) "integer");
          [destruct (number_int F st); discriminate|].
        destruct (isStr (typeOf v) "array" && truthy (itemsOf v)).
        { destruct (genDepth F n (itemsOf v) st) as [[y s]|e1] eqn:E1;
            [discriminate|].
          injection E as <-. now apply IH in E1. }
        destruct (isStr (typeOf v) "object"); [|discriminate].
        destruct (genDepth F n v st) as [[y s]|e1] eqn:E1; [discriminate|].
        injection E as <-. now apply IH in E1.
      - rewrite genEntry_missing in E by assumption.
        injection E as <-. right. eauto. }
    destruct (forEntries F _ es [] st) as [[d s]|e0] eqn:E; [discriminate|].
    injection H as <-. exact (Hloop es [] st E).
Qed.

End GeneratorInvariants.

(** X1.  Whatever the schema, the data the generator returns is a JSON
    value: mappings with distinct keys holding strings, numbers,
    one-element arrays and mappings, and [undefined] nowhere.  So the raw
    body [JSON.stringify(data)] is always a text, and parsing the text
    gives the data again. *)
Theorem X1_generated_data_parses_back (F : Faker) (schema : value)
        (st st' : rng F) (data : value) :
  generateFakeData F schema st = Ok (data, st') ->
  isJson data = true /\
  exists text,
    JSON.stringify data = VStr text /\ JSON.parse text = Ok data.
Proof.
  intros H. apply genDepth_isJson in H.
  split; [exact H|].
  destruct (isJson_storable data H) as [Hst Hid].
  destruct (serialize_storable "" "" data Hst) as [text Et].
  exists text. unfold JSON.stringify. rewrite Et. split; [reflexivity|].
  pose proof (parse_serialize "" data text eq_refl Hst Et) as Hp.
  now rewrite Hid in Hp.
Qed.

Lemma X1_generated_data_parses_back_witness :
  isJson Demo.richData = true /\
  exists text,
    JSON.stringify Demo.richData = VStr text /\
    JSON.parse text = Ok Demo.richData.
Proof.
  exact (X1_generated_data_parses_back demoFaker Demo.richSchema
                                       0%nat 4%nat Demo.richData eq_refl).
Defined.

(** X2.  The generator returns a mapping, never another kind of value;
    its keys are distinct and each is the name of a declared property:
    no key is invented. *)
Theorem X2_generated_keys_are_declared (F : Faker) (schema : value)
        (st st' : rng F) (data : value) :
  generateFakeData F schema st = Ok (data, st') ->
  exists out,
    data = VObj out /\
    distinct (map fst out) = true /\
    forall k, In k (map fst out) ->
              In k (map fst (declaredProperties schema)).
Proof.
  intros H. pose proof (genDepth_isJson F _ _ _ _ _ H) as Hj.
  assert (Hobj : exists out, data = VObj out).
  { unfold generateFakeData in H. cbn [genDepth] in H.
    unfold genBody, bind, lift, ret in H.
    destruct (getField schema "properties"); [|discriminate].
    destruct (Object_entries v); [|discriminate].
    destruct (forEntries F _ p [] st) as [[d s]|]; [|discriminate].
    injection H as <- _. eauto. }
  destruct Hobj as [out ->]. exists out. split; [reflexivity|].
  rewrite isJson_object in Hj. apply andb_prop in Hj as [Hd _].
  split; [exact Hd|]. exact (genDepth_keys F _ _ _ _ _ H).
Qed.

Lemma X2_generated_keys_are_declared_witness :
  exists out,
    Demo.richData = VObj out /\
    distinct (map fst out) = true /\
    forall k, In k (map fst out) ->
              In k (map fst (declaredProperties Demo.richSchema)).
Proof.
  exact (X2_generated_keys_are_declared demoFaker Demo.richSchema
                                        0%nat 4%nat Demo.richData eq_refl).
Defined.

(** X3.  The generator throws nothing but a [TypeError] (a schema or
    nested schema it cannot enumerate) or the error
    [Type property is missing for <key>] of some property, nested ones
    included. *)
Theorem X3_generator_errors (F : Faker) (schema : value) (st : rng F)
        (e : JsError) :
  generateFakeData F schema st = Throw e ->
  e = TypeError \/ exists key, e = SchemaError key.
Proof. apply genDepth_errors. Qed.

Lemma X3_generator_errors_witness :
  SchemaError "x" = TypeError \/ exists key, SchemaError "x" = SchemaError key.
Proof.
  exact (X3_generator_errors demoFaker
           (schemaOf [("pet", VObj [("type", VStr "object");
                                    ("properties", VObj [("x", VObj [])])])])
           0%nat (SchemaError "x") eq_refl).
Defined.

(** ** The type guard *)

(** X4.  [hasTypeProperty] never throws, whatever it is given ([null],
    [undefined] and primitives included): the conjunction reads [type]
    only of a truthy value.  Its result is truthy exactly when the value
    is truthy and has a truthy [type]. *)
Theorem X4_hasTypeProperty_total (obj : value) :
  exists t,
    hasTypeProperty obj = Ok t /\
    truthy t = truthy obj && truthy (fieldOf obj "type").
Proof.
  destruct (hasTypeProperty_truthy obj) as (t & Ht & E).
  exists t. split; [exact Ht|]. rewrite E. unfold typeOf.
  destruct (truthy (fieldOf obj "type")) eqn:Et.
  - now rewrite (typeOf_truthy obj Et).
  - now rewrite andb_false_r.
Qed.

(** ** The request body of an operation *)

Section BodyEdges.

Variable F : Faker.

(** X5.  The optional chain guards [requestBody], the JSON entry and
    its [schema], but not [content]: an operation whose [requestBody]
    is there without [content] (a request body given by reference, say)
    makes the generation of its item throw a [TypeError], while an
    operation without [requestBody], or whose content has no
    [application/json] entry, gets an item without body and draws
    nothing from faker for it. *)
Theorem X5_request_body_without_content (swagger : Swagger)
        (path method : string) (details rb : value) (st : rng F) :
  getField details "requestBody" = Ok rb ->
  (isNullish rb = false ->
   isNullish (fieldOf rb "content") = true ->
   requestItem F swagger path method details st = Throw TypeError) /\
  (isNullish rb = true \/
   (isNullish rb = false /\ isNullish (fieldOf rb "content") = false /\
    isNullish (fieldOf (fieldOf rb "content") "application/json") = true) ->
   requestBody F swagger details st = Ok (VUndefined, st)).
Proof.
  intros Hrb. split.
  - intros Hn Hc. apply requestItem_body_throws.
    unfold requestBody, bind, lift, bodySchemaRef. rewrite Hrb, Hn.
    unfold fieldOf in Hc.
    destruct (getField rb "content") as [content|] eqn:Ec.
    + destruct content; try discriminate Hc; reflexivity.
    + destruct rb; cbn in Ec, Hn; try discriminate;
        destruct (lookup _ _); discriminate.
  - intros [Hn|(Hn & Hc & Hj)];
      unfold requestBody, bind, lift, bodySchemaRef; rewrite Hrb, Hn;
      [reflexivity|].
    unfold fieldOf in Hc, Hj.
    destruct (getField rb "content") as [content|]; [|discriminate Hc].
    destruct (getField content "application/json") as [json|] eqn:Ej.
    + now rewrite Hj.
    + destruct content; cbn in Ej, Hc; try discriminate;
        destruct (lookup _ _); discriminate.
Qed.

End BodyEdges.

Lemma X5_request_body_without_content_witness :
  requestItem demoFaker Demo.petSpec "/pets" "post" referencedBody 0%nat
    = Throw TypeError /\
  requestBody demoFaker Demo.petSpec xmlBody 0%nat = Ok (VUndefined, 0%nat).
Proof.
  split.
  - apply (proj1 (X5_request_body_without_content demoFaker Demo.petSpec
                    "/pets" "post" referencedBody
                    (VObj [("$ref",
                            VStr "#/components/requestBodies/PetBody")])
                    0%nat eq_refl)); reflexivity.
  - apply (proj2 (X5_request_body_without_content demoFaker Demo.petSpec
                    "/pets" "post" xmlBody _ 0%nat eq_refl)).
    right. repeat split.
Defined.

(** ** Query parameters: the edges *)

Section SequencingMore.

Variable F : Faker.

(** A failed [mapM] failed at its first failing element. *)
Lemma mapM_first_failure {A B} (f : A -> M F B) (l : list A) : forall st e,
  mapM f l st = Throw e ->
  exists pre x post ys s,
    l = (pre ++ x :: post)%list /\
    mapM f pre st = Ok (ys, s) /\
    f x s = Throw e.
Proof.
  induction l as [|a l IH]; intros st e; [discriminate|].
  cbn [mapM]. unfold bind at 1.
  destruct (f a st) as [[y s]|e0] eqn:Ea.
  - unfold bind at 1. destruct (mapM f l s) as [[ys s1]|e1] eqn:El;
      [discriminate|].
    intros [= <-]. destruct (IH s e1 El) as (pre & x & post & zs & s2 & -> & Hp & Hx).
    exists (a :: pre), x, post, (y :: zs), s2. repeat split; [|exact Hx].
    cbn [mapM]. unfold bind, ret. now rewrite Ea, Hp.
  - intros [= <-]. exists [], a, l, [], st. now repeat split.
Qed.

Lemma filterM_isQuery_ok ps st :
  forallb (fun p => negb (isNullish p)) ps = true ->
  filterM F (isQuery F) ps st = Ok (filter inQuery ps, st).
Proof.
  induction ps as [|p ps IH]; intros H; [reflexivity|].
  cbn [forallb] in H. apply andb_prop in H as [Hp H].
  cbn [filterM filter]. unfold bind at 1. unfold isQuery at 1.
  unfold bind, lift, ret. unfold inQuery at 1. unfold fieldOf.
  destruct (getField p "in") as [loc|] eqn:E.
  - fold (bind (A := list value) (B := list value) (F := F)).
    unfold bind. rewrite (IH H). reflexivity.
  - destruct p; cbn in E, Hp; try discriminate;
      destruct (lookup _ _); discriminate.
Qed.

Lemma queryEntry_errors param st e :
  queryEntry F param st = Throw e -> e = TypeError.
Proof.
  assert (Hget : forall v k e', getField v k = Throw e' -> e' = TypeError).
  { intros v k e' H. destruct v; cbn in H; try discriminate;
      try (now injection H as <-). destruct (lookup _ _); discriminate. }
  unfold queryEntry, bind, lift, ret, draw.
  destruct (getField param "name") eqn:E1; [|intros [= <-]; eauto].
  destruct (getField param "schema") eqn:E2; [|intros [= <-]; eauto].
  destruct (getField v0 "type") eqn:E3; [|intros [= <-]; eauto].
  destruct (isStr v1 "array"); destruct (random_word F st);
    (destruct (getField param "description") eqn:E4;
     [discriminate|intros [= <-]; eauto]).
Qed.

End SequencingMore.

(** X6.  The query parameters at the edges.  An operation without
    [parameters] (or with [null] for them) has an empty query and draws
    nothing from faker.  Parameters that are not an array, and a query
    parameter without [schema], make the generation throw a
    [TypeError]. *)
Theorem X6_query_parameter_edges (F : Faker) (details : value) (st : rng F) :
  (isNullish details = false ->
   isNullish (fieldOf details "parameters") = true ->
   queryParams F details st = Ok (VArr [], st)) /\
  (forall p,
      getField details "parameters" = Ok p ->
      isNullish p = false ->
      (forall l, p <> VArr l) ->
      queryParams F details st = Throw TypeError) /\
  (forall pre param post,
      getField details "parameters" = Ok (VArr (pre ++ param :: post)) ->
      forallb (fun p => negb (isNullish p)) (pre ++ param :: post) = true ->
      inQuery param = true ->
      isNullish (fieldOf param "schema") = true ->
      queryParams F details st = Throw TypeError).
Proof.
  split; [|split].
  - intros Hd Hp. unfold queryParams, bind, lift. unfold fieldOf in Hp.
    destruct (getField details "parameters") as [p|] eqn:E.
    + now rewrite Hp.
    + destruct details; cbn in E, Hd; try discriminate;
        destruct (lookup _ _); discriminate.
  - intros p Hp Hn Harr. unfold queryParams, bind, lift. rewrite Hp, Hn.
    destruct p; try reflexivity. now destruct (Harr l).
  - intros pre param post Hp Hall Hq Hs.
    unfold queryParams, bind at 1, lift. rewrite Hp. cbn [isNullish].
    unfold bind at 1. rewrite filterM_isQuery_ok by assumption.
    rewrite filter_app. cbn [filter]. rewrite Hq.
    assert (Hparam : forall s, queryEntry F param s = Throw TypeError).
    { intros s. unfold queryEntry, bind, lift. unfold fieldOf in Hs.
      rewrite forallb_app in Hall. apply andb_prop in Hall as [_ Hall].
      cbn [forallb] in Hall. apply andb_prop in Hall as [Hpn _].
      destruct (getField param "name") as [key|] eqn:E1.
      2:{ destruct param; cbn in E1, Hpn; try discriminate;
          destruct (lookup _ _); discriminate. }
      destruct (getField param "schema") as [schema|] eqn:E2.
      2:{ destruct param; cbn in E2, Hpn; try discriminate;
          destruct (lookup _ _); discriminate. }
      destruct schema; try discriminate Hs; reflexivity. }
    unfold bind.
    destruct (mapM_throw_at F (queryEntry F) (filter inQuery pre) param
                            (filter inQuery post) TypeError st Hparam)
      as [H1 _].
    destruct (mapM _ _ st) as [[entries s]|e] eqn:E; [discriminate|].
    apply mapM_first_failure in E
      as (pre' & x & post' & ys & s1 & _ & _ & Hx).
    now rewrite (queryEntry_errors F x s1 e Hx).
Qed.

Lemma X6_query_parameter_edges_witness :
  queryParams demoFaker (VObj [("summary", VStr "List pets")]) 0%nat
    = Ok (VArr [], 0%nat) /\
  queryParams demoFaker (VObj [("parameters", VStr "limit")]) 0%nat
    = Throw TypeError /\
  queryParams demoFaker
              (VObj [("parameters",
                      VArr [DemoQuery.limit;
                            VObj [("in", VStr "query");
                                  ("name", VStr "offset")]])]) 0%nat
    = Throw TypeError.
Proof.
  split; [|split].
  - apply (proj1 (X6_query_parameter_edges demoFaker _ 0%nat)); reflexivity.
  - apply (proj1 (proj2 (X6_query_parameter_edges demoFaker
                           (VObj [("parameters", VStr "limit")]) 0%nat))
             (VStr "limit")); [reflexivity|reflexivity|discriminate].
  - apply (proj2 (proj2 (X6_query_parameter_edges demoFaker
                           (VObj [("parameters",
                                   VArr [DemoQuery.limit;
                                         VObj [("in", VStr "query");
                                               ("name", VStr "offset")]])])
                           0%nat))
             [DemoQuery.limit]
             (VObj [("in", VStr "query"); ("name", VStr "offset")]) []);
      reflexivity.
Defined.

(** ** Path variables: a bracket left open *)

Lemma lazyToClose_unclosed s :
  Str.includes "}" s = false -> Str.lazyToClose s = None.
Proof.
  induction s as [|a s IH]; [reflexivity|].
  cbn [Str.includes Str.lazyToClose]. intros H.
  apply orb_false_elim in H as [Ha H]. rewrite Ha, (IH H).
  now destruct (Str.isLineTerminator a).
Qed.

Lemma matchesFrom_unclosed n : forall s,
  Str.includes "}" s = false -> Str.matchesFrom n s = [].
Proof.
  induction n as [|n IH]; intros s H; [reflexivity|].
  destruct s as [|a s]; [reflexivity|].
  cbn [Str.includes] in H. apply orb_false_elim in H as [_ H].
  cbn [Str.matchesFrom]. rewrite (lazyToClose_unclosed s H), (IH s H).
  now destruct (Ascii.eqb a "{").
Qed.

(** X8.  A path with an opening bracket and no closing one has no
    match of the pattern: [match] returns [null], the [map] on it throws
    a [TypeError], and no item is generated for an operation on that
    path. *)
Theorem X8_unclosed_bracket (path : string) :
  Str.includes "{" path = true ->
  Str.includes "}" path = false ->
  pathVariables path = Throw TypeError /\
  forall F swagger method details st,
    isOk (requestItem F swagger path method details st) = false.
Proof.
  intros Ho Hc.
  assert (Hv : pathVariables path = Throw TypeError).
  { unfold pathVariables, Str.matchBraces. rewrite Ho.
    now rewrite (matchesFrom_unclosed _ path Hc). }
  split; [exact Hv|].
  intros F swagger method details st. unfold requestItem, bind, lift.
  destruct (requestBody F swagger details st) as [[body s1]|]; [|reflexivity].
  destruct (queryParams F details s1) as [[query s2]|]; [|reflexivity].
  destruct (getField details "summary"); [|reflexivity].
  now rewrite Hv.
Qed.

Lemma X8_unclosed_bracket_witness :
  pathVariables "/pets/{petId" = Throw TypeError /\
  isOk (requestItem demoFaker Demo.petSpec "/pets/{petId" "get"
                    (VObj []) 0%nat) = false.
Proof.
  destruct (X8_unclosed_bracket "/pets/{petId" eq_refl eq_refl) as [H1 H2].
  split; [exact H1|apply H2].
Defined.

(** ** The items of a collection *)

(** X9.  A generated collection has one item per operation of the
    Spec, in the order the paths and their methods are enumerated; each
    item carries the upper-cased method and the raw URL of its own
    operation. *)
Theorem X9_items_follow_operations (F : Faker) (swagger : Swagger)
        (st st' : rng F) (doc : value) :
  createCollection F swagger st = Ok (doc, st') ->
  exists items,
    getPath doc ["collection"; "item"] = VArr items /\
    List.length items = List.length (operations swagger) /\
    Forall2 itemOfOperation (operations swagger) items.
Proof.
  rewrite createCollection_operations.
  destruct (mapM _ _ st) as [[items s]|] eqn:E; [|discriminate].
  intros [= <- _]. exists items. split; [reflexivity|].
  apply mapM_Forall2 in E.
  assert (HF : Forall2 itemOfOperation (operations swagger) items).
  { eapply Forall2_impl; [|exact E].
    intros op item (s1 & s2 & H). apply requestItem_inv in H
      as (body & s3 & query & summary & variable & _ & _ & _ & _ & ->).
    split; reflexivity. }
  split; [|exact HF]. symmetry. eapply Forall2_length. exact HF.
Qed.

Lemma X9_items_follow_operations_witness :
  exists items,
    getPath (collectionDoc
               [itemDoc (VStr "/pets") "get" "/pets" (VArr []) (VArr [])
                        VUndefined;
                itemDoc (VStr "/pets") "post" "/pets" (VArr []) (VArr [])
                        VUndefined;
                itemDoc (VStr "/owners") "delete" "/owners" (VArr [])
                        (VArr []) VUndefined])
            ["collection"; "item"] = VArr items /\
    List.length items = List.length (operations twoPathSpec) /\
    Forall2 itemOfOperation (operations twoPathSpec) items.
Proof.
  exact (X9_items_follow_operations demoFaker twoPathSpec 0%nat 0%nat _
                                     eq_refl).
Defined.

(** X10.  Collection generation has no recovery and skips nothing: it
    throws exactly when the item of some operation throws, the
    operations before it having generated, and the error is the one of
    that operation. *)
Theorem X10_first_failing_operation (F : Faker) (swagger : Swagger)
        (st : rng F) (e : JsError) :
  createCollection F swagger st = Throw e <->
  exists pre op post items s,
    operations swagger = (pre ++ op :: post)%list /\
    mapM (operationItem F swagger) pre st = Ok (items, s) /\
    operationItem F swagger op s = Throw e.
Proof.
  rewrite createCollection_operations. split.
  - destruct (mapM _ _ st) as [[items s]|e0] eqn:E; [discriminate|].
    intros [= <-]. exact (mapM_first_failure F _ _ _ _ E).
  - intros (pre & op & post & items & s & -> & Hpre & Hop).
    rewrite mapM_app, Hpre. cbn [mapM]. unfold bind at 1. now rewrite Hop.
Qed.

Lemma X10_first_failing_operation_witness :
  createCollection demoFaker Demo.danglingSpec 0%nat
    = Throw (SchemaError "x").
Proof.
  apply (proj2 (X10_first_failing_operation demoFaker Demo.danglingSpec
                  0%nat (SchemaError "x"))).
  exists [],
    {| opPath := "/a"; opMethod := "post";
       opDetails := Demo.withBody "#/components/schemas/Untyped" |},
    [ {| opPath := "/b"; opMethod := "post";
         opDetails := Demo.withBody "#/components/schemas/Missing" |} ],
    [], 0%nat.
  repeat split.
Defined.

(** ** Looking a resource up *)

Lemma findByName_find items name :
  forallb (fun i => negb (isNullish i)) items = true ->
  findByName items name
    = Ok (match find (named name) items with
          | Some item => item
          | None => VUndefined
          end).
Proof.
  induction items as [|item items IH]; [reflexivity|].
  cbn [forallb findByName find]. intros H. apply andb_prop in H as [Hi H].
  unfold named at 1. unfold fieldOf.
  destruct (getField item "name") as [n|] eqn:E.
  - destruct (isStr n name); [reflexivity|now apply IH].
  - destruct item; cbn in E, Hi; try discriminate;
      destruct (lookup _ _); discriminate.
Qed.

(** X14.  [checkResourceExists] answers with the [uid] of the first
    item of the list that bears the name ([undefined] when that item has
    no [uid]) and with [null] when no item bears it.  A failed request
    fails the call with the same error, and so does, with a
    [TypeError], a response that holds no list under the name of the
    resource. *)
Theorem X14_checkResourceExists (network : Request -> Result props)
        (resource name : string) :
  (forall e,
      network {| reqMethod := "get";
                 reqUrl := postmanBaseUrl ++ "/" ++ resource;
                 reqHeaders := [("X-Api-Key", apiKey)];
                 reqData := VUndefined |} = Throw e ->
      checkResourceExists network resource name = Throw e) /\
  (forall data,
      network {| reqMethod := "get";
                 reqUrl := postmanBaseUrl ++ "/" ++ resource;
                 reqHeaders := [("X-Api-Key", apiKey)];
                 reqData := VUndefined |} = Ok data ->
      (lookup resource data = None ->
       checkResourceExists network resource name = Throw TypeError) /\
      (forall items,
          lookup resource data = Some (VArr items) ->
          forallb (fun i => negb (isNullish i)) items = true ->
          checkResourceExists network resource name
            = Ok (match find (named name) items with
                  | Some item => fieldOf item "uid"
                  | None => VNull
                  end))).
Proof.
  split.
  - intros e H. unfold checkResourceExists. now rewrite H.
  - intros data H. split.
    + intros Hnone. unfold checkResourceExists, getComputed.
      rewrite H, Hnone.
      destruct (existsb _ _); [reflexivity|].
      now destruct (String.eqb resource "__proto__").
    + intros items Hl Hall. unfold checkResourceExists, getComputed.
      rewrite H, Hl, (findByName_find items name Hall).
      destruct (find (named name) items) as [item|] eqn:Ef; [|reflexivity].
      apply find_some in Ef as [_ Hn]. unfold named, fieldOf in Hn.
      destruct item as [| |b|z|s|l|l|]; try discriminate Hn.
      cbn [truthy]. unfold fieldOf. cbn [getField].
      now destruct (lookup "uid" l).
Qed.

Lemma X14_checkResourceExists_witness :
  checkResourceExists demoNetwork "environments" "api.example.com"
    = Ok (VStr "u-2") /\
  checkResourceExists demoNetwork "environments" "production" = Ok VNull /\
  checkResourceExists demoNetwork "collections" "Generated Collection"
    = Throw TypeError.
Proof.
  split; [|split].
  - apply (proj2 (proj2 (X14_checkResourceExists demoNetwork "environments"
                           "api.example.com") _ eq_refl) _ eq_refl).
    reflexivity.
  - apply (proj2 (proj2 (X14_checkResourceExists demoNetwork "environments"
                           "production") _ eq_refl) _ eq_refl).
    reflexivity.
  - apply (proj1 (proj2 (X14_checkResourceExists demoNetwork "collections"
                           "Generated Collection") _ eq_refl)).
    reflexivity.
Defined.

(** ** Files *)

Lemma readFile_setFile_other fs name text other :
  other <> name -> readFile (setFile fs name text) other = readFile fs other.
Proof.
  intros Hne. induction fs as [|[n t] fs IH]; cbn [setFile readFile].
  - destruct (String.eqb_spec other name); [contradiction|reflexivity].
  - destruct (String.eqb_spec name n) as [->|Hn]; cbn [readFile].
    + destruct (String.eqb_spec other n); [contradiction|reflexivity].
    + now rewrite IH.
Qed.

(** ** A run of [main] on a disk that takes every write *)

Lemma append_cancel_r (a b c : string) : a ++ c = b ++ c -> a = b.
Proof.
  revert b. induction a as [|x a IH]; intros b H.
  - destruct b as [|y b]; [reflexivity|].
    apply (f_equal String.length) in H. cbn in H.
    rewrite length_append in H. lia.
  - destruct b as [|y b].
    + apply (f_equal String.length) in H. cbn in H.
      rewrite length_append in H. lia.
    + cbn [append] in H. injection H as -> H. f_equal. now apply IH.
Qed.

Lemma envName_injective h h' : envName h = envName h' -> h = h'.
Proof.
  unfold envName. cbn [append]. intros H.
  injection H as H. now apply append_cancel_r in H.
Qed.

Lemma envName_not_collection h : "collection_generated.json" <> envName h.
Proof. unfold envName. cbn [append]. discriminate. Qed.

(** With no rejection left unhandled the process ends when its writes
    have ended: the disk is as the writes leave it. *)
Lemma disk_quiet w name :
  unhandled w = [] -> disk w name = readFile (files w) name.
Proof.
  intros H. unfold disk. rewrite H. now destruct (readFile (files w) name).
Qed.

Lemma text_readsBack doc text :
  storable doc = true ->
  JSON.stringify2 doc = VStr text ->
  JSON.parse text = Ok (dropUndefined doc).
Proof.
  intros Hst Et. unfold JSON.stringify2 in Et.
  destruct (JSON.serialize "  " "" doc) as [t|] eqn:E; [|discriminate].
  injection Et as ->. now apply (parse_serialize "  " doc text).
Qed.

(** A dropped save on a disk that takes the write. *)
Lemma notAwaited_save_quiet name l w :
  writeError w name = None ->
  exists text,
    JSON.stringify2 (VObj l) = VStr text /\
    notAwaited (saveToFile name (VObj l) w)
      = {| swaggerFile := swaggerFile w; writeError := writeError w;
           files := setFile (files w) name
                            (if busy name w then Indeterminate else Text text);
           inFlight := name :: inFlight w;
           stdout := stdout w; stderr := stderr w;
           unhandled := unhandled w |}.
Proof.
  intros Hq. destruct (saveToFile_object name l w) as (text & E & ->).
  exists text. split; [exact E|]. unfold writeFile. rewrite Hq. reflexivity.
Qed.

Lemma busy_started n name w fs :
  busy n {| swaggerFile := swaggerFile w; writeError := writeError w;
            files := fs; inFlight := name :: inFlight w;
            stdout := stdout w; stderr := stderr w;
            unhandled := unhandled w |}
    = String.eqb n name || busy n w.
Proof. reflexivity. Qed.


Section QuietRun.

Variable F : Faker.
Variable URL_host : string -> option string.

Lemma serversOf_cons host server l :
  serversOf URL_host host (server :: l)
    = match URL_host (url server) with
      | Some h => if String.eqb h host
                  then server :: serversOf URL_host host l
                  else serversOf URL_host host l
      | None => serversOf URL_host host l
      end.
Proof.
  unfold serversOf, hostOf. cbn [filter].
  destruct (URL_host (url server)) as [h|]; [|reflexivity].
  now destruct (String.eqb h host).
Qed.

Lemma serversOf_none host l server h :
  serversOf URL_host host l = [] ->
  In server l -> hostOf URL_host server = Some h ->
  envName host <> envName h.
Proof.
  intros Hnil Hin Hh Heq. apply envName_injective in Heq. subst h.
  assert (Hf : In server (serversOf URL_host host l)).
  { unfold serversOf. apply filter_In. split; [exact Hin|].
    rewrite Hh. apply String.eqb_refl. }
  rewrite Hnil in Hf. destruct Hf.
Qed.

Lemma forServers_frame l : forall w,
  (forall n, writeError w n = None) ->
  exists w' r,
    forServers URL_host l w = (w', r) /\
    r = (if forallb (parses URL_host) l then Ok tt else Throw TypeError) /\
    stderr w' = stderr w /\ unhandled w' = unhandled w /\
    (forall n, writeError w' n = None) /\
    (forall n, (forall host, n <> envName host) ->
               readFile (files w') n = readFile (files w) n /\
               busy n w' = busy n w) /\
    exists shown,
      stdout w' = (stdout w ++ shown)%list /\
      forallb isInspected shown = true.
Proof.
  induction l as [|server l IH]; intros w Hq.
  - exists w, (Ok tt). repeat split; auto.
    exists []. now rewrite app_nil_r.
  - cbn [forServers forallb]. unfold createEnvironment, newURL_host, parses at 1.
    destruct (URL_host (url server)) as [host|] eqn:Eh.
    2:{ exists w, (Throw TypeError). repeat split; auto.
        exists []. now rewrite app_nil_r. }
    set (w1 := console_log _ w).
    match goal with
    | |- context [notAwaited (saveToFile ?n (VObj ?d) w1)] =>
        destruct (notAwaited_save_quiet n d w1 (Hq n)) as (text & _ & ->)
    end.
    set (w2 := {| swaggerFile := _ |}).
    destruct (IH w2 Hq) as (w' & r & E & Hr & H1 & H2 & H3 & H4 & shown & H5 & H6).
    exists w', r. rewrite E. cbn [andb]. repeat split; auto.
    + destruct (H4 n H) as [-> _]. cbn [files w2 w1 console_log].
      apply readFile_setFile_other. apply H.
    + destruct (H4 n H) as [_ ->]. unfold w2. rewrite busy_started.
      fold (envName host).
      destruct (String.eqb_spec n (envName host)) as [Heq|_];
        [now apply H in Heq|reflexivity].
    + eexists (_ :: shown). rewrite H5. cbn [stdout w2 w1 console_log].
      rewrite <- app_assoc. split; [reflexivity|exact H6].
Qed.

(** The environment files after the loop over the servers: a file no
    server writes to is as before; a file one server writes to, and no
    write was at work on, holds the text of its document; a file two
    servers write to holds nothing determined. *)
Lemma forServers_files l : forall w,
  (forall n, writeError w n = None) ->
  forallb (parses URL_host) l = true ->
  (forall n,
      (forall server host,
          In server l -> hostOf URL_host server = Some host ->
          n <> envName host) ->
      readFile (files (fst (forServers URL_host l w))) n
        = readFile (files w) n) /\
  (forall server host,
      serversOf URL_host host l = [server] ->
      busy (envName host) w = false ->
      exists text,
        JSON.stringify2 (environmentDoc host (url server)) = VStr text /\
        readFile (files (fst (forServers URL_host l w))) (envName host)
          = Some (Text text)) /\
  (forall host,
      serversOf URL_host host l <> [] ->
      2 <= List.length (serversOf URL_host host l)
      \/ busy (envName host) w = true ->
      readFile (files (fst (forServers URL_host l w))) (envName host)
        = Some Indeterminate).
Proof.
  induction l as [|server l IH]; intros w Hq Hall.
  - split; [reflexivity|]. split; [discriminate|]. intros host H. now destruct H.
  - cbn [forallb] in Hall. apply andb_prop in Hall as [Hs Hall].
    cbn [forServers]. unfold createEnvironment, newURL_host.
    unfold parses in Hs.
    destruct (URL_host (url server)) as [h|] eqn:Eh; [|discriminate].
    set (w1 := console_log _ w).
    match goal with
    | |- context [notAwaited (saveToFile ?n (VObj ?d) w1)] =>
        destruct (notAwaited_save_quiet n d w1 (Hq n)) as (text & Et & Ew);
        rewrite Ew
    end.
    fold (envName h) in *.
    change (VObj _) with (environmentDoc h (url server)) in Et.
    set (w2 := {| swaggerFile := _ |}) in *.
    destruct (IH w2 Hq Hall) as (IHframe & IHone & IHtwo).
    assert (Hfile : readFile (files w2) (envName h)
                    = Some (if busy (envName h) w then Indeterminate
                            else Text text)).
    { unfold w2. cbn [files]. now rewrite readFile_setFile. }
    assert (Hbusy : forall n, busy n w2 = String.eqb n (envName h) || busy n w).
    { intros n. unfold w2. now rewrite busy_started. }
    split; [|split].
    + intros n Hn. rewrite IHframe.
      * cbn [files w2 w1 console_log]. apply readFile_setFile_other.
        apply (Hn server h); [now left|exact Eh].
      * intros s h' Hs' Hh'. apply (Hn s h'); [now right|exact Hh'].
    + intros server0 host Hone Hidle. rewrite serversOf_cons, Eh in Hone.
      destruct (String.eqb_spec h host) as [->|Hne].
      * injection Hone as <- Hnil. exists text. split; [exact Et|].
        rewrite IHframe, Hfile, Hidle; [reflexivity|].
        intros s h' Hs' Hh'. exact (serversOf_none host l s h' Hnil Hs' Hh').
      * apply (IHone server0 host Hone). rewrite Hbusy, Hidle, orb_false_r.
        apply String.eqb_neq. intros Heq. apply envName_injective in Heq.
        now apply Hne.
    + intros host Hsome Hrace. rewrite serversOf_cons, Eh in Hsome, Hrace.
      destruct (String.eqb_spec h host) as [->|Hne].
      * destruct (serversOf URL_host host l) as [|s rest] eqn:Erest.
        -- destruct Hrace as [Hlen|Hb]; [cbn in Hlen; lia|].
           rewrite IHframe, Hfile, Hb; [reflexivity|].
           intros s h' Hs' Hh'. exact (serversOf_none host l s h' Erest Hs' Hh').
        -- apply IHtwo; [rewrite Erest; discriminate|].
           right. rewrite Hbusy, String.eqb_refl. reflexivity.
      * apply IHtwo; [exact Hsome|].
        destruct Hrace as [Hlen|Hb]; [now left|right].
        rewrite Hbusy, Hb. apply orb_true_r.
Qed.

End QuietRun.

Section RunOutcomes.

Variable F : Faker.
Variable URL_host : string -> option string.


Lemma fresh_quiet spec : forall n, writeError (freshWorld spec quietDisk) n = None.
Proof. reflexivity. Qed.

Lemma inspected_not_completion shown :
  forallb isInspected shown = true -> ~ In completionLine shown.
Proof.
  intros H Hin. rewrite forallb_forall in H. now apply H in Hin.
Qed.

(** The environment file of a server that shares its host with no other
    reads back as the environment document of the server. *)
Lemma environment_readsBack host server text w :
  unhandled w = [] ->
  JSON.stringify2 (environmentDoc host (url server)) = VStr text ->
  readFile (files w) (envName host) = Some (Text text) ->
  readJson (envName host) w
    = Some (Ok (environmentDoc host (url server))).
Proof.
  intros Hu Et Hf. unfold readJson. rewrite (disk_quiet _ _ Hu), Hf.
  apply f_equal.
  exact (text_readsBack (environmentDoc host (url server)) text eq_refl Et).
Qed.

(** X12.  A run that fails.  When the Spec does not load, the error is
    printed on the error channel and nothing else happens.  On a disk
    that takes every write: when a server URL does not parse the run
    ends with the [TypeError] on the error channel, and when collection
    generation throws it ends with that error there; either way the
    completion line is not printed and no collection file is written,
    and in the second case the environment file of every server that
    shares its host with no other server is on disk all the same. *)
Theorem X12_failed_run (seed : rng F) :
  (forall w e,
      swaggerFile w = Throw e ->
      run F URL_host seed w = console_error e w) /\
  (forall swagger,
      serversParse URL_host swagger = false ->
      let w := run F URL_host seed (freshWorld (Ok swagger) quietDisk) in
      stderr w = [TypeError] /\
      ~ In completionLine (stdout w) /\
      disk w "collection_generated.json" = None) /\
  (forall swagger e,
      serversParse URL_host swagger = true ->
      createCollection F swagger seed = Throw e ->
      let w := run F URL_host seed (freshWorld (Ok swagger) quietDisk) in
      stderr w = [e] /\
      ~ In completionLine (stdout w) /\
      disk w "collection_generated.json" = None /\
      forall server host,
        serversOf URL_host host (servers swagger) = [server] ->
        readJson (envName host) w
          = Some (Ok (environmentDoc host (url server)))).
Proof.
  split; [|split].
  - intros w e H. unfold run, main. now rewrite H.
  - intros swagger Hs w. subst w. unfold run, main.
    cbn [swaggerFile freshWorld].
    destruct (forServers_frame URL_host (servers swagger)
                (freshWorld (Ok swagger) quietDisk)
                (fresh_quiet (Ok swagger)))
      as (w1 & r & E & Hr & H1 & H2 & _ & H4 & shown & H5 & H6).
    unfold serversParse in Hs. fold (parses URL_host) in Hs.
    rewrite Hs in Hr. subst r. rewrite E.
    rewrite disk_quiet by (cbn [unhandled console_error]; now rewrite H2).
    cbn [stderr files stdout console_error].
    rewrite H1, H5, (proj1 (H4 _ envName_not_collection)). cbn.
    repeat split. now apply inspected_not_completion.
  - intros swagger e Hs Hc w. subst w. unfold run, main.
    cbn [swaggerFile freshWorld].
    destruct (forServers_frame URL_host (servers swagger)
                (freshWorld (Ok swagger) quietDisk)
                (fresh_quiet (Ok swagger)))
      as (w1 & r & E & Hr & H1 & H2 & _ & H4 & shown & H5 & H6).
    unfold serversParse in Hs. fold (parses URL_host) in Hs.
    rewrite Hs in Hr. subst r.
    destruct (forServers_files URL_host (servers swagger)
                (freshWorld (Ok swagger) quietDisk)
                (fresh_quiet (Ok swagger)) Hs) as (_ & Hone & _).
    rewrite E in Hone |- *. rewrite Hc. cbn [fst] in Hone.
    assert (Hu : unhandled (console_error e w1) = []).
    { cbn [unhandled console_error]. now rewrite H2. }
    rewrite (disk_quiet _ _ Hu).
    cbn [stderr files stdout console_error].
    rewrite H1, H5, (proj1 (H4 _ envName_not_collection)). cbn.
    repeat split; [now apply inspected_not_completion|].
    intros server host Hsole.
    destruct (Hone server host Hsole eq_refl) as (text & Et & Hf).
    exact (environment_readsBack host server text _ Hu Et Hf).
Qed.


End RunOutcomes.

Lemma X12_failed_run_witness :
  (stderr (run demoFaker PlainUrl.host 0%nat
               (freshWorld (Ok brokenServers) quietDisk)) = [TypeError] /\
   disk (run demoFaker PlainUrl.host 0%nat
             (freshWorld (Ok brokenServers) quietDisk))
        "collection_generated.json" = None) /\
  (stderr (run demoFaker PlainUrl.host 0%nat
               (freshWorld (Ok failingSpec) quietDisk)) = [TypeError] /\
   readJson (envName "api.example.com")
            (run demoFaker PlainUrl.host 0%nat
                 (freshWorld (Ok failingSpec) quietDisk))
     = Some (Ok (environmentDoc "api.example.com"
                                "https://api.example.com"))).
Proof.
  destruct (X12_failed_run demoFaker PlainUrl.host 0%nat) as (_ & Hb & Hc).
  split.
  - destruct (Hb brokenServers eq_refl) as (H1 & _ & H3).
    split; [exact H1|exact H3].
  - destruct (Hc failingSpec TypeError eq_refl eq_refl) as (H1 & _ & _ & H4).
    split; [exact H1|].
    exact (H4 {| url := "https://api.example.com" |} "api.example.com"
              eq_refl).
Defined.


(** ** Entries of a path that are no operations *)

(** X16.  Every entry of a path object becomes a request item, whether
    or not its key is an HTTP method and its value an operation: a string,
    a number, a boolean or an array there (the [summary] or the
    [parameters] of the path) gives an item named after the path, with the
    key upper-cased for method, no query and no body, and draws nothing
    from faker; a [null] there makes the generation throw a
    [TypeError]. *)
Theorem X16_entries_that_are_no_operations (F : Faker) (swagger : Swagger)
        (path key : string) (details variable : value) (st : rng F) :
  pathVariables path = Ok variable ->
  (plainEntry details = true ->
   requestItem F swagger path key details st
     = Ok (itemDoc (VStr path) key path (VArr []) variable VUndefined, st)) /\
  (isNullish details = true ->
   requestItem F swagger path key details st = Throw TypeError).
Proof.
  intros Hv. split; intros H.
  - unfold requestItem, bind, lift, ret, requestBody, queryParams, bind, lift.
    destruct details; try discriminate H; cbn; now rewrite Hv.
  - apply requestItem_body_throws.
    destruct details; try discriminate H; reflexivity.
Qed.

Lemma X16_entries_that_are_no_operations_witness :
  requestItem demoFaker Demo.petSpec "/pets" "parameters"
              (VArr [DemoQuery.limit]) 0%nat
    = Ok (itemDoc (VStr "/pets") "parameters" "/pets" (VArr []) (VArr [])
                  VUndefined, 0%nat) /\
  requestItem demoFaker Demo.petSpec "/pets" "get" VNull 0%nat
    = Throw TypeError.
Proof.
  destruct (X16_entries_that_are_no_operations demoFaker Demo.petSpec
              "/pets" "parameters" (VArr [DemoQuery.limit]) (VArr [])
              0%nat eq_refl) as [H1 _].
  destruct (X16_entries_that_are_no_operations demoFaker Demo.petSpec
              "/pets" "get" VNull (VArr []) 0%nat eq_refl) as [_ H2].
  split; [apply H1|apply H2]; reflexivity.
Defined.

(** ** The words drawn for the query *)

Section Draws.

Variable F : Faker.

Lemma queryEntry_state param st entry st' :
  queryEntry F param st = Ok (entry, st') ->
  st' = snd (random_word F st).
Proof.
  unfold queryEntry, bind, lift, ret, draw.
  destruct (getField param "name"); [|discriminate].
  destruct (getField param "schema"); [|discriminate].
  destruct (getField v0 "type"); [|discriminate].
  destruct (isStr v1 "array"); destruct (random_word F st) as [w s];
    (destruct (getField param "description"); [|discriminate]);
    now intros [= _ <-].
Qed.

Lemma mapM_queryEntry_state qs : forall st entries st',
  mapM (queryEntry F) qs st = Ok (entries, st') ->
  st' = afterWords F (List.length qs) st.
Proof.
  induction qs as [|q qs IH]; intros st entries st'.
  - now intros [= _ <-].
  - cbn [mapM]. unfold bind at 1.
    destruct (queryEntry F q st) as [[e s]|] eqn:E; [|discriminate].
    apply queryEntry_state in E. subst s.
    unfold bind, ret.
    destruct (mapM (queryEntry F) qs _) as [[es s1]|] eqn:E1; [|discriminate].
    intros [= _ <-]. cbn [List.length afterWords]. now apply IH in E1.
Qed.

End Draws.

(** X7.  Building the query draws one word from faker for each
    parameter located in the query, in order, and none for the other
    parameters: the generator ends in the state reached after as many
    words as there are query parameters. *)
Theorem X7_one_word_per_query_parameter (F : Faker) (details : value)
        (params : list value) (st st' : rng F) (query : value) :
  getField details "parameters" = Ok (VArr params) ->
  queryParams F details st = Ok (query, st') ->
  st' = afterWords F (List.length (filter inQuery params)) st.
Proof.
  intros Hp. unfold queryParams, bind at 1, lift. rewrite Hp.
  cbn [isNullish]. unfold bind at 1.
  destruct (filterM F (isQuery F) params st) as [[qs s]|] eqn:E;
    [|discriminate].
  apply filterM_isQuery in E as [-> ->].
  unfold bind, ret.
  destruct (mapM _ _ st) as [[entries s]|] eqn:E; [|discriminate].
  intros [= _ <-]. now apply mapM_queryEntry_state in E.
Qed.

Lemma X7_one_word_per_query_parameter_witness :
  2%nat = afterWords demoFaker
            (List.length (filter inQuery
                            [DemoQuery.limit; DemoQuery.petId;
                             DemoQuery.tags])) 0%nat.
Proof.
  exact (X7_one_word_per_query_parameter demoFaker DemoQuery.details
           [DemoQuery.limit; DemoQuery.petId; DemoQuery.tags]
           0%nat 2%nat _ eq_refl eq_refl).
Defined.

(** ** Splitting at the slashes *)

Lemma split_nonempty c s : Str.split c s <> [].
Proof.
  destruct s as [|a s]; cbn [Str.split]; [discriminate|].
  destruct (Ascii.eqb a c); [discriminate|].
  destruct (Str.split c s); discriminate.
Qed.

Lemma split_no_separator c s :
  Forall (fun seg => Str.includes c seg = false) (Str.split c s).
Proof.
  induction s as [|a s IH]; cbn [Str.split]; [now repeat constructor|].
  destruct (Ascii.eqb a c) eqn:E; [now constructor|].
  destruct (Str.split c s) as [|seg segs].
  - repeat constructor. cbn [Str.includes]. now rewrite E.
  - inversion IH as [|? ? Hseg Hsegs]; subst. constructor; [|exact Hsegs].
    cbn [Str.includes]. now rewrite E, Hseg.
Qed.

(** Joining the pieces with the separator gives the string back. *)
Lemma concat_split c s :
  String.concat (String c "") (Str.split c s) = s.
Proof.
  induction s as [|a s IH]; [reflexivity|].
  cbn [Str.split]. pose proof (split_nonempty c s) as Hn.
  destruct (Ascii.eqb_spec a c) as [->|Hne].
  - destruct (Str.split c s) as [|seg segs]; [congruence|].
    cbn [String.concat append] in *. now rewrite IH.
  - destruct (Str.split c s) as [|seg segs]; [congruence|].
    destruct segs as [|seg2 segs]; cbn [String.concat append] in *;
      now rewrite IH.
Qed.

(** X15.  The path segments of a request item are the pieces of the
    path between its slashes, the empty ones left out: the path is its
    pieces joined by slashes, no piece holds a slash, and the segments
    are the pieces that are not empty, in order. *)
Theorem X15_path_segments (F : Faker) (swagger : Swagger)
        (path method : string) (details : value) (st st' : rng F)
        (item : value) :
  requestItem F swagger path method details st = Ok (item, st') ->
  exists pieces segments,
    path = String.concat "/" pieces /\
    Forall (fun s => Str.includes "/" s = false) pieces /\
    segments = filter (fun s => negb (String.eqb s "")) pieces /\
    getPath item ["request"; "url"; "path"] = VArr (map VStr segments) /\
    Forall (fun s => s <> "" /\ Str.includes "/" s = false) segments.
Proof.
  intros H. apply requestItem_inv in H
    as (body & s1 & query & summary & variable & _ & _ & _ & _ & ->).
  exists (Str.split "/" path), (Str.filterBoolean (Str.split "/" path)).
  split; [symmetry; apply concat_split|].
  split; [apply split_no_separator|].
  split; [reflexivity|]. split; [reflexivity|].
  apply Forall_forall. intros s Hin. split.
  - pose proof (filterBoolean_nonempty (Str.split "/" path)) as Hne.
    rewrite Forall_forall in Hne. now apply Hne.
  - apply filter_In in Hin as [Hin _].
    pose proof (split_no_separator "/" path) as Hs.
    rewrite Forall_forall in Hs. now apply Hs.
Qed.

Lemma X15_path_segments_witness :
  exists pieces segments,
    "/owners//pets/" = String.concat "/" pieces /\
    Forall (fun s => Str.includes "/" s = false) pieces /\
    segments = filter (fun s => negb (String.eqb s "")) pieces /\
    getPath (itemDoc (VStr "/owners//pets/") "get" "/owners//pets/"
                     (VArr []) (VArr []) VUndefined)
            ["request"; "url"; "path"] = VArr (map VStr segments) /\
    Forall (fun s => s <> "" /\ Str.includes "/" s = false) segments.
Proof.
  exact (X15_path_segments demoFaker Demo.petSpec "/owners//pets/" "get"
                           (VObj []) 0%nat 0%nat _ eq_refl).
Defined.

Lemma pop_cons x y l : Str.pop (x :: y :: l) = Str.pop (y :: l).
Proof. reflexivity. Qed.

(** X17.  A reference is resolved by the text after its last slash, the
    whole reference when it has none: the schema key holds no slash and
    the reference is the key behind a prefix that is empty or ends with a
    slash. *)
Theorem X17_schema_key_is_last_segment (ref : string) :
  exists prefix,
    ref = prefix ++ schemaKey (Str.split "/" ref) /\
    Str.includes "/" (schemaKey (Str.split "/" ref)) = false /\
    (prefix = "" \/ exists p, prefix = p ++ "/").
Proof.
  assert (H : exists prefix,
             ref = prefix ++ schemaKey (Str.split "/" ref) /\
             Str.includes "/" (schemaKey (Str.split "/" ref)) = false /\
             match Str.split "/" ref with
             | [_] => prefix = ""
             | _ => exists p, prefix = p ++ "/"
             end).
  { induction ref as [|a s IH]; [exists ""; now repeat split|].
    destruct IH as (prefix & Hs & Hk & Hp).
    cbn [Str.split]. destruct (Ascii.eqb_spec a "/") as [->|Hne].
    - pose proof (split_nonempty "/" s) as Hn.
      destruct (Str.split "/" s) as [|seg segs] eqn:E; [congruence|].
      unfold schemaKey in *. rewrite pop_cons.
      exists (String "/" prefix). split; [cbn [append]; now f_equal|].
      split; [exact Hk|].
      destruct segs.
      + subst prefix. now exists "".
      + destruct Hp as [p ->]. now exists (String "/" p).
    - destruct (Str.split "/" s) as [|seg segs] eqn:E.
      + now destruct (split_nonempty "/" s).
      + destruct segs as [|seg2 segs].
        * subst prefix. unfold schemaKey in *. cbn [Str.pop] in *.
          exists "". cbn [append] in *. split; [now f_equal|].
          split; [|reflexivity]. cbn [Str.includes].
          destruct (Ascii.eqb_spec a "/"); [contradiction|exact Hk].
        * unfold schemaKey in *. rewrite pop_cons in *.
          exists (String a prefix). split; [cbn [append]; now f_equal|].
          split; [exact Hk|]. destruct Hp as [p ->].
          now exists (String a p). }
  destruct H as (prefix & H1 & H2 & H3). exists prefix.
  split; [exact H1|]. split; [exact H2|].
  destruct (Str.split "/" ref) as [|x [|y l]]; auto.
Qed.

(** X18.  Whatever the indentation, the text [JSON.stringify] writes
    for a storable value is read by [JSON.parse] as that value without
    its undefined properties: the indented text of [saveToFile] and the
    compact text of the raw body hold the same value. *)
Theorem X18_indentation_is_immaterial (v : value) (compact indented : string) :
  storable v = true ->
  JSON.stringify v = VStr compact ->
  JSON.stringify2 v = VStr indented ->
  JSON.parse compact = Ok (dropUndefined v) /\
  JSON.parse indented = JSON.parse compact.
Proof.
  intros Hst Hc Hi. unfold JSON.stringify in Hc. unfold JSON.stringify2 in Hi.
  destruct (JSON.serialize "" "" v) as [c|] eqn:Ec; [|discriminate].
  destruct (JSON.serialize "  " "" v) as [i|] eqn:Ei; [|discriminate].
  injection Hc as ->. injection Hi as ->.
  rewrite (parse_serialize "" v compact eq_refl Hst Ec).
  rewrite (parse_serialize "  " v indented eq_refl Hst Ei). now split.
Qed.

Lemma X18_indentation_is_immaterial_witness :
  exists compact indented,
    JSON.stringify Demo.richData = VStr compact /\
    JSON.stringify2 Demo.richData = VStr indented /\
    JSON.parse compact = Ok (dropUndefined Demo.richData) /\
    JSON.parse indented = JSON.parse compact.
Proof.
  eexists. eexists. split; [reflexivity|]. split; [reflexivity|].
  apply (X18_indentation_is_immaterial Demo.richData); reflexivity.
Defined.
